(** * idf-build-apps: the App build-decision and build-lifecycle engine

    A shallow embedding of [src/idf_build_apps/app.py] and the properties
    its specification states about it.

    Conventions of the embedding.
    - A Python [str] is a [string]; an [int] is a [Z]; [None]-able values are
      [option]s; a [dict] is a [gmap]; a [set] is a [gset].
    - Everything the code reads from the process or the operating system
      (environment variables, symlink resolution, the manifest, the IDF
      version constants) is gathered in a [World] record that the embedded
      functions take as an explicit argument.
    - A [str] and the text of a file are held as [string]s, non-ASCII
      characters in their UTF-8 encoding.  Reading a file in text mode
      translates its line ends (universal newlines).  The regular files
      of the sdkconfig pipeline are a [gmap string string] from paths to
      texts; the calls that create and remove directories are recorded.
    - [build] runs in a small state-and-exception monad whose state holds the
      App, the log sink and the trace of the actions performed so far. *)

From Stdlib Require Import ZArith Ascii String DecimalString.
From stdpp Require Import gmap strings list fin_maps.

Local Open Scope Z_scope.

(* ===================================================================== *)
(** * Part I: definitions                                                *)
(* ===================================================================== *)

(** ** Python string primitives *)

Module PyStr.

(** [str.startswith]. *)
Fixpoint startswith (p s : string) : bool :=
  match p, s with
  | EmptyString, _ => true
  | String a p', String b s' => if Ascii.eqb a b then startswith p' s' else false
  | String _ _, EmptyString => false
  end.

(** [sub in s]. *)
Fixpoint contains (sub s : string) : bool :=
  startswith sub s ||
  match s with
  | EmptyString => false
  | String _ s' => contains sub s'
  end.

(** [str.endswith]. *)
Definition endswith (p s : string) : bool :=
  startswith (String.rev p) (String.rev s).

(** [s[n:]]. *)
Fixpoint drop (n : nat) (s : string) : string :=
  match n, s with
  | O, _ => s
  | S n', String _ s' => drop n' s'
  | S _, EmptyString => EmptyString
  end.

(** [s[:n]]. *)
Fixpoint take (n : nat) (s : string) : string :=
  match n, s with
  | O, _ => EmptyString
  | S n', String c s' => String c (take n' s')
  | S _, EmptyString => EmptyString
  end.

(** [s[a:b]] and [s[a:]] for the non-negative bounds the code computes. *)
Definition slice (s : string) (a b : Z) : string :=
  take (Z.to_nat (b - a)) (drop (Z.to_nat a) s).
Definition slice_from (s : string) (a : Z) : string :=
  drop (Z.to_nat a) s.

(** [str.find]: the index of the first occurrence, [-1] when there is
    none. *)
Fixpoint find (sub s : string) : Z :=
  if startswith sub s then 0
  else match s with
       | EmptyString => -1
       | String _ s' =>
           let r := find sub s' in
           if r =? -1 then -1 else r + 1
       end.

(** [str.replace old new] for a non-empty [old]: occurrences are taken
    left to right and do not overlap; [skip] counts the characters of the
    occurrence in progress that are still to be consumed. *)
Fixpoint replace_go (old new : string) (skip : nat) (s : string) : string :=
  match s with
  | EmptyString => EmptyString
  | String c s' =>
      match skip with
      | S k => replace_go old new k s'
      | O =>
          if startswith old s
          then new +:+ replace_go old new (pred (String.length old)) s'
          else String c (replace_go old new O s')
      end
  end.

(** [str.replace] with an empty [old] puts [new] around every character. *)
Fixpoint interleave (new s : string) : string :=
  match s with
  | EmptyString => new
  | String c s' => new +:+ String c (interleave new s')
  end.

Definition replace (old new s : string) : string :=
  match old with
  | EmptyString => interleave new s
  | String _ _ => replace_go old new O s
  end.

(** [str.split(sep)] for a one-character separator. *)
Fixpoint split (sep : ascii) (s : string) : list string :=
  match s with
  | EmptyString => [EmptyString]
  | String c s' =>
      if Ascii.eqb c sep then EmptyString :: split sep s'
      else match split sep s' with
           | w :: ws => String c w :: ws
           | [] => [String c EmptyString]
           end
  end.

(** [sep.join(l)]. *)
Fixpoint join (sep : string) (l : list string) : string :=
  match l with
  | [] => EmptyString
  | [x] => x
  | x :: l' => x +:+ sep +:+ join sep l'
  end.

(** [str(n)] for an [int]. *)
Definition of_int (n : Z) : string := NilZero.string_of_int (Z.to_int n).

(** Truthiness of a [str] and of an [Optional[str]]. *)
Definition truthy (s : string) : bool :=
  match s with EmptyString => false | String _ _ => true end.
Definition opt_truthy (o : option string) : bool :=
  match o with Some s => truthy s | None => false end.

(** ASCII classes. *)
Definition is_word (c : ascii) : bool :=
  let n := nat_of_ascii c in
  ((48 <=? n)%nat && (n <=? 57)%nat) || ((65 <=? n)%nat && (n <=? 90)%nat)
  || ((97 <=? n)%nat && (n <=? 122)%nat) || (n =? 95)%nat.
Definition is_space (c : ascii) : bool :=
  let n := nat_of_ascii c in
  ((9 <=? n)%nat && (n <=? 13)%nat) || ((28 <=? n)%nat && (n <=? 32)%nat).

(** [str.rstrip()]. *)
Fixpoint rstrip (s : string) : string :=
  match s with
  | EmptyString => EmptyString
  | String c s' =>
      match rstrip s' with
      | EmptyString => if is_space c then EmptyString else String c EmptyString
      | r => String c r
      end
  end.

(** Iterating a [str] yields its characters, each a one-character [str]. *)
Fixpoint chars (s : string) : list string :=
  match s with
  | EmptyString => []
  | String c s' => String c EmptyString :: chars s'
  end.

(** What reading in text mode makes of the line ends of a file
    ([newline=None]): a carriage return followed by a line feed, and a
    carriage return alone, become a line feed. *)
Fixpoint universal_newlines (s : string) : string :=
  match s with
  | EmptyString => EmptyString
  | String c s' =>
      if Ascii.eqb c "013"%char then
        String "010"%char
          match s' with
          | String d s'' =>
              if Ascii.eqb d "010"%char then universal_newlines s''
              else universal_newlines s'
          | EmptyString => EmptyString
          end
      else String c (universal_newlines s')
  end.

(** [fr.read()] on a file opened for reading in text mode. *)
Definition read_text (content : string) : string := universal_newlines content.

(** The lines of a text, each with its line terminator. *)
Fixpoint lines_go (cur : string) (s : string) : list string :=
  match s with
  | EmptyString =>
      match cur with EmptyString => [] | _ => [String.rev cur] end
  | String c s' =>
      if Ascii.eqb c "010"%char
      then String.rev (String c cur) :: lines_go EmptyString s'
      else lines_go (String c cur) s'
  end.
(** What iterating a file opened for reading in text mode yields, and
    [fr.readlines()]. *)
Definition lines (content : string) : list string :=
  lines_go EmptyString (read_text content).

(** What a sequence of [write] calls leaves in a file. *)
Definition concat (l : list string) : string :=
  foldr String.append EmptyString l.

End PyStr.

(** ** The parts of [os.path] (POSIX flavour) the code calls *)

Module OsPath.
Import PyStr.

(** [os.path.sep]. *)
Definition sep : string := "/".

(** [os.path.isabs]. *)
Definition isabs (s : string) : bool := startswith "/" s.

(** [os.path.join(a, b)]. *)
Definition join (a b : string) : string :=
  if startswith "/" b then b
  else if negb (truthy a) || endswith "/" a then a +:+ b
  else a +:+ "/" +:+ b.

(** [os.path.basename]: what follows the last slash. *)
Definition basename (p : string) : string :=
  List.last (split "/" p) EmptyString.

(** One round of the component loop of [os.path.normpath]; the stack of
    kept components is held newest first. *)
Definition normpath_step (initial_slashes : nat) (st : list string) (comp : string)
  : list string :=
  if String.eqb comp EmptyString || String.eqb comp "." then st
  else if negb (String.eqb comp "..")
          || (Nat.eqb initial_slashes 0 && match st with [] => true | _ => false end)
          || match st with top :: _ => String.eqb top ".." | [] => false end
  then comp :: st
  else match st with [] => st | _ :: st' => st' end.

Fixpoint slashes (n : nat) : string :=
  match n with O => EmptyString | S n' => String "/" (slashes n') end.

(** [os.path.normpath]. *)
Definition normpath (path : string) : string :=
  if negb (truthy path) then "."
  else
    let initial_slashes : nat :=
      if startswith "/" path
      then if startswith "//" path && negb (startswith "///" path) then 2%nat else 1%nat
      else 0%nat in
    let comps := fold_left (normpath_step initial_slashes) (split "/" path) [] in
    let p := slashes initial_slashes +:+ PyStr.join "/" (rev comps) in
    if truthy p then p else ".".

(** [os.path.expandvars]: [$name] and [${name}] are replaced by the value
    of a defined variable and left as they are otherwise; a substituted
    value is not scanned again.  The scanner is a four-state machine. *)
Inductive scan_mode :=
| Plain
| Dollar
| Word (name : string)
| Brace (name : string).

Definition subst_word (env : string -> option string) (name : string) : string :=
  match env name with Some v => v | None => "$" +:+ name end.
Definition subst_brace (env : string -> option string) (name : string) : string :=
  match env name with Some v => v | None => "${" +:+ name +:+ "}" end.

Fixpoint expandvars_go (env : string -> option string) (m : scan_mode) (s : string)
  : string :=
  match s with
  | EmptyString =>
      match m with
      | Plain => EmptyString
      | Dollar => "$"
      | Word name => subst_word env name
      | Brace name => "${" +:+ name
      end
  | String c r =>
      let plain :=
        if Ascii.eqb c "$" then expandvars_go env Dollar r
        else String c (expandvars_go env Plain r) in
      match m with
      | Plain => plain
      | Dollar =>
          if is_word c then expandvars_go env (Word (String c EmptyString)) r
          else if Ascii.eqb c "{" && contains "}" r then expandvars_go env (Brace EmptyString) r
          else "$" +:+ plain
      | Word name =>
          if is_word c then expandvars_go env (Word (name +:+ String c EmptyString)) r
          else subst_word env name +:+ plain
      | Brace name =>
          if Ascii.eqb c "}" then subst_brace env name +:+ expandvars_go env Plain r
          else expandvars_go env (Brace (name +:+ String c EmptyString)) r
      end
  end.

Definition expandvars (env : string -> option string) (path : string) : string :=
  expandvars_go env Plain path.

End OsPath.

(** ** Data model *)

(** [class BuildOrNot]. *)
Inductive BuildOrNot := YES | NO | UNKNOWN.

Global Instance BuildOrNot_eq_dec : EqDecision BuildOrNot.
Proof. solve_decision. Defined.

(** The two concrete subclasses of [App]. *)
Inductive BuildSystem := Make | CMake.

Global Instance BuildSystem_eq_dec : EqDecision BuildSystem.
Proof. solve_decision. Defined.

(** A resolved absolute [pathlib.Path]: its anchor and the names below it
    ([parts] is the anchor followed by the names). *)
Record Path := mkPath { anchor : string; names : list string }.

Global Instance Path_eq_dec : EqDecision Path.
Proof. solve_decision. Defined.

(** The two queries of the manifest collaborator that [App] forwards. *)
Record Manifest := mkManifest {
  manifest_depends_components : string -> list string;
  manifest_depends_filepatterns : string -> list string
}.

(** What the code reads from its process and from the operating system. *)
Record World := mkWorld {
  (** [os.environ] *)
  environ : string -> option string;
  (** [os.path.realpath] on the filesystem of the moment *)
  realpath : string -> string;
  (** [utils.to_absolute_path] (expands [~], resolves against the current
      directory) *)
  to_absolute_path : string -> Path;
  (** whether a modified file, made absolute against the manifest root, is
      among the paths a dependency pattern globs to *)
  pattern_matches : option string -> string -> string -> bool;
  (** [App.MANIFEST] *)
  MANIFEST : option Manifest;
  (** [constants.IDF_VERSION_MAJOR] and its two siblings *)
  IDF_VERSION_MAJOR : Z;
  IDF_VERSION_MINOR : Z;
  IDF_VERSION_PATCH : Z;
  (** [App.IGNORE_WARNS_REGEXES], each pattern as the predicate
      [re.search(pattern, line)] *)
  IGNORE_WARNS_REGEXES : list (string -> bool);
  (** [os.path.isdir] when the sdkconfig pipeline starts *)
  isdir : string -> bool;
  (** [glob fs f pattern]: the paths [Path(f).parent.glob(pattern)]
      yields, as strings and in the order it yields them, where the
      regular files are [fs]; [None] when pathlib refuses the pattern
      with an exception *)
  glob : gmap string string -> string -> string -> option (list string)
}.

(** [class App]: the pydantic fields and the private attributes that
    [__init__] sets. *)
Record App := mkApp {
  build_system : BuildSystem;
  app_dir : string;
  target : string;
  sdkconfig_path : option string;
  config_name : option string;
  should_build : BuildOrNot;
  _work_dir : string;
  _build_dir : string;
  _build_log_path : option string;
  _size_json_path : option string;
  dry_run : bool;
  index : option Z;
  verbose : bool;
  check_warnings : bool;
  preserve : bool;
  parallel_index : Z;
  parallel_count : Z;
  _checked_should_build : bool;
  _sdkconfig_defaults : list string;
  _sdkconfig_files : list string;
  _sdkconfig_files_defined_target : option string;
  cmake_vars : gmap string string
}.

Definition set_should_build (v : BuildOrNot) (a : App) : App :=
  mkApp (build_system a) (app_dir a) (target a) (sdkconfig_path a) (config_name a)
    v (_work_dir a) (_build_dir a) (_build_log_path a) (_size_json_path a)
    (dry_run a) (index a) (verbose a) (check_warnings a) (preserve a)
    (parallel_index a) (parallel_count a) (_checked_should_build a)
    (_sdkconfig_defaults a) (_sdkconfig_files a) (_sdkconfig_files_defined_target a)
    (cmake_vars a).

Definition set_checked_should_build (v : bool) (a : App) : App :=
  mkApp (build_system a) (app_dir a) (target a) (sdkconfig_path a) (config_name a)
    (should_build a) (_work_dir a) (_build_dir a) (_build_log_path a) (_size_json_path a)
    (dry_run a) (index a) (verbose a) (check_warnings a) (preserve a)
    (parallel_index a) (parallel_count a) v
    (_sdkconfig_defaults a) (_sdkconfig_files a) (_sdkconfig_files_defined_target a)
    (cmake_vars a).

Definition set_sdkconfig_state
  (files : list string) (tgt : option string) (vars : gmap string string) (a : App) : App :=
  mkApp (build_system a) (app_dir a) (target a) (sdkconfig_path a) (config_name a)
    (should_build a) (_work_dir a) (_build_dir a) (_build_log_path a) (_size_json_path a)
    (dry_run a) (index a) (verbose a) (check_warnings a) (preserve a)
    (parallel_index a) (parallel_count a) (_checked_should_build a)
    (_sdkconfig_defaults a) files tgt vars.

(** ** PathTemplate: [App._expand] and the path properties *)

Module PathTemplate.
Import PyStr OsPath.

Definition TARGET_PLACEHOLDER : string := "@t".
Definition WILDCARD_PLACEHOLDER : string := "@w".
Definition NAME_PLACEHOLDER : string := "@n".
Definition FULL_NAME_PLACEHOLDER : string := "@f".
Definition INDEX_PLACEHOLDER : string := "@i".
Definition PARALLEL_INDEX_PLACEHOLDER : string := "@p".
Definition IDF_VERSION_PLACEHOLDER : string := "@v".

(** [App.name]. *)
Definition name (w : World) (a : App) : string :=
  basename (realpath w (app_dir a)).

(** The f-string [f'{IDF_VERSION_MAJOR}_{IDF_VERSION_MINOR}_{IDF_VERSION_PATCH}']. *)
Definition idf_version_str (w : World) : string :=
  of_int (IDF_VERSION_MAJOR w) +:+ "_" +:+ of_int (IDF_VERSION_MINOR w)
    +:+ "_" +:+ of_int (IDF_VERSION_PATCH w).

(** [app_dir.replace(os.path.sep, '_')]. *)
Definition escaped_app_dir (a : App) : string :=
  replace sep "_" (app_dir a).

(** Lines 211-217 of [_expand]: the index, parallel-index, version and
    target placeholders. *)
Definition expand_indices (w : World) (a : App) (path : string) : string :=
  let path :=
    match index a with
    | Some i => replace INDEX_PLACEHOLDER (of_int i) path
    | None => path
    end in
  let path := replace PARALLEL_INDEX_PLACEHOLDER (of_int (parallel_index a)) path in
  let path := replace IDF_VERSION_PLACEHOLDER (idf_version_str w) path in
  replace TARGET_PLACEHOLDER (target a) path.

(** Lines 211-220 of [_expand]: the six placeholders that stand for a
    value, in the order the code replaces them. *)
Definition expand_tokens (w : World) (a : App) (path : string) : string :=
  let path := expand_indices w a path in
  let path := replace NAME_PLACEHOLDER (name w a) path in
  if contains FULL_NAME_PLACEHOLDER path
  then replace FULL_NAME_PLACEHOLDER (escaped_app_dir a) path
  else path.

(** Lines 221-231 of [_expand]: the wildcard placeholder. *)
Definition expand_wildcard (a : App) (path : string) : string :=
  let wildcard_pos := find WILDCARD_PLACEHOLDER path in
  if negb (wildcard_pos =? -1) then
    if opt_truthy (config_name a) then
      replace WILDCARD_PLACEHOLDER (default EmptyString (config_name a)) path
    else
      let left_of_wildcard := Z.max 0 (wildcard_pos - 1) in
      let right_of_wildcard :=
        wildcard_pos + Z.of_nat (String.length WILDCARD_PLACEHOLDER) in
      slice path 0 left_of_wildcard +:+ slice_from path right_of_wildcard
  else path.

(** [App._expand]. *)
Definition _expand (w : World) (a : App) (path : string) : string :=
  if negb (truthy path) then path
  else expandvars (environ w) (expand_wildcard a (expand_tokens w a path)).

(** [App.work_dir], [App.build_dir]. *)
Definition work_dir (w : World) (a : App) : string := _expand w a (_work_dir a).
Definition build_dir (w : World) (a : App) : string := _expand w a (_build_dir a).

(** [App.build_path]. *)
Definition build_path (w : World) (a : App) : string :=
  if isabs (build_dir w a) then build_dir w a
  else realpath w (join (work_dir w a) (build_dir w a)).

(** [App.build_log_path], [App.size_json_path]. *)
Definition build_log_path (w : World) (a : App) : option string :=
  match _build_log_path a with
  | Some p => if truthy p then Some (join (build_path w a) (_expand w a p)) else None
  | None => None
  end.
Definition size_json_path (w : World) (a : App) : option string :=
  match _size_json_path a with
  | Some p => if truthy p then Some (join (build_path w a) (_expand w a p)) else None
  | None => None
  end.

(** The seven placeholders. *)
Definition PLACEHOLDERS : list string :=
  [INDEX_PLACEHOLDER; PARALLEL_INDEX_PLACEHOLDER; IDF_VERSION_PLACEHOLDER;
   TARGET_PLACEHOLDER; NAME_PLACEHOLDER; FULL_NAME_PLACEHOLDER; WILDCARD_PLACEHOLDER].

(** A string none of the placeholders occurs in. *)
Definition placeholder_free (path : string) : bool :=
  forallb (fun tok => negb (contains tok path)) PLACEHOLDERS.

(** [s[:-1]]. *)
Definition but_last (s : string) : string := take (pred (String.length s)) s.

(** The order the specification words: the full-name placeholder replaced
    before the name placeholder.  Only compared with [expand_tokens]. *)
Definition expand_tokens_full_name_first (w : World) (a : App) (path : string) : string :=
  let path := expand_indices w a path in
  let path :=
    if contains FULL_NAME_PLACEHOLDER path
    then replace FULL_NAME_PLACEHOLDER (escaped_app_dir a) path
    else path in
  replace NAME_PLACEHOLDER (name w a) path.

Definition _expand_full_name_first (w : World) (a : App) (path : string) : string :=
  if negb (truthy path) then path
  else expandvars (environ w)
         (expand_wildcard a (expand_tokens_full_name_first w a path)).

End PathTemplate.

(** ** SdkconfigPipeline: [App._process_sdkconfig_files] *)

Module Sdkconfig.
Import PyStr OsPath PathTemplate.

(** [CMakeApp.SDKCONFIG_TEST_OPTS], [CMakeApp.SDKCONFIG_IGNORE_OPTS]. *)
Definition SDKCONFIG_TEST_OPTS : list string :=
  ["EXCLUDE_COMPONENTS"; "TEST_EXCLUDE_COMPONENTS"; "TEST_COMPONENTS"].
Definition SDKCONFIG_IGNORE_OPTS : list string := ["TEST_GROUPS"].

Definition str_in (k : string) (l : list string) : bool :=
  existsb (String.eqb k) l.

Fixpoint take_value (s : string) : string :=
  match s with
  | EmptyString => EmptyString
  | String c s' =>
      if Ascii.eqb c "034"%char || Ascii.eqb c "010"%char then EmptyString
      else String c (take_value s')
  end.

Definition skip_quote (s : string) : string :=
  match s with
  | String c s' => if Ascii.eqb c "034"%char then s' else s
  | EmptyString => s
  end.

Fixpoint all_newlines (s : string) : bool :=
  match s with
  | EmptyString => true
  | String c s' => Ascii.eqb c "010"%char && all_newlines s'
  end.

(** [SDKCONFIG_LINE_REGEX.match(line)]: group 1 is what precedes the
    first equals sign and must not be empty; after the equals sign come an
    optional double quote, group 2 (the longest run free of double quotes
    and newlines), an optional double quote and newlines to the end. *)
Definition SDKCONFIG_LINE_REGEX_match (line : string) : option (string * string) :=
  let eq_pos := find "=" line in
  if eq_pos <=? 0 then None
  else
    let key := slice line 0 eq_pos in
    let rest := skip_quote (slice_from line (eq_pos + 1)) in
    let value := take_value rest in
    let rest := skip_quote (drop (String.length value) rest) in
    if all_newlines rest then Some (key, value) else None.

(** The mutable state of the line loop: the target a file declared and
    the CMake variables collected so far. *)
Record LineState := mkLineState {
  ls_target : option string;
  ls_vars : gmap string string
}.

(** One round of the loop [for line in fr]: the new state and what is
    written to the scratch copy, [None] when the round ends in
    [continue]. *)
Definition process_line (w : World) (bs : BuildSystem) (st : LineState) (line : string)
  : LineState * option string :=
  let line := expandvars (environ w) line in
  let m := SDKCONFIG_LINE_REGEX_match line in
  let key := fst <$> m in
  let st :=
    match m with
    | Some (k, v) =>
        if String.eqb k "CONFIG_IDF_TARGET"
        then mkLineState (Some v) (ls_vars st) else st
    | None => st
    end in
  match bs, m with
  | CMake, Some (k, v) =>
      if str_in k SDKCONFIG_TEST_OPTS
      then (mkLineState (ls_target st) (<[k := v]> (ls_vars st)), None)
      else if str_in k SDKCONFIG_IGNORE_OPTS then (st, None)
      else (st, Some line)
  | _, _ => (st, Some line)
  end.

Fixpoint process_lines (w : World) (bs : BuildSystem) (st : LineState) (ls : list string)
  : LineState * list string :=
  match ls with
  | [] => (st, [])
  | l :: ls' =>
      let '(st1, out) := process_line w bs st l in
      let '(st2, outs) := process_lines w bs st1 ls' in
      (st2, match out with Some o => o :: outs | None => outs end)
  end.

(** The state of the file loop: the regular files, the line state and the
    list [res]. *)
Record PipeState := mkPipeState {
  ps_fs : gmap string string;
  ps_line : LineState;
  ps_res : list string
}.

(** The exceptions that leave the method, with the files as they are at
    that moment: pathlib refusing the pattern of the glob, and
    [shutil.copy] raising on a path the glob yielded. *)
Inductive PipeExn :=
| GlobError (pattern : string) (fs : gmap string string)
| CopyError (src : string) (fs : gmap string string).

(** The calls that create and remove directories.  Directories are not
    part of the file map: the calls are recorded in the order they are
    made.  [os.makedirs] creates the directory with every missing
    ancestor; [os.rmdir] stands inside [try ... except OSError: pass] and
    removes the directory if it is empty. *)
Inductive DirCall :=
| Makedirs (path : string)
| Rmdir (path : string).

(** [expanded_dir]. *)
Definition expanded_dir (w : World) (a : App) : string :=
  join (join (work_dir w a) "expanded_sdkconfig_files") (basename (build_dir w a)).

(** The candidate path after [os.path.join(self.work_dir, f)]. *)
Definition resolve_candidate (w : World) (a : App) (f : string) : string :=
  if isabs f then f else join (work_dir w a) f.

(** [Path(f).parent.glob(os.path.basename(f) + '.' + self.target)] on the
    files of the moment. *)
Definition target_specific_files
  (w : World) (fs : gmap string string) (a : App) (f : string) : option (list string) :=
  glob w fs f (basename f +:+ "." +:+ target a).

(** The loop of [shutil.copy(target_specific_file, expanded_dir)] over
    the paths the glob yielded: each goes to the directory under its base
    name.  [shutil.copy] raises for a source that is no regular file and
    for a source that is its own destination. *)
Fixpoint copy_all (dir : string) (fs : gmap string string) (srcs : list string)
  : PipeExn + gmap string string :=
  match srcs with
  | [] => inr fs
  | src :: srcs' =>
      let dst := join dir (basename src) in
      match fs !! src with
      | Some c =>
          if String.eqb src dst then inl (CopyError src fs)
          else copy_all dir (<[dst := c]> fs) srcs'
      | None => inl (CopyError src fs)
      end
  end.

(** One round of the loop over the candidate files.  Opening the scratch
    copy for writing truncates it before the first line of [f] is read;
    the two files are compared as [read()] returns them. *)
Definition process_file (w : World) (a : App) (st : PipeState) (f0 : string)
  : PipeExn + PipeState :=
  let f := resolve_candidate w a f0 in
  match ps_fs st !! f with
  | None => inr st
  | Some _ =>
      let expanded_fp := join (expanded_dir w a) (basename f) in
      let fs1 := <[expanded_fp := EmptyString]> (ps_fs st) in
      let '(ls, out) :=
        process_lines w (build_system a) (ps_line st)
          (lines (default EmptyString (fs1 !! f))) in
      let fs2 := <[expanded_fp := concat out]> fs1 in
      if String.eqb (read_text (default EmptyString (fs2 !! f)))
                    (read_text (default EmptyString (fs2 !! expanded_fp)))
      then inr (mkPipeState (delete expanded_fp fs2) ls (ps_res st ++ [f]))
      else
        match target_specific_files w fs2 a f with
        | None => inl (GlobError (basename f +:+ "." +:+ target a) fs2)
        | Some srcs =>
            match copy_all (expanded_dir w a) fs2 srcs with
            | inr fs3 => inr (mkPipeState fs3 ls (ps_res st ++ [expanded_fp]))
            | inl e => inl e
            end
        end
  end.

(** The list the loop runs over: the defaults, then the overlay file. *)
Definition candidates (a : App) : list string :=
  _sdkconfig_defaults a ++
  (if opt_truthy (sdkconfig_path a) then [default EmptyString (sdkconfig_path a)] else []).

(** The loop over the candidates, from a given state. *)
Fixpoint run_files (w : World) (a : App) (st : PipeState) (cands : list string)
  : PipeExn + PipeState :=
  match cands with
  | [] => inr st
  | f0 :: cands' =>
      match process_file w a st f0 with
      | inr st' => run_files w a st' cands'
      | inl e => inl e
      end
  end.

Definition run_pipeline (w : World) (a : App) (fs : gmap string string)
  : PipeExn + PipeState :=
  run_files w a
    (mkPipeState fs (mkLineState (_sdkconfig_files_defined_target a) (cmake_vars a)) [])
    (candidates a).

(** The directory calls of a run that reaches the end of the method. *)
Definition dir_calls (w : World) (a : App) : list DirCall :=
  (if isdir w (expanded_dir w a) then [] else [Makedirs (expanded_dir w a)])
  ++ [Rmdir (expanded_dir w a);
      Rmdir (join (work_dir w a) "expanded_sdkconfig_files")].

(** [App._process_sdkconfig_files]: the files it leaves, the directory
    calls it made, and the App with [_sdkconfig_files],
    [_sdkconfig_files_defined_target] and [cmake_vars] assigned. *)
Definition _process_sdkconfig_files (w : World) (a : App) (fs : gmap string string)
  : PipeExn + (gmap string string * list DirCall * App) :=
  match run_pipeline w a fs with
  | inr st =>
      inr (ps_fs st, dir_calls w a,
           set_sdkconfig_state (ps_res st) (ls_target (ps_line st))
             (ls_vars (ps_line st)) a)
  | inl e => inl e
  end.

End Sdkconfig.

(** ** BuildDecision: [App.is_modified], [App.check_should_build] *)

Module Decision.
Import PyStr.

(** An argument annotated [Union[List[str], str, None]]. *)
Inductive StrOrList :=
| PyStrArg (s : string)
| PyListArg (l : list string).

(** Modelled from the spec: [utils.to_list] is not under src/; a lone
    string becomes a one-element list, a list and [None] stay what they
    are. *)
Definition to_list (x : option StrOrList) : option (list string) :=
  match x with
  | None => None
  | Some (PyStrArg s) => Some [s]
  | Some (PyListArg l) => Some l
  end.

(** What [for f in modified_files] runs over: the elements of a list, the
    characters of a string, nothing when the argument is falsy. *)
Definition iterate (x : option StrOrList) : list string :=
  match x with
  | None => []
  | Some (PyStrArg s) => chars s
  | Some (PyListArg l) => l
  end.

(** [Path.parts[-1]] and [Path.parents]. *)
Definition last_part (p : Path) : string := List.last (names p) (anchor p).
Definition parents (p : Path) : list Path :=
  map (fun k => mkPath (anchor p) (firstn k (names p)))
      (rev (seq 0 (length (names p)))).

(** [App.is_modified]. *)
Definition is_modified (w : World) (a : App) (modified_files : option StrOrList) : bool :=
  let _app_dir_fullpath := to_absolute_path w (app_dir a) in
  existsb
    (fun f =>
       let _f_fullpath := to_absolute_path w f in
       negb (endswith ".md" (last_part _f_fullpath))
       && bool_decide (_app_dir_fullpath ∈ parents _f_fullpath))
    (iterate modified_files).

(** [App.depends_components], [App.depends_filepatterns]. *)
Definition depends_components (w : World) (a : App) : list string :=
  match MANIFEST w with
  | Some m => manifest_depends_components m (app_dir a)
  | None => []
  end.
Definition depends_filepatterns (w : World) (a : App) : list string :=
  match MANIFEST w with
  | Some m => manifest_depends_filepatterns m (app_dir a)
  | None => []
  end.

(** Modelled from the spec: [utils.files_matches_patterns] is not under
    src/; the modified files match when one of them matches one of the
    declared patterns, patterns being relative to the manifest root. *)
Definition files_matches_patterns
  (w : World) (files patterns : list string) (rootpath : option string) : bool :=
  existsb (fun f => existsb (fun p => pattern_matches w rootpath p f) patterns) files.

Definition nonempty {A} (l : list A) : bool :=
  match l with [] => false | _ :: _ => true end.

(** Lines 645-656: the component signal. *)
Definition component_signal
  (w : World) (a : App) (check_app_dependencies : bool)
  (modified_components : option (list string)) : BuildOrNot :=
  match modified_components with
  | Some mc =>
      if check_app_dependencies then
        if bool_decide
             (list_to_set (depends_components w a) ∩ list_to_set mc ≠@{gset string} ∅)
        then YES
        else if nonempty (depends_components w a) then NO
        else UNKNOWN
      else UNKNOWN
  | None => UNKNOWN
  end.

(** Lines 659-670: the file-pattern signal. *)
Definition filepattern_signal
  (w : World) (a : App) (manifest_rootpath : option string)
  (check_app_dependencies : bool) (modified_files : option (list string)) : BuildOrNot :=
  match modified_files with
  | Some mf =>
      if check_app_dependencies then
        if files_matches_patterns w mf (depends_filepatterns w a) manifest_rootpath
        then YES
        else if nonempty (depends_filepatterns w a) then NO
        else UNKNOWN
      else UNKNOWN
  | None => UNKNOWN
  end.

(** [App.check_should_build]. *)
Definition check_should_build
  (w : World) (a : App) (manifest_rootpath : option string)
  (check_app_dependencies : bool)
  (modified_components modified_files : option StrOrList) : App :=
  if negb (bool_decide (should_build a = UNKNOWN)) then a
  else if negb check_app_dependencies then
    set_checked_should_build true (set_should_build YES a)
  else if is_modified w a modified_files then
    set_checked_should_build true (set_should_build YES a)
  else
    let modified_components := to_list modified_components in
    let modified_files := to_list modified_files in
    let _modified_components :=
      component_signal w a check_app_dependencies modified_components in
    let _modified_files :=
      filepattern_signal w a manifest_rootpath check_app_dependencies modified_files in
    let a :=
      if bool_decide (_modified_components = YES) || bool_decide (_modified_files = YES)
      then set_should_build YES a
      else if bool_decide (_modified_components = NO) then set_should_build NO a
      else a in
    set_checked_should_build true a.

End Decision.

(** ** BuildLifecycle: [App.build] and the two [_build] variants *)

Module Lifecycle.
Import PyStr OsPath PathTemplate.

(** The exceptions that travel through [build]: [utils.BuildError] and
    everything else. *)
Inductive Exn :=
| BuildError (msg : string)
| OtherError (msg : string).

Inductive Level := LDebug | LInfo | LWarning | LError.

(** One constructor per [LOGGER] call site of [build], [_build] and
    [write_size_json], with the arguments of the call. *)
Inductive LogRecord :=
| MsgPreparing
| MsgWorkDirExists (work : string)
| MsgCopyingApp (src dst : string)
| MsgBuildDirExists (dir : string)
| MsgRemovingSdkconfig (file : string)
| MsgWritingBuildLog (path : string)
| MsgSkippingDryRun
| MsgIgnoredWarning (line : string)
| MsgLine (line : string)
| MsgLastLines (n : Z) (logname : string)
| MsgRemovedTempLog (logname : string)
| MsgRemovingBuildDir (dir : string)
| MsgSucceededWithWarnings
| MsgSucceeded
| MsgSkipBuildingComponents (dir : string) (build_components modified : list string)
| MsgSkipBuilding
| MsgMapFileNotFound (size_json : string)
| MsgGeneratedSizeInfo (size_json : string).

(** Where [subprocess_run] sends the output of the command. *)
Inductive Sink := ToBuildLog | ToFile (path : string) | ToNowhere.

Global Instance Sink_eq_dec : EqDecision Sink.
Proof. solve_decision. Defined.

(** The actions [build] and its helpers perform, in the order of the
    trace. *)
Inductive Event :=
| ELog (lvl : Level) (r : LogRecord)
| ERmtree (path : string)
| ECopytree (src dst : string)
| EMakedirs (path : string)
| EUnlink (path : string)
| EOpenLog (path : string)
| EMkTempLog (path : string)
| ECloseLog (path : string)
| ERun (cmd : list string) (env : list (string * string)) (cwd : option string)
       (log_terminal : bool) (sink : Sink)
| ERmdir (path : string) (exclude_file_patterns : list string).

(** What [build] asks of the machine it runs on, each answer depending on
    the actions performed so far. *)
Record Host := mkHost {
  (** [os.path.exists] *)
  path_exists : list Event -> string -> bool;
  (** the name [tempfile.NamedTemporaryFile] gives the file it creates *)
  temp_name : list Event -> string;
  (** running a command: what it prints and its return code *)
  run_command : list Event -> list string -> string * Z;
  (** [json.load(fr)['build_components']] of the project description *)
  project_build_components : list Event -> list string;
  (** [find_first_match('*.map', build_path)] *)
  find_map_file : list Event -> string -> option string;
  (** [os.cpu_count()] *)
  cpu_count : option Z;
  (** [sys.executable], [str(IDF_PY)], [str(IDF_SIZE_PY)] *)
  sys_executable : string;
  IDF_PY : string;
  IDF_SIZE_PY : string;
  (** [IDF_VERSION >= Version('4.1')], [IDF_VERSION < Version('5.1')] *)
  idf_version_ge_4_1 : bool;
  idf_version_lt_5_1 : bool
}.

(** The state [build] threads: the App, the text of the log sink and the
    trace. *)
Record State := mkState {
  st_app : App;
  st_log : string;
  st_trace : list Event
}.

Definition M (A : Type) : Type := State -> State * (Exn + A).

Global Instance M_ret : MRet M := fun A x st => (st, inr x).
Global Instance M_bind : MBind M := fun A B f m st =>
  match m st with
  | (st', inr x) => f x st'
  | (st', inl e) => (st', inl e)
  end.

Definition raise {A} (e : Exn) : M A := fun st => (st, inl e).
Definition emit (e : Event) : M unit := fun st =>
  (mkState (st_app st) (st_log st) (st_trace st ++ [e]), inr tt).
Definition log (lvl : Level) (r : LogRecord) : M unit := emit (ELog lvl r).
Definition get_app : M App := fun st => (st, inr (st_app st)).
Definition put_app (a : App) : M unit := fun st =>
  (mkState a (st_log st) (st_trace st), inr tt).
Definition get_trace : M (list Event) := fun st => (st, inr (st_trace st)).
Definition read_log : M string := fun st => (st, inr (st_log st)).
Definition truncate_log : M unit := fun st =>
  (mkState (st_app st) EmptyString (st_trace st), inr tt).
Definition append_log (out : string) : M unit := fun st =>
  (mkState (st_app st) (st_log st +:+ out) (st_trace st), inr tt).
Definition when (b : bool) (m : M unit) : M unit := if b then m else mret tt.

(** [try: ... except BuildError as e: ...]: a [BuildError] is handed over
    as a value, any other exception keeps travelling. *)
Definition try_build {A} (m : M A) : M (Exn + A) := fun st =>
  match m st with
  | (st', inr x) => (st', inr (inr x))
  | (st', inl (BuildError msg)) => (st', inr (inl (BuildError msg)))
  | (st', inl e) => (st', inl e)
  end.

(** [try: ... finally: fin]. *)
Definition finally {A} (m : M A) (fin : M unit) : M A := fun st =>
  match m st with
  | (st', r) =>
      match fin st' with
      | (st'', inr _) => (st'', r)
      | (st'', inl e) => (st'', inl e)
      end
  end.

(** Modelled from the spec: [utils.subprocess_run] is not under src/; with
    [check=True] a non-zero exit is surfaced as a build error. *)
Definition subprocess_run
  (h : Host) (cmd : list string) (env : list (string * string)) (cwd : option string)
  (log_terminal : bool) (sink : Sink) : M unit :=
  tr ← get_trace;
  let '(out, rc) := run_command h tr cmd in
  emit (ERun cmd env cwd log_terminal sink);;
  when (bool_decide (sink = ToBuildLog)) (append_log out);;
  if rc =? 0 then mret tt
  else raise (BuildError ("Command returned non-zero exit status " +:+ of_int rc)).

(** [App.sdkconfig_files]. *)
Definition sdkconfig_files (w : World) (a : App) : list string :=
  map (realpath w) (_sdkconfig_files a).

(** The arguments [build] hands to [_build]. *)
Record BuildArgs := mkBuildArgs {
  manifest_rootpath : option string;
  modified_components : option (list string);
  modified_files : option (list string);
  check_app_dependencies : bool
}.

Definition log_terminal_of (w : World) (a : App) : bool :=
  negb (bool_decide (is_Some (build_log_path w a))).

(** [MakeApp._build]. *)
Definition make_build (w : World) (h : Host) (args : BuildArgs) : M bool :=
  a ← get_app;
  let additional_env_dict :=
    [("IDF_TARGET", target a); ("BUILD_DIR_BASE", build_path w a)] in
  let jobs := match cpu_count h with
              | Some n => if n =? 0 then 1 else n
              | None => 1
              end in
  let run cmd :=
    subprocess_run h cmd additional_env_dict (Some (work_dir w a))
      (log_terminal_of w a) ToBuildLog in
  run ["make"; "defconfig"];;
  run ["make"; "-j" +:+ of_int jobs];;
  mret true.

Definition set_inter_nonempty (l1 l2 : list string) : bool :=
  bool_decide (list_to_set l1 ∩ list_to_set l2 ≠@{gset string} ∅).

(** [common_args] of [CMakeApp._build]. *)
Definition cmake_common_args (w : World) (h : Host) (a : App) : list string :=
  [sys_executable h; IDF_PY h; "-B"; build_path w a; "-C"; work_dir w a;
   "-DIDF_TARGET=" +:+ target a;
   "-DSDKCONFIG_DEFAULTS=" +:+
     (if Decision.nonempty (sdkconfig_files w a)
      then PyStr.join ";" (sdkconfig_files w a) else ";")].

(** [build_args] of [CMakeApp._build].  The [-D] arguments follow the key
    order of the map, where Python follows insertion order. *)
Definition cmake_build_args (w : World) (h : Host) (a : App) : list string :=
  let vars := cmake_vars a in
  cmake_common_args w h a
  ++ List.map (fun kv => "-D" +:+ fst kv +:+ "=" +:+ snd kv) (map_to_list vars)
  ++ (if bool_decide (is_Some (vars !! "TEST_EXCLUDE_COMPONENTS"))
         && negb (bool_decide (is_Some (vars !! "TEST_COMPONENTS")))
      then ["-DTESTS_ALL=1"] else [])
  ++ (if bool_decide (is_Some (vars !! "CONFIG_APP_BUILD_BOOTLOADER"))
      then ["bootloader"] else [])
  ++ ["build"]
  ++ (if verbose a then ["-v"] else []).

(** Lines 797-826 of [CMakeApp._build]: the decision is taken if it was
    not, and an unknown one is settled by [reconfigure]; the result tells
    whether [_build] goes on. *)
Definition cmake_resolve_decision (w : World) (h : Host) (args : BuildArgs) : M bool :=
  a ← get_app;
  when (negb (_checked_should_build a))
    (put_app
       (Decision.check_should_build w a (manifest_rootpath args)
          (check_app_dependencies args)
          (Decision.PyListArg <$> modified_components args)
          (Decision.PyListArg <$> modified_files args)));;
  a ← get_app;
  match modified_components args with
  | Some mc =>
      if check_app_dependencies args && bool_decide (should_build a = UNKNOWN) then
        subprocess_run h (cmake_common_args w h a ++ ["reconfigure"])
          [("IDF_TARGET", target a)] None (log_terminal_of w a) ToBuildLog;;
        tr ← get_trace;
        let build_components :=
          List.filter truthy (project_build_components h tr) in
        if negb (set_inter_nonempty mc build_components) then
          log LInfo (MsgSkipBuildingComponents (app_dir a) build_components mc);;
          mret false
        else
          put_app (set_should_build YES a);; mret true
      else mret true
  | None => mret true
  end.

(** [CMakeApp._build]. *)
Definition cmake_build (w : World) (h : Host) (args : BuildArgs) : M bool :=
  proceed ← cmake_resolve_decision w h args;
  if negb proceed then mret false
  else
    a ← get_app;
    if bool_decide (should_build a = NO) then
      log LInfo MsgSkipBuilding;; mret false
    else
      subprocess_run h (cmake_build_args w h a) [("IDF_TARGET", target a)] None
        (log_terminal_of w a) ToBuildLog;;
      mret true.

(** The dispatch of [self._build] on the class of the App. *)
Definition _build (w : World) (h : Host) (args : BuildArgs) : M bool :=
  a ← get_app;
  match build_system a with
  | Make => make_build w h args
  | CMake => cmake_build w h args
  end.

(** [App.write_size_json], called only when [size_json_path] is set. *)
Definition write_size_json (w : World) (h : Host) (size_json : string) : M unit :=
  a ← get_app;
  tr ← get_trace;
  match find_map_file h tr (build_path w a) with
  | None => log LWarning (MsgMapFileNotFound size_json)
  | Some map_file =>
      (if idf_version_ge_4_1 h then
         subprocess_run h
           ([sys_executable h; IDF_SIZE_PY h]
            ++ (if idf_version_lt_5_1 h then ["--json"] else ["--format"; "json"])
            ++ ["-o"; size_json; map_file])
           [] None true ToNowhere
       else
         subprocess_run h [sys_executable h; IDF_SIZE_PY h; "--json"; map_file]
           [] None false (ToFile size_json));;
      log LInfo (MsgGeneratedSizeInfo size_json)
  end.

(** [App.LOG_DEBUG_LINES]. *)
Definition LOG_DEBUG_LINES : Z := 25.

(** The UTF-8 encodings of U+0130 (capital I with dot above) and U+0131
    (dotless i), the two characters outside ASCII that [re.IGNORECASE]
    lets the letter [i] of a [str] pattern match. *)
Definition CAPITAL_DOTTED_I : string := String "196"%char (String "176"%char EmptyString).
Definition DOTLESS_I : string := String "196"%char (String "177"%char EmptyString).

(** The two alternatives of [LOG_ERROR_WARNING_REGEX], character by
    character: for each the texts it matches under [re.IGNORECASE]. *)
Definition ERROR_COLON : list (list string) :=
  [["e"; "E"]; ["r"; "R"]; ["r"; "R"]; ["o"; "O"]; ["r"; "R"]; [":"]].
Definition WARNING_COLON : list (list string) :=
  [["w"; "W"]; ["a"; "A"]; ["r"; "R"]; ["n"; "N"];
   ["i"; "I"; CAPITAL_DOTTED_I; DOTLESS_I]; ["n"; "N"]; ["g"; "G"]; [":"]].

(** Whether the text begins with a match of the characters of a pattern,
    and whether a match begins somewhere in it. *)
Fixpoint match_here (pat : list (list string)) (s : string) : bool :=
  match pat with
  | [] => true
  | alts :: pat' =>
      existsb (fun alt => startswith alt s && match_here pat' (drop (String.length alt) s))
        alts
  end.
Fixpoint search (pat : list (list string)) (s : string) : bool :=
  match_here pat s ||
  match s with
  | EmptyString => false
  | String _ s' => search pat s'
  end.

(** [LOG_ERROR_WARNING_REGEX.search(line)]: the pattern
    [(?:error|warning):] with [re.IGNORECASE]. *)
Definition LOG_ERROR_WARNING_REGEX_search (line : string) : bool :=
  search ERROR_COLON line || search WARNING_COLON line.

(** [App.is_error_or_warning]. *)
Definition is_error_or_warning (w : World) (line : string) : bool * bool :=
  if negb (LOG_ERROR_WARNING_REGEX_search line) then (false, false)
  else (true, existsb (fun ignored => ignored line) (IGNORE_WARNS_REGEXES w)).

(** The non-blank lines of the log, right-stripped. *)
Definition log_lines (content : string) : list string :=
  List.map rstrip (List.filter (fun l => truthy (rstrip l)) (lines content)).

(** The loop that classifies the lines; its result is
    [has_unignored_warning]. *)
Fixpoint classify (w : World) (ls : list string) (has_unignored_warning : bool) : M bool :=
  match ls with
  | [] => mret has_unignored_warning
  | line :: ls' =>
      let '(is_ew, ignored) := is_error_or_warning w line in
      if is_ew then
        if ignored then log LInfo (MsgIgnoredWarning line);; classify w ls' has_unignored_warning
        else log LWarning (MsgLine line);; classify w ls' true
      else classify w ls' has_unignored_warning
  end.

(** [lines[-n:]] for a positive [n]. *)
Definition last_lines (n : Z) (ls : list string) : list string :=
  List.skipn (length ls - Z.to_nat n) ls.

Fixpoint log_each (lvl : Level) (ls : list string) : M unit :=
  match ls with
  | [] => mret tt
  | l :: ls' => log lvl (MsgLine l);; log_each lvl ls'
  end.

Definition opt_to_list {A} (o : option A) : list A :=
  match o with Some x => [x] | None => [] end.

(** Lines 418-448 of [build]: the preparation of the directories. *)
Definition prepare (w : World) (h : Host) : M unit :=
  a ← get_app;
  log LDebug MsgPreparing;;
  when (negb (String.eqb (work_dir w a) (app_dir a)))
    (tr ← get_trace;
     when (path_exists h tr (work_dir w a))
       (log LDebug (MsgWorkDirExists (work_dir w a));;
        when (negb (dry_run a)) (emit (ERmtree (work_dir w a))));;
     log LDebug (MsgCopyingApp (app_dir a) (work_dir w a));;
     when (negb (dry_run a)) (emit (ECopytree (app_dir a) (work_dir w a))));;
  tr ← get_trace;
  when (path_exists h tr (build_path w a))
    (log LDebug (MsgBuildDirExists (build_path w a));;
     when (negb (dry_run a)) (emit (ERmtree (build_path w a))));;
  when (negb (dry_run a)) (emit (EMakedirs (build_path w a)));;
  let sdkconfig_file := join (work_dir w a) "sdkconfig" in
  tr ← get_trace;
  when (path_exists h tr sdkconfig_file)
    (log LDebug (MsgRemovingSdkconfig sdkconfig_file);;
     when (negb (dry_run a)) (emit (EUnlink sdkconfig_file)));;
  match build_log_path w a with
  | Some p => log LInfo (MsgWritingBuildLog p)
  | None => mret tt
  end.

(** Lines 450-456 of [build]: the log sink, the configured path or a
    temporary file, and [keep_logfile]. *)
Definition open_log (w : World) (h : Host) : M (string * bool) :=
  a ← get_app;
  tr ← get_trace;
  match build_log_path w a with
  | Some p => emit (EOpenLog p);; truncate_log;; mret (p, true)
  | None =>
      let p := temp_name h tr in
      emit (EMkTempLog p);; truncate_log;; mret (p, false)
  end.

(** Lines 476-496: the classification of the log and, after a build
    error, its last lines. *)
Definition diagnose (w : World) (logfile_name : string) (build_with_error : option Exn)
  : M bool :=
  content ← read_log;
  let lines := log_lines content in
  has_unignored_warning ← classify w lines false;
  when (bool_decide (is_Some build_with_error))
    (log LError (MsgLastLines LOG_DEBUG_LINES logfile_name);;
     log_each LError (last_lines LOG_DEBUG_LINES lines));;
  mret has_unignored_warning.

(** Lines 498-500. *)
Definition remove_temp_log
  (logfile_name : string) (keep_logfile : bool) (build_with_error : option Exn) : M unit :=
  when (negb keep_logfile && negb (bool_decide (is_Some build_with_error)))
    (emit (EUnlink logfile_name);;
     log LDebug (MsgRemovedTempLog logfile_name)).

(** Lines 502-504. *)
Definition size_report (w : World) (h : Host) (is_built : bool) : M unit :=
  a ← get_app;
  match size_json_path w a with
  | Some p => when is_built (write_size_json w h p)
  | None => mret tt
  end.

(** Lines 506-518. *)
Definition clean_build_dir (w : World) : M unit :=
  a ← get_app;
  when (negb (preserve a))
    (log LInfo (MsgRemovingBuildDir (build_path w a));;
     emit (ERmdir (build_path w a)
             (opt_to_list (basename <$> size_json_path w a)
              ++ opt_to_list (basename <$> build_log_path w a)))).

(** Lines 520-531. *)
Definition conclude
  (build_with_error : option Exn) (has_unignored_warning is_built : bool) : M bool :=
  a ← get_app;
  match build_with_error with
  | Some e => raise e
  | None =>
      if check_warnings a && has_unignored_warning
      then raise (BuildError "Build succeeded with warnings")
      else
        (if has_unignored_warning then log LInfo MsgSucceededWithWarnings
         else log LInfo MsgSucceeded);;
        mret is_built
  end.

(** Lines 475-531: what [build] does once the [try] statement is over;
    [r] is the [BuildError] caught or the value [_build] returned. *)
Definition after_build
  (w : World) (h : Host) (logfile_name : string) (keep_logfile : bool) (r : Exn + bool)
  : M bool :=
  let build_with_error := match r with inl e => Some e | inr _ => None end in
  let is_built := match r with inl _ => false | inr b => b end in
  has_unignored_warning ← diagnose w logfile_name build_with_error;
  remove_temp_log logfile_name keep_logfile build_with_error;;
  size_report w h is_built;;
  clean_build_dir w;;
  conclude build_with_error has_unignored_warning is_built.

(** Lines 450-531 of [build], parameterised by the [_build] method. *)
Definition run_and_report
  (w : World) (h : Host) (_build_method : BuildArgs -> M bool) (args : BuildArgs)
  : M bool :=
  '(logfile_name, keep_logfile) ← open_log w h;
  r ← finally (try_build (_build_method args)) (emit (ECloseLog logfile_name));
  after_build w h logfile_name keep_logfile r.

(** [App.build], parameterised by the [_build] method; the arguments
    reach [_build] through [to_list]. *)
Definition build_with
  (w : World) (h : Host) (_build_method : BuildArgs -> M bool)
  (manifest_rootpath : option string)
  (modified_components modified_files : option Decision.StrOrList)
  (check_app_dependencies : bool) : M bool :=
  prepare w h;;
  a ← get_app;
  if dry_run a then log LDebug MsgSkippingDryRun;; mret true
  else
    run_and_report w h _build_method
      (mkBuildArgs manifest_rootpath (Decision.to_list modified_components)
         (Decision.to_list modified_files) check_app_dependencies).

(** [App.build] of a [MakeApp] or a [CMakeApp]. *)
Definition build (w : World) (h : Host) := build_with w h (_build w h).

(** The state a call starts from. *)
Definition initial_state (a : App) : State := mkState a EmptyString [].

(** The trace and the verdict of the classification loop, as functions of
    the lines. *)
Fixpoint classify_events (w : World) (ls : list string) : list Event :=
  match ls with
  | [] => []
  | line :: ls' =>
      match is_error_or_warning w line with
      | (true, true) => ELog LInfo (MsgIgnoredWarning line) :: classify_events w ls'
      | (true, false) => ELog LWarning (MsgLine line) :: classify_events w ls'
      | (false, _) => classify_events w ls'
      end
  end.
Definition has_unignored_warning_in (w : World) (ls : list string) : bool :=
  existsb (fun line =>
             match is_error_or_warning w line with
             | (true, false) => true
             | _ => false
             end) ls.

(** The state with some more events in its trace. *)
Definition with_events (st : State) (evs : list Event) : State :=
  mkState (st_app st) (st_log st) (st_trace st ++ evs).

(** The state in which [_build] starts when no log path is configured:
    the temporary file is there and empty. *)
Definition temp_log_opened (h : Host) (st : State) : State :=
  mkState (st_app st) EmptyString (st_trace st ++ [EMkTempLog (temp_name h (st_trace st))]).

(** The events [build] emits for the cleaning of the build directory. *)
Definition clean_events (w : World) (a : App) : list Event :=
  if preserve a then []
  else [ELog LInfo (MsgRemovingBuildDir (build_path w a));
        ERmdir (build_path w a)
          (opt_to_list (basename <$> size_json_path w a)
           ++ opt_to_list (basename <$> build_log_path w a))].

End Lifecycle.

(** ** Vocabulary of the statements *)

Module Sdkconfig_spec.
Import PyStr OsPath PathTemplate Sdkconfig.

(** The scratch copy of a candidate. *)
Definition scratch_path (w : World) (a : App) (f0 : string) : string :=
  join (expanded_dir w a) (basename (resolve_candidate w a f0)).

(** The place [shutil.copy] puts a file in the scratch directory. *)
Definition copy_dest (w : World) (a : App) (src : string) : string :=
  join (expanded_dir w a) (basename src).

(** The end of a line. *)
Definition nl : string := String "010"%char EmptyString.

(** A carriage return. *)
Definition cr : string := String "013"%char EmptyString.

(** Whether the CMake variant takes an (expanded) line out of the file. *)
Definition routed (line : string) : bool :=
  match SDKCONFIG_LINE_REGEX_match line with
  | Some (k, _) => str_in k SDKCONFIG_TEST_OPTS || str_in k SDKCONFIG_IGNORE_OPTS
  | None => false
  end.

(** The lines the line loop writes for the lines of a file: the expanded
    lines, without the routed ones for the CMake variant. *)
Definition written_lines (w : World) (bs : BuildSystem) (ls : list string) : list string :=
  match bs with
  | CMake => List.filter (fun l => negb (routed l)) (List.map (expandvars (environ w)) ls)
  | Make => List.map (expandvars (environ w)) ls
  end.

(** The text of the scratch copy of a file with the text [c]. *)
Definition normalized (w : World) (bs : BuildSystem) (c : string) : string :=
  concat (written_lines w bs (lines c)).

(** Whether the code finds the scratch copy equal to the file. *)
Definition unchanged (w : World) (bs : BuildSystem) (c : string) : bool :=
  String.eqb (read_text c) (read_text (normalized w bs c)).

(** A path that does not begin with the text of the scratch directory. *)
Definition outside_scratch (w : World) (a : App) (p : string) : bool :=
  negb (startswith (expanded_dir w a) p).

(** What a candidate contributes to the output list, and the lines it
    contributes to the line loop, on the files [fs]. *)
Definition output_of (w : World) (a : App) (fs : gmap string string) (f0 : string)
  : list string :=
  match fs !! resolve_candidate w a f0 with
  | None => []
  | Some c =>
      if unchanged w (build_system a) c then [resolve_candidate w a f0]
      else [scratch_path w a f0]
  end.
Definition lines_of (w : World) (a : App) (fs : gmap string string) (f0 : string)
  : list string :=
  match fs !! resolve_candidate w a f0 with
  | None => []
  | Some c => lines c
  end.

(** The line state the loop starts from. *)
Definition initial_lines (a : App) : LineState :=
  mkLineState (_sdkconfig_files_defined_target a) (cmake_vars a).

(** The candidates lie outside the scratch directory and no two of them
    share a scratch path. *)
Definition candidates_apart (w : World) (a : App) : Prop :=
  (forall f0, In f0 (candidates a) ->
              outside_scratch w a (resolve_candidate w a f0) = true) /\
  NoDup (List.map (scratch_path w a) (candidates a)).

(** The paths the glob yields beside a candidate on the files [fs], none
    when pathlib refuses the pattern. *)
Definition yielded (w : World) (a : App) (fs : gmap string string) (f0 : string)
  : list string :=
  default [] (target_specific_files w fs a (resolve_candidate w a f0)).

(** What the theorems about a whole run ask of the glob, for the
    candidates of the App on the files [fs]: pathlib accepts the
    patterns; the glob yields regular files outside the scratch
    directory; it yields the same for files that differ inside the
    scratch directory only; what it yields has the base name of no
    candidate; and two paths it yields with the same base name are the
    same path. *)
Definition glob_fits (w : World) (a : App) (fs : gmap string string) : Prop :=
  (forall f0, In f0 (candidates a) ->
              is_Some (target_specific_files w fs a (resolve_candidate w a f0))) /\
  (forall f0 g, In f0 (candidates a) -> In g (yielded w a fs f0) ->
                is_Some (fs !! g) /\ outside_scratch w a g = true) /\
  (forall fs1 f0, In f0 (candidates a) ->
                  (forall p, outside_scratch w a p = true -> fs1 !! p = fs !! p) ->
                  target_specific_files w fs1 a (resolve_candidate w a f0)
                  = target_specific_files w fs a (resolve_candidate w a f0)) /\
  (forall f0 f0' g, In f0 (candidates a) -> In f0' (candidates a) ->
                    In g (yielded w a fs f0) ->
                    copy_dest w a g <> scratch_path w a f0') /\
  (forall f0 f0' g g', In f0 (candidates a) -> In f0' (candidates a) ->
                       In g (yielded w a fs f0) -> In g' (yielded w a fs f0') ->
                       copy_dest w a g = copy_dest w a g' -> g = g').

(** Whether an (expanded) line makes the CMake variant record the
    variable [k]. *)
Definition records (k : string) (line : string) : bool :=
  match SDKCONFIG_LINE_REGEX_match line with
  | Some (k', _) => String.eqb k' k && str_in k' SDKCONFIG_TEST_OPTS
  | None => false
  end.

(** The output list of an outcome, [None] for an exception. *)
Definition outputs_left
  (r : PipeExn + (gmap string string * list DirCall * App)) : option (list string) :=
  match r with
  | inr (_, _, a) => Some (_sdkconfig_files a)
  | inl _ => None
  end.

(** The files an outcome leaves, whether it is a result or an
    exception. *)
Definition files_after {A} (files : A -> gmap string string) (r : PipeExn + A)
  : gmap string string :=
  match r with
  | inr x => files x
  | inl (GlobError _ fs) => fs
  | inl (CopyError _ fs) => fs
  end.
Definition files_left
  (r : PipeExn + (gmap string string * list DirCall * App)) : gmap string string :=
  files_after (fun x => fst (fst x)) r.

End Sdkconfig_spec.

Module Decision_spec.
Import Decision.

(** The arguments of one call of [check_should_build]. *)
Record Call := mkCall {
  call_manifest_rootpath : option string;
  call_check_app_dependencies : bool;
  call_modified_components : option StrOrList;
  call_modified_files : option StrOrList
}.

Definition apply_call (w : World) (a : App) (c : Call) : App :=
  check_should_build w a (call_manifest_rootpath c) (call_check_app_dependencies c)
    (call_modified_components c) (call_modified_files c).

(** The values [should_build] takes along a sequence of calls, the
    initial one first. *)
Fixpoint history (w : World) (a : App) (calls : list Call) : list BuildOrNot :=
  should_build a ::
  match calls with
  | [] => []
  | c :: calls' => history w (apply_call w a c) calls'
  end.

(** What may happen to the decision between two states of an App: nothing,
    or a step from [UNKNOWN] to [YES] or to [NO]. *)
Definition decision_step (a a' : App) : Prop :=
  should_build a' = should_build a \/
  (should_build a = UNKNOWN /\ (should_build a' = YES \/ should_build a' = NO)).

(** How often two consecutive values differ. *)
Fixpoint changes (l : list BuildOrNot) : nat :=
  match l with
  | x :: (y :: _) as l' => (if bool_decide (x = y) then 0 else 1)%nat + changes l'
  | _ => 0%nat
  end.

End Decision_spec.

Module Lifecycle_spec.
Import Lifecycle.

(** A computation that returns normally and does nothing but add events
    to the trace. *)
Definition quiet {A} (m : M A) : Prop :=
  forall st, exists evs x, m st = (with_events st evs, inr x).

(** A computation that, however it ends, leaves the trace it found with
    events added at its end. *)
Definition extending {A} (m : M A) : Prop :=
  forall st, exists evs, st_trace (fst (m st)) = st_trace st ++ evs.

(** The events that report the last lines of the log after a build
    error. *)
Definition last_lines_events (logfile_name : string) (ls : list string) : list Event :=
  ELog LError (MsgLastLines LOG_DEBUG_LINES logfile_name)
  :: List.map (fun l => ELog LError (MsgLine l)) (last_lines LOG_DEBUG_LINES ls).

(** The events of the removal of the temporary log. *)
Definition remove_events (logfile_name : string) : list Event :=
  [EUnlink logfile_name; ELog LDebug (MsgRemovedTempLog logfile_name)].

(** No event of the list removes a file. *)
Definition no_unlink (evs : list Event) : Prop :=
  forall p, ~ In (EUnlink p) evs.

End Lifecycle_spec.

(** ** Sample worlds, hosts and apps *)

Module Samples.
Import PyStr OsPath PathTemplate Decision Lifecycle.

Fixpoint assoc (k : string) (l : list (string * string)) : option string :=
  match l with
  | [] => None
  | (k', v) :: l' => if String.eqb k k' then Some v else assoc k l'
  end.

(** [realpath] on a filesystem whose only symbolic links are the listed
    whole paths, for a process working in [cwd]. *)
Definition sample_realpath (cwd : string) (links : list (string * string)) (p : string)
  : string :=
  let q := normpath (join cwd p) in
  match assoc q links with Some t => t | None => q end.

Definition path_of (s : string) : Path :=
  mkPath "/" (List.filter truthy (split "/" s)).

(** The matching of a file name against a glob pattern of one component:
    [*], [?], [[seq]] and [[!seq]] as [fnmatch] reads them. *)
Fixpoint in_class (c : ascii) (set : string) : bool :=
  match set with
  | String lo (String "-" (String hi rest)) =>
      ((nat_of_ascii lo <=? nat_of_ascii c)%nat && (nat_of_ascii c <=? nat_of_ascii hi)%nat)
      || in_class c rest
  | String x rest => Ascii.eqb x c || in_class c rest
  | EmptyString => false
  end.
Fixpoint until_bracket (p : string) : option (string * string) :=
  match p with
  | EmptyString => None
  | String c p' =>
      if Ascii.eqb c "]" then Some (EmptyString, p')
      else match until_bracket p' with
           | Some (set, rest) => Some (String c set, rest)
           | None => None
           end
  end.
Definition split_class (p : string) : option (bool * string * string) :=
  let '(neg, p1) :=
    match p with
    | String "!" p' => (true, p')
    | _ => (false, p)
    end in
  match p1 with
  | String "]" p2 =>
      match until_bracket p2 with
      | Some (set, rest) => Some (neg, String "]" set, rest)
      | None => None
      end
  | _ =>
      match until_bracket p1 with
      | Some (set, rest) => Some (neg, set, rest)
      | None => None
      end
  end.
Fixpoint fnmatch_go (fuel : nat) (pat name : string) : bool :=
  match fuel with
  | O => false
  | S n =>
      match pat with
      | EmptyString => negb (truthy name)
      | String c p =>
          if Ascii.eqb c "*" then
            fnmatch_go n p name ||
            match name with
            | String _ nm => fnmatch_go n pat nm
            | EmptyString => false
            end
          else
            match name with
            | EmptyString => false
            | String d nm =>
                if Ascii.eqb c "?" then fnmatch_go n p nm
                else if Ascii.eqb c "[" then
                  match split_class p with
                  | Some (neg, set, rest) =>
                      xorb neg (in_class d set) && fnmatch_go n rest nm
                  | None => Ascii.eqb d "[" && fnmatch_go n p nm
                  end
                else Ascii.eqb c d && fnmatch_go n p nm
            end
      end
  end.
Definition fnmatch (pat name : string) : bool :=
  fnmatch_go (S (String.length pat + String.length name)) pat name.

(** Whether a pattern holds a glob metacharacter. *)
Definition has_magic (pat : string) : bool :=
  contains "*" pat || contains "?" pat || contains "[" pat.

(** The directory part of a path, with its closing slash. *)
Definition dir_of (f : string) : string :=
  take (String.length f - String.length (basename f)) f.

(** [Path(f).parent.glob(pattern)] for a pattern of one component on a
    file system that holds the regular files [fs] and no directory beside
    those they lie in: a pattern without metacharacter names one file, a
    pattern with one selects among the files of the directory, taken in
    the order the map lists them. *)
Definition sample_glob (fs : gmap string string) (f pattern : string)
  : option (list string) :=
  Some
    (if has_magic pattern then
       List.filter
         (fun k =>
            startswith (dir_of f) k
            && negb (contains "/" (drop (String.length (dir_of f)) k))
            && fnmatch pattern (drop (String.length (dir_of f)) k))
         (List.map fst (map_to_list fs))
     else
       match fs !! (dir_of f +:+ pattern) with
       | Some _ => [dir_of f +:+ pattern]
       | None => []
       end).

(** A world: a working directory, symbolic links, environment variables
    and a manifest; dependency patterns are literal paths; the scratch
    directory is missing when the sdkconfig pipeline starts. *)
Definition sample_world
  (cwd : string) (links env : list (string * string)) (m : option Manifest) : World :=
  mkWorld (fun k => assoc k env)
          (sample_realpath cwd links)
          (fun s => path_of (sample_realpath cwd links s))
          (fun _ pat f => String.eqb pat f)
          m 5 1 2 [] (fun _ => false) sample_glob.

(** The fields of an App as [__init__] assigns them before it runs the
    sdkconfig pipeline. *)
Definition fresh_app
  (bs : BuildSystem) (app_dir target : string) (config_name work_dir : option string)
  (build_dir : string) (build_log_path : option string) (check_warnings : bool)
  (sdkconfig_defaults : list string) (sdkconfig_path : option string) : App :=
  mkApp bs app_dir target sdkconfig_path config_name UNKNOWN
    (match work_dir with
     | Some d => if truthy d then d else app_dir
     | None => app_dir
     end)
    (if truthy build_dir then build_dir else "build")
    build_log_path None
    false None false check_warnings true 1 1 false
    sdkconfig_defaults [] None ∅.

(** [App.__init__]: the fresh fields, then the sdkconfig pipeline. *)
Definition App_init
  (w : World) (fs : gmap string string)
  (bs : BuildSystem) (app_dir target : string) (config_name work_dir : option string)
  (build_dir : string) (build_log_path : option string) (check_warnings : bool)
  (sdkconfig_defaults : list string) (sdkconfig_path : option string)
  : Sdkconfig.PipeExn + (gmap string string * list Sdkconfig.DirCall * App) :=
  Sdkconfig._process_sdkconfig_files w
    (fresh_app bs app_dir target config_name work_dir build_dir build_log_path
       check_warnings sdkconfig_defaults sdkconfig_path) fs.

Definition w_plain : World := sample_world "/ws" [] [] None.
Definition w_home : World := sample_world "/ws" [] [("HOME", "/root")] None.
Definition w_symlink : World :=
  sample_world "/ws" [("/ws/proj", "/srv/checkout/blink")] [] None.

Definition app_proj : App :=
  fresh_app CMake "proj" "esp32" None None "build" None false
    ["sdkconfig.defaults"] None.
Definition app_cfg : App :=
  fresh_app CMake "proj" "esp32" (Some "cfg1") None "build_@t_@w" None false
    ["sdkconfig.defaults"] None.
Definition app_abs_build : App :=
  fresh_app CMake "proj" "esp32" None None "/tmp//build" None false
    ["sdkconfig.defaults"] None.
Definition app_token_dir : App :=
  fresh_app CMake "/@n/x" "esp32" None None "build" None false
    ["sdkconfig.defaults"] None.
Definition app_strict : App :=
  fresh_app Make "proj" "esp32" None None "build" None true
    ["sdkconfig.defaults"] None.

(** A work directory with a defaults file that holds a [TEST_GROUPS]
    line, and its override for the target [esp32]. *)
Definition sample_fs : gmap string string :=
  <["proj/sdkconfig.defaults" :=
      "CONFIG_A=y" +:+ Sdkconfig_spec.nl +:+ "TEST_GROUPS=foo" +:+ Sdkconfig_spec.nl]>
    (<["proj/sdkconfig.defaults.esp32" := "CONFIG_B=y" +:+ Sdkconfig_spec.nl]> ∅).

(** A defaults file with a test-option line and an ignored line. *)
Definition routing_fs : gmap string string :=
  <["proj/sdkconfig.defaults" :=
      "CONFIG_A=y" +:+ Sdkconfig_spec.nl +:+ "TEST_COMPONENTS=foo" +:+ Sdkconfig_spec.nl
      +:+ "TEST_GROUPS=bar" +:+ Sdkconfig_spec.nl]> ∅.

(** A defaults file with the line ends of another platform. *)
Definition crlf_fs : gmap string string :=
  <["proj/sdkconfig.defaults" :=
      "CONFIG_A=y" +:+ Sdkconfig_spec.cr +:+ Sdkconfig_spec.nl]> ∅.

(** An app whose target reads as a glob pattern, with a defaults file the
    pipeline changes, a sibling named after the target and a sibling the
    pattern matches. *)
Definition app_bracket : App :=
  fresh_app CMake "proj" "[a]" None None "build" None false
    ["sdkconfig.defaults"] None.
Definition bracket_fs : gmap string string :=
  <["proj/sdkconfig.defaults" := "TEST_GROUPS=foo" +:+ Sdkconfig_spec.nl]>
    (<["proj/sdkconfig.defaults.[a]" := "CONFIG_LITERAL=y" +:+ Sdkconfig_spec.nl]>
       (<["proj/sdkconfig.defaults.a" := "CONFIG_MATCHED=y" +:+ Sdkconfig_spec.nl]> ∅)).

(** The output of a toolchain run that prints a warning. *)
Definition warning_output : string :=
  "warning: unused variable" +:+ Sdkconfig_spec.nl +:+ "done" +:+ Sdkconfig_spec.nl.

(** The output of a toolchain run that fails. *)
Definition error_output : string :=
  "main.c:3: error: undefined reference" +:+ Sdkconfig_spec.nl.

(** A host on which every path exists, the temporary file is
    [/tmp/tmplog], and every command prints [out] and returns [rc]. *)
Definition sample_host (out : string) (rc : Z) : Host :=
  mkHost (fun _ _ => true) (fun _ => "/tmp/tmplog") (fun _ _ => (out, rc))
         (fun _ => []) (fun _ _ => None) (Some 4)
         "python" "idf.py" "idf_size.py" true false.

End Samples.

(** ** The sdkconfig defaults *)

Module Defaults.
Import PyStr.

(** [App._get_sdkconfig_defaults]; [constants.DEFAULT_SDKCONFIG] is an
    argument. *)
Definition _get_sdkconfig_defaults
  (w : World) (DEFAULT_SDKCONFIG : string) (sdkconfig_defaults_str : option string)
  : list string :=
  match sdkconfig_defaults_str with
  | Some s => split ";" s
  | None =>
      match environ w "SDKCONFIG_DEFAULTS" with
      | Some e => split ";" e
      | None => [DEFAULT_SDKCONFIG]
      end
  end.

End Defaults.

Module Extra_spec.
Import PyStr OsPath PathTemplate Sdkconfig Lifecycle Lifecycle_spec.

(** The lower case of the ASCII letters of a text; every other character
    is kept. *)
Definition ascii_lower_char (c : ascii) : ascii :=
  let n := nat_of_ascii c in
  if (65 <=? n)%nat && (n <=? 90)%nat then ascii_of_nat (n + 32) else c.
Fixpoint ascii_lower (s : string) : string :=
  match s with
  | EmptyString => EmptyString
  | String c s' => String (ascii_lower_char c) (ascii_lower s')
  end.

(** A word that reads [error:] or [warning:] when the case of its ASCII
    letters is ignored, or [warning:] with U+0130 or U+0131 for the
    [i]. *)
Definition names_error_or_warning (word : string) : Prop :=
  ascii_lower word = "error:" \/ ascii_lower word = "warning:" \/
  exists w1 i w2,
    word = w1 +:+ i +:+ w2 /\ ascii_lower w1 = "warn" /\
    (i = CAPITAL_DOTTED_I \/ i = DOTLESS_I) /\ ascii_lower w2 = "ng:".

(** Whether the key of an (expanded) line is [CONFIG_IDF_TARGET]. *)
Definition declares_target (line : string) : bool :=
  match SDKCONFIG_LINE_REGEX_match line with
  | Some (k, _) => String.eqb k "CONFIG_IDF_TARGET"
  | None => false
  end.

(** A double quote, as a string. *)
Definition dq : string := String "034"%char EmptyString.

(** An event that is a log record. *)
Definition is_log (e : Event) : Prop :=
  match e with ELog _ _ => True | _ => False end.

(** A computation that returns normally and adds nothing but log records
    to the trace. *)
Definition log_only {A} (m : M A) : Prop :=
  forall st, exists evs x, m st = (with_events st evs, inr x) /\ Forall is_log evs.

(** A computation that, however it ends, adds events to the trace none of
    which removes a file. *)
Definition tidy {A} (m : M A) : Prop :=
  forall st, exists evs,
    st_trace (fst (m st)) = st_trace st ++ evs /\ Lifecycle_spec.no_unlink evs.

(** The name of the log sink of a real build, whether it is kept at the
    end, and the state in which [_build] starts: the sink is there and
    empty. *)
Definition log_name (w : World) (h : Host) (st : State) : string :=
  match build_log_path w (st_app st) with
  | Some p => p
  | None => temp_name h (st_trace st)
  end.
Definition keeps_log (w : World) (st : State) : bool :=
  match build_log_path w (st_app st) with Some _ => true | None => false end.
Definition build_start (w : World) (h : Host) (st : State) : State :=
  mkState (st_app st) EmptyString
    (st_trace st
     ++ [match build_log_path w (st_app st) with
         | Some p => EOpenLog p
         | None => EMkTempLog (temp_name h (st_trace st))
         end]).

(** The events between the end of [_build] and the size report, when
    [_build] returned. *)
Definition report_events (w : World) (h : Host) (st1 st3 : State) : list Event :=
  ECloseLog (log_name w h st1)
  :: classify_events w (log_lines (st_log st3))
  ++ (if keeps_log w st1 then [] else remove_events (log_name w h st1)).

(** The App after the first step of [CMakeApp._build], which takes the
    decision unless it was taken. *)
Definition decided_app (w : World) (a : App) (args : BuildArgs) : App :=
  if _checked_should_build a then a
  else Decision.check_should_build w a (manifest_rootpath args)
         (check_app_dependencies args)
         (Decision.PyListArg <$> modified_components args)
         (Decision.PyListArg <$> modified_files args).

(** The event of a command of [CMakeApp._build]. *)
Definition cmake_run (w : World) (a : App) (cmd : list string) : Event :=
  ERun cmd [("IDF_TARGET", target a)] None (log_terminal_of w a) ToBuildLog.

(** A CMake app whose decision was left open by an earlier check. *)
Definition app_open : App :=
  mkApp CMake "proj" "esp32" None None UNKNOWN "proj" "build" None None
    false None false false true 1 1 true [] [] None ∅.

(** A host like [sample_host] whose project description lists the
    components [comps]. *)
Definition components_host (comps : list string) : Host :=
  mkHost (fun _ _ => true) (fun _ => "/tmp/tmplog") (fun _ _ => (EmptyString, 0))
         (fun _ => comps) (fun _ _ => None) (Some 4)
         "python" "idf.py" "idf_size.py" true false.

(** A [_build] method that fails with an exception other than
    [BuildError]. *)
Definition crashing_build (_ : BuildArgs) : M bool :=
  raise (OtherError "KeyboardInterrupt").

(** A host on which every path exists, the map file is [app.map], the
    build commands succeed and the size script fails. *)
Definition size_fails_host : Host :=
  mkHost (fun _ _ => true) (fun _ => "/tmp/tmplog")
         (fun _ cmd => match cmd with
                       | "make" :: _ => (EmptyString, 0)
                       | _ => (EmptyString, 1)
                       end)
         (fun _ => []) (fun _ _ => Some "app.map") (Some 4)
         "python" "idf.py" "idf_size.py" true false.

(** A Make app that asks for a size report and one that names its log. *)
Definition app_sized : App :=
  mkApp Make "proj" "esp32" None None UNKNOWN "proj" "build" None (Some "size.json")
    false None false false false 1 1 false [] [] None ∅.
Definition app_logged : App :=
  mkApp Make "proj" "esp32" None None UNKNOWN "proj" "build" (Some "build.log") None
    false None false false false 1 1 false [] [] None ∅.

End Extra_spec.

(* ===================================================================== *)
(** * Part II: lemmas and theorems                                       *)
(* ===================================================================== *)

(** ** Facts about the string primitives *)

Module PyStr_facts.
Import PyStr.

Lemma app_cons (c : ascii) (a b : string) : String c a +:+ b = String c (a +:+ b).
Proof. reflexivity. Qed.

Lemma app_nil_l (s : string) : EmptyString +:+ s = s.
Proof. reflexivity. Qed.

Lemma app_nil_r (s : string) : s +:+ EmptyString = s.
Proof. induction s as [|c s IH]; [reflexivity|]. now rewrite app_cons, IH. Qed.

Lemma app_assoc (a b c : string) : (a +:+ b) +:+ c = a +:+ (b +:+ c).
Proof. induction a as [|x a IH]; [reflexivity|]. rewrite !app_cons. now f_equal. Qed.

Lemma app_length (a b : string) :
  String.length (a +:+ b) = (String.length a + String.length b)%nat.
Proof.
  induction a as [|x a IH]; [reflexivity|].
  rewrite app_cons. cbn [String.length]. now rewrite IH.
Qed.

Lemma startswith_app (p s : string) : startswith p (p +:+ s) = true.
Proof.
  induction p as [|c p IH]; [reflexivity|].
  rewrite app_cons. cbn [startswith]. now rewrite Ascii.eqb_refl.
Qed.

Lemma startswith_spec (p s : string) :
  startswith p s = true <-> exists t, s = p +:+ t.
Proof.
  split.
  - revert s. induction p as [|c p IH]; intros s H.
    + now exists s.
    + destruct s as [|d s]; [discriminate|]. cbn in H.
      destruct (Ascii.eqb c d) eqn:E; [|discriminate].
      apply Ascii.eqb_eq in E. subst d.
      destruct (IH _ H) as [t ->]. now exists t.
  - intros [t ->]. apply startswith_app.
Qed.

Lemma contains_cons (sub : string) (c : ascii) (s : string) :
  contains sub (String c s) = startswith sub (String c s) || contains sub s.
Proof. reflexivity. Qed.

Lemma contains_empty (s : string) : contains EmptyString s = true.
Proof. destruct s; reflexivity. Qed.

Lemma contains_app_r (sub a b : string) :
  contains sub b = true -> contains sub (a +:+ b) = true.
Proof.
  intros H. induction a as [|c a IH]; [exact H|].
  rewrite app_cons, contains_cons, IH. apply orb_true_r.
Qed.

Lemma contains_spec (sub s : string) :
  contains sub s = true <-> exists pre post, s = pre +:+ sub +:+ post.
Proof.
  split.
  - induction s as [|c s IH]; intros H.
    + cbn in H. rewrite orb_false_r in H.
      apply startswith_spec in H as [t Ht]. now exists EmptyString, t.
    + rewrite contains_cons in H. apply orb_true_iff in H as [H|H].
      * apply startswith_spec in H as [t Ht]. now exists EmptyString, t.
      * destruct (IH H) as (pre & post & ->). now exists (String c pre), post.
  - intros (pre & post & ->). apply contains_app_r.
    destruct (sub +:+ post) eqn:E.
    + cbn. rewrite orb_false_r. rewrite <- E. apply startswith_app.
    + rewrite contains_cons, <- E, startswith_app. reflexivity.
Qed.

(** [find] answers [-1] exactly when there is no occurrence. *)
Lemma find_ge (sub s : string) : -1 <= find sub s.
Proof.
  induction s as [|c s IH]; cbn.
  - destruct (startswith sub EmptyString); lia.
  - destruct (startswith sub (String c s)); [lia|].
    destruct (find sub s =? -1) eqn:E; lia.
Qed.

Lemma find_absent (sub s : string) :
  find sub s = -1 <-> contains sub s = false.
Proof.
  induction s as [|c s IH]; cbn.
  - destruct (startswith sub EmptyString); split; (discriminate || reflexivity || lia).
  - destruct (startswith sub (String c s)); cbn.
    + split; (discriminate || lia).
    + pose proof (find_ge sub s).
      destruct (find sub s =? -1) eqn:E.
      * apply Z.eqb_eq in E. split; intros _; [now apply IH | reflexivity].
      * apply Z.eqb_neq in E. split; intros H1; [lia|].
        apply IH in H1. contradiction.
Qed.

(** What precedes the first occurrence, and what follows it. *)
Lemma find_split (sub s : string) :
  find sub s <> -1 ->
  exists pre post,
    s = pre +:+ sub +:+ post /\ find sub s = Z.of_nat (String.length pre).
Proof.
  induction s as [|c s IH]; cbn.
  - destruct (startswith sub EmptyString) eqn:E; [|congruence].
    intros _. apply startswith_spec in E as [t Ht].
    now exists EmptyString, t.
  - destruct (startswith sub (String c s)) eqn:E.
    + intros _. apply startswith_spec in E as [t Ht].
      now exists EmptyString, t.
    + destruct (find sub s =? -1) eqn:E1; [congruence|].
      apply Z.eqb_neq in E1. intros _.
      destruct (IH E1) as (pre & post & Hs & Hf).
      exists (String c pre), post. split.
      * rewrite app_cons. now f_equal.
      * rewrite Hf. cbn [String.length]. lia.
Qed.

Lemma find_cons_inv (sub : string) (c : ascii) (s : string) (n : nat) :
  find sub (String c s) = Z.of_nat (S n) ->
  startswith sub (String c s) = false /\ find sub s = Z.of_nat n.
Proof.
  cbn [find]. destruct (startswith sub (String c s)); [lia|].
  destruct (find sub s =? -1) eqn:E; [lia|]. intros H. split; [reflexivity|lia].
Qed.

(** Slicing around a given prefix. *)
Lemma take_app_length (a b : string) : take (String.length a) (a +:+ b) = a.
Proof.
  induction a as [|c a IH]; [now destruct b|].
  rewrite app_cons. cbn [String.length take]. now f_equal.
Qed.

Lemma drop_app_length (a b : string) : drop (String.length a) (a +:+ b) = b.
Proof. induction a as [|c a IH]; [reflexivity|]. rewrite app_cons. exact IH. Qed.

Lemma take_app_le (n : nat) (a b : string) :
  (n <= String.length a)%nat -> take n (a +:+ b) = take n a.
Proof.
  revert n. induction a as [|c a IH]; intros n Hn; cbn [String.length] in Hn.
  - assert (n = 0%nat) as -> by lia. now destruct b.
  - destruct n; [reflexivity|]. rewrite app_cons. cbn [take]. f_equal. apply IH. lia.
Qed.

(** [str.replace] leaves a string without occurrence as it is. *)
Lemma replace_absent (old new s : string) :
  contains old s = false -> replace old new s = s.
Proof.
  destruct old as [|a o]; [now rewrite contains_empty|].
  unfold replace. induction s as [|c s IH]; [reflexivity|].
  rewrite contains_cons. intros H. apply orb_false_iff in H as [H1 H2].
  cbn [replace_go]. rewrite H1. f_equal. now apply IH.
Qed.

Lemma replace_go_skip (old new x y : string) :
  replace_go old new (String.length x) (x +:+ y) = replace_go old new 0 y.
Proof. induction x as [|c x IH]; [reflexivity|]. rewrite app_cons. exact IH. Qed.

(** At an occurrence, [str.replace] writes [new] and goes on behind it. *)
Lemma replace_at (a : ascii) (o new y : string) :
  replace (String a o) new (String a o +:+ y) = new +:+ replace (String a o) new y.
Proof.
  unfold replace. rewrite app_cons. cbn [replace_go].
  rewrite <- app_cons, startswith_app.
  cbn [String.length pred]. now rewrite replace_go_skip.
Qed.

(** The first occurrence is replaced, and so is every later one. *)
Lemma replace_first (a : ascii) (o new pre post : string) :
  find (String a o) (pre +:+ String a o +:+ post) = Z.of_nat (String.length pre) ->
  replace (String a o) new (pre +:+ String a o +:+ post)
  = pre +:+ new +:+ replace (String a o) new post.
Proof.
  induction pre as [|c pre IH]; intros H.
  - apply replace_at.
  - rewrite !app_cons in *. cbn [String.length] in H.
    apply find_cons_inv in H as [H1 H2].
    unfold replace in *. cbn [replace_go]. rewrite H1. f_equal. now apply IH.
Qed.

(** A placeholder starts with an at sign: a stretch without one is copied. *)
Lemma startswith_free (o : string) (c : ascii) (s : string) :
  Ascii.eqb c "@" = false -> startswith (String "@" o) (String c s) = false.
Proof. intros H. cbn [startswith]. rewrite Ascii.eqb_sym. now rewrite H. Qed.

Lemma replace_free_prefix (o new x y : string) :
  contains "@" x = false ->
  replace (String "@" o) new (x +:+ y) = x +:+ replace (String "@" o) new y.
Proof.
  unfold replace. induction x as [|c x IH]; intros H; [reflexivity|].
  rewrite contains_cons in H. apply orb_false_iff in H as [H1 H2].
  cbn [startswith] in H1. destruct (Ascii.eqb "@" c) eqn:E; [discriminate|].
  rewrite app_cons. cbn [replace_go].
  rewrite startswith_free by (now rewrite Ascii.eqb_sym).
  rewrite app_cons. f_equal. now apply IH.
Qed.

Lemma contains_free_app (x y : string) :
  contains "@" (x +:+ y) = contains "@" x || contains "@" y.
Proof.
  induction x as [|c x IH].
  - cbn. reflexivity.
  - rewrite app_cons, !contains_cons, IH. cbn [startswith].
    destruct (Ascii.eqb "@" c); reflexivity.
Qed.

Lemma contains_token_free (o s : string) :
  contains "@" s = false -> contains (String "@" o) s = false.
Proof.
  induction s as [|c s IH]; [reflexivity|].
  rewrite !contains_cons. intros H. apply orb_false_iff in H as [H1 H2].
  cbn [startswith] in H1. destruct (Ascii.eqb "@" c) eqn:E; [discriminate|].
  rewrite startswith_free by (now rewrite Ascii.eqb_sym). now apply IH.
Qed.

End PyStr_facts.

Module Template_facts.
Import PyStr OsPath PathTemplate PyStr_facts.

(** Replacing another placeholder cannot destroy a wildcard placeholder:
    the two never overlap. *)
Lemma replace_keeps_wildcard (x : ascii) (new s : string) :
  Ascii.eqb x "w" = false -> Ascii.eqb x "@" = false ->
  contains "@w" s = true ->
  contains "@w" (replace (String "@" (String x EmptyString)) new s) = true.
Proof.
  intros Hw Hat. unfold replace.
  remember (String.length s) as n eqn:Hn.
  assert (Hle : (String.length s <= n)%nat) by lia. clear Hn.
  revert s Hle. induction n as [|n IH]; intros s Hle H.
  - destruct s; [discriminate H|cbn in Hle; lia].
  - destruct s as [|c s]; [discriminate H|].
    cbn [String.length] in Hle. cbn [replace_go].
    destruct (startswith (String "@" (String x EmptyString)) (String c s)) eqn:E.
    + apply startswith_spec in E as [t Ht].
      rewrite !app_cons, app_nil_l in Ht. injection Ht as -> ->.
      cbn [String.length pred replace_go].
      apply contains_app_r, IH; [cbn [String.length] in Hle; lia|].
      rewrite !contains_cons in H. cbn [startswith] in H.
      rewrite Ascii.eqb_refl in H.
      rewrite (Ascii.eqb_sym "w" x), Hw in H.
      rewrite (Ascii.eqb_sym "@" x), Hat in H. exact H.
    + rewrite contains_cons in H. apply orb_true_iff in H as [H|H].
      * apply startswith_spec in H as [t Ht].
        rewrite !app_cons, app_nil_l in Ht. injection Ht as -> ->.
        cbn [replace_go]. rewrite startswith_free by reflexivity.
        reflexivity.
      * rewrite contains_cons, IH; [apply orb_true_r|lia|exact H].
  Qed.

Lemma expand_indices_keeps_wildcard (w : World) (a : App) (path : string) :
  contains "@w" path = true -> contains "@w" (expand_indices w a path) = true.
Proof.
  intros H. unfold expand_indices.
  apply (replace_keeps_wildcard "t"); [reflexivity..|].
  apply (replace_keeps_wildcard "v"); [reflexivity..|].
  apply (replace_keeps_wildcard "p"); [reflexivity..|].
  destruct (index a); [|exact H].
  now apply (replace_keeps_wildcard "i").
Qed.

Lemma expand_tokens_keeps_wildcard (w : World) (a : App) (path : string) :
  contains "@w" path = true -> contains "@w" (expand_tokens w a path) = true.
Proof.
  intros H. unfold expand_tokens.
  assert (H1 : contains "@w"
                 (replace NAME_PLACEHOLDER (name w a) (expand_indices w a path)) = true).
  { apply (replace_keeps_wildcard "n"); [reflexivity..|].
    now apply expand_indices_keeps_wildcard. }
  destruct (contains FULL_NAME_PLACEHOLDER _); [|exact H1].
  now apply (replace_keeps_wildcard "f").
Qed.

(** A string without any of the six value placeholders passes the token
    stage untouched. *)
Lemma expand_indices_free (w : World) (a : App) (path : string) :
  contains "@i" path = false -> contains "@p" path = false ->
  contains "@v" path = false -> contains "@t" path = false ->
  expand_indices w a path = path.
Proof.
  intros Hi Hp Hv Ht. unfold expand_indices.
  assert (E : match index a with
              | Some i => replace INDEX_PLACEHOLDER (of_int i) path
              | None => path
              end = path).
  { destruct (index a); [now apply replace_absent|reflexivity]. }
  rewrite E.
  rewrite (replace_absent PARALLEL_INDEX_PLACEHOLDER) by exact Hp.
  rewrite (replace_absent IDF_VERSION_PLACEHOLDER) by exact Hv.
  now apply replace_absent.
Qed.

Lemma placeholder_free_spec (path : string) :
  placeholder_free path = true ->
  contains "@i" path = false /\ contains "@p" path = false /\
  contains "@v" path = false /\ contains "@t" path = false /\
  contains "@n" path = false /\ contains "@f" path = false /\
  contains "@w" path = false.
Proof.
  unfold placeholder_free, PLACEHOLDERS. cbn [forallb].
  rewrite !andb_true_iff, !negb_true_iff. tauto.
Qed.

Lemma expand_tokens_free (w : World) (a : App) (path : string) :
  placeholder_free path = true -> expand_tokens w a path = path.
Proof.
  intros H. apply placeholder_free_spec in H as (Hi & Hp & Hv & Ht & Hn & Hf & _).
  unfold expand_tokens. rewrite expand_indices_free by assumption.
  rewrite (replace_absent NAME_PLACEHOLDER) by exact Hn.
  unfold FULL_NAME_PLACEHOLDER. now rewrite Hf.
Qed.

Lemma expand_wildcard_free (a : App) (path : string) :
  contains "@w" path = false -> expand_wildcard a path = path.
Proof.
  intros H. unfold expand_wildcard.
  apply find_absent in H. unfold WILDCARD_PLACEHOLDER. now rewrite H.
Qed.

(** [os.path.expandvars] on a string without dollar sign, and its
    dependence on the environment. *)
Lemma expandvars_no_dollar (env : string -> option string) (s : string) :
  contains "$" s = false -> expandvars env s = s.
Proof.
  unfold expandvars. induction s as [|c s IH]; [reflexivity|].
  rewrite contains_cons. intros H. apply orb_false_iff in H as [H1 H2].
  cbn [startswith] in H1. cbn [expandvars_go].
  destruct (Ascii.eqb c "$") eqn:E.
  - rewrite Ascii.eqb_sym, E in H1. discriminate.
  - f_equal. now apply IH.
Qed.

Lemma expandvars_go_ext (env1 env2 : string -> option string) (m : scan_mode) (s : string) :
  (forall k, env1 k = env2 k) ->
  expandvars_go env1 m s = expandvars_go env2 m s.
Proof.
  intros Hext. revert m. induction s as [|c s IH]; intros m.
  - destruct m; cbn; unfold subst_word; try rewrite Hext; reflexivity.
  - cbn [expandvars_go]. destruct m.
    + now rewrite !IH.
    + now rewrite !IH.
    + unfold subst_word. now rewrite !IH, Hext.
    + unfold subst_brace. now rewrite !IH, Hext.
Qed.

(** The wildcard stage, when the config name is truthy and when it is
    not, in terms of what surrounds the first wildcard. *)
Lemma expand_wildcard_set (a : App) (cfg pre post : string) :
  config_name a = Some cfg -> truthy cfg = true ->
  find "@w" (pre +:+ "@w" +:+ post) = Z.of_nat (String.length pre) ->
  expand_wildcard a (pre +:+ "@w" +:+ post) = pre +:+ cfg +:+ replace "@w" cfg post.
Proof.
  intros Hc Ht Hf. unfold expand_wildcard, WILDCARD_PLACEHOLDER.
  rewrite Hf. rewrite Hc. cbn [opt_truthy default]. rewrite Ht.
  replace (Z.of_nat (String.length pre) =? -1) with false
    by (symmetry; apply Z.eqb_neq; lia).
  cbn [negb]. now apply replace_first.
Qed.

Lemma but_last_take (pre s : string) :
  take (Z.to_nat (Z.max 0 (Z.of_nat (String.length pre) - 1) - 0)) (pre +:+ s)
  = but_last pre.
Proof.
  unfold but_last.
  replace (Z.to_nat (Z.max 0 (Z.of_nat (String.length pre) - 1) - 0))
    with (pred (String.length pre)) by lia.
  apply take_app_le. lia.
Qed.

Lemma expand_wildcard_unset (a : App) (pre post : string) :
  opt_truthy (config_name a) = false ->
  find "@w" (pre +:+ "@w" +:+ post) = Z.of_nat (String.length pre) ->
  expand_wildcard a (pre +:+ "@w" +:+ post) = but_last pre +:+ post.
Proof.
  intros Hc Hf. unfold expand_wildcard, WILDCARD_PLACEHOLDER.
  rewrite Hf, Hc.
  replace (Z.of_nat (String.length pre) =? -1) with false
    by (symmetry; apply Z.eqb_neq; lia).
  cbn [negb]. unfold slice, slice_from.
  change (Z.to_nat 0) with 0%nat. cbn [drop].
  rewrite but_last_take. f_equal.
  replace (Z.to_nat (Z.of_nat (String.length pre) + Z.of_nat (String.length "@w")))
    with (String.length (pre +:+ "@w")) by (rewrite app_length; cbn; lia).
  rewrite <- app_assoc. apply drop_app_length.
Qed.

End Template_facts.

(** ** PathTemplate: the claims about [_expand] and [build_path] *)

Section PathTemplate_claims.
Import PyStr OsPath PathTemplate PyStr_facts Template_facts Samples.

Lemma expand_tokens_plain (w : World) (a : App) (path : string) :
  contains "@i" path = false -> contains "@p" path = false ->
  contains "@v" path = false -> contains "@t" path = false ->
  contains "@n" path = false -> contains "@f" path = false ->
  expand_tokens w a path = path.
Proof.
  intros Hi Hp Hv Ht Hn Hf.
  unfold expand_tokens. rewrite expand_indices_free by assumption.
  rewrite (replace_absent NAME_PLACEHOLDER) by exact Hn.
  unfold FULL_NAME_PLACEHOLDER. now rewrite Hf.
Qed.

Lemma contains_truthy (sub : string) (s : string) :
  truthy sub = true -> contains sub s = true -> truthy s = true.
Proof. destruct s; [|reflexivity]. destruct sub; [discriminate|]. cbn. discriminate. Qed.

(** C3.  Take an input in which the wildcard placeholder [@w] occurs.  It
    still occurs after the six value placeholders are replaced; write the
    string reached there as [pre ++ "@w" ++ post], the occurrence shown
    being the first.  When the config name is set (a non-empty string),
    [_expand] puts it in the place of that occurrence and of every
    occurrence in [post]; when it is not set, [_expand] takes out that
    occurrence together with the last character of [pre], the character
    to its left (nothing more when [pre] is empty).  Environment variables
    are expanded afterwards.  The input [a_@w_b] yields [a_cfg1_b] with the
    config name [cfg1] and [a_b] without config name, in every world and
    for every App. *)
Theorem expand_wildcard_placeholder :
  (forall (w : World) (a : App) (path : string),
      contains WILDCARD_PLACEHOLDER path = true ->
      exists pre post : string,
        expand_tokens w a path = pre +:+ "@w" +:+ post /\
        find "@w" (expand_tokens w a path) = Z.of_nat (String.length pre) /\
        (forall cfg : string,
            config_name a = Some cfg -> truthy cfg = true ->
            _expand w a path
            = expandvars (environ w) (pre +:+ cfg +:+ replace "@w" cfg post)) /\
        (opt_truthy (config_name a) = false ->
         _expand w a path = expandvars (environ w) (but_last pre +:+ post))) /\
  (forall (w : World) (a : App),
      config_name a = Some "cfg1" -> _expand w a "a_@w_b" = "a_cfg1_b") /\
  (forall (w : World) (a : App),
      opt_truthy (config_name a) = false -> _expand w a "a_@w_b" = "a_b").
Proof.
  split; [|split].
  - intros w a path H.
    pose proof (contains_truthy WILDCARD_PLACEHOLDER path eq_refl H) as Hne.
    apply (expand_tokens_keeps_wildcard w a) in H.
    assert (Hf : find "@w" (expand_tokens w a path) <> -1).
    { intros E. apply find_absent in E. congruence. }
    destruct (find_split _ _ Hf) as (pre & post & Hs & Hpos).
    exists pre, post. split; [exact Hs|]. split; [exact Hpos|].
    unfold _expand. rewrite Hne. cbn [negb]. rewrite Hs in Hpos |- *. split.
    + intros cfg Hc Ht. now rewrite (expand_wildcard_set a cfg).
    + intros Hc. now rewrite expand_wildcard_unset.
  - intros w a Hc. unfold _expand. cbn [truthy negb].
    rewrite expand_tokens_plain by reflexivity.
    change "a_@w_b" with ("a_" +:+ "@w" +:+ "_b").
    rewrite (expand_wildcard_set a "cfg1" "a_" "_b" Hc eq_refl eq_refl).
    now apply expandvars_no_dollar.
  - intros w a Hc. unfold _expand. cbn [truthy negb].
    rewrite expand_tokens_plain by reflexivity.
    change "a_@w_b" with ("a_" +:+ "@w" +:+ "_b").
    rewrite (expand_wildcard_unset a "a_" "_b" Hc eq_refl).
    now apply expandvars_no_dollar.
Qed.

Lemma expand_wildcard_placeholder_witness :
  contains WILDCARD_PLACEHOLDER "build_@t_@w" = true /\
  exists pre post : string,
    expand_tokens w_plain app_cfg "build_@t_@w" = pre +:+ "@w" +:+ post /\
    find "@w" (expand_tokens w_plain app_cfg "build_@t_@w")
    = Z.of_nat (String.length pre) /\
    (forall cfg : string,
        config_name app_cfg = Some cfg -> truthy cfg = true ->
        _expand w_plain app_cfg "build_@t_@w"
        = expandvars (environ w_plain) (pre +:+ cfg +:+ replace "@w" cfg post)) /\
    (opt_truthy (config_name app_cfg) = false ->
     _expand w_plain app_cfg "build_@t_@w"
     = expandvars (environ w_plain) (but_last pre +:+ post)).
Proof.
  split; [reflexivity|].
  apply (proj1 expand_wildcard_placeholder w_plain app_cfg "build_@t_@w").
  reflexivity.
Defined.

(** C4, as the code has it.  [_expand] is a total function.  On a string
    that contains none of the seven placeholders it does nothing but
    expand environment variables, so it returns the string unchanged when
    the string contains no dollar sign.  Its result depends on the world
    through the environment, the IDF version and the name of the App (the
    base name of the resolved app directory, the one place where the
    filesystem comes in) and through nothing else. *)
Theorem expand_without_placeholders :
  (forall (w : World) (a : App) (path : string),
      placeholder_free path = true ->
      _expand w a path = expandvars (environ w) path) /\
  (forall (w : World) (a : App) (path : string),
      placeholder_free path = true -> contains "$" path = false ->
      _expand w a path = path) /\
  (forall (w1 w2 : World) (a : App) (path : string),
      (forall k, environ w1 k = environ w2 k) ->
      idf_version_str w1 = idf_version_str w2 ->
      name w1 a = name w2 a ->
      _expand w1 a path = _expand w2 a path).
Proof.
  assert (H1 : forall w a path, placeholder_free path = true ->
               _expand w a path = expandvars (environ w) path).
  { intros w a path H. unfold _expand.
    destruct path as [|c path]; [reflexivity|]. cbn [truthy negb].
    rewrite expand_tokens_free by exact H.
    apply placeholder_free_spec in H as (_ & _ & _ & _ & _ & _ & Hw).
    now rewrite expand_wildcard_free. }
  split; [exact H1|]. split.
  - intros w a path H Hd. rewrite H1 by exact H. now apply expandvars_no_dollar.
  - intros w1 w2 a path He Hv Hn. unfold _expand.
    destruct (truthy path); [|reflexivity]. cbn [negb].
    unfold expand_tokens, expand_indices. rewrite Hv, Hn.
    apply expandvars_go_ext, He.
Qed.

Lemma expand_without_placeholders_witness :
  (placeholder_free "build/logs" = true /\ contains "$" "build/logs" = false) /\
  _expand w_home app_proj "build/logs" = "build/logs".
Proof.
  split; [split; reflexivity|].
  apply (proj1 (proj2 expand_without_placeholders) w_home app_proj "build/logs");
    reflexivity.
Defined.

(** C4 as stated fails twice.  The string [$HOME] contains no
    placeholder, and [_expand] turns it into the value of the variable;
    and the result for [@n] follows the symbolic links of the filesystem:
    it differs between a filesystem where the app directory is a link and
    one where it is not. *)
Lemma expand_not_identity_nor_pure :
  (placeholder_free "$HOME" = true /\
   _expand w_home app_proj "$HOME" <> "$HOME") /\
  _expand w_plain app_proj "@n" <> _expand w_symlink app_proj "@n".
Proof. split; [split; [reflexivity|]|]; vm_compute; discriminate. Qed.

Lemma replace_other (c d : ascii) (new y : string) :
  Ascii.eqb c d = false -> Ascii.eqb d "@" = false ->
  replace (String "@" (String c EmptyString)) new (String "@" (String d y))
  = String "@" (String d (replace (String "@" (String c EmptyString)) new y)).
Proof.
  intros Hcd Hd. unfold replace. cbn [replace_go startswith].
  rewrite Ascii.eqb_refl, Hcd. rewrite (Ascii.eqb_sym "@" d), Hd. reflexivity.
Qed.

Lemma replace_token_free (o new s : string) :
  contains "@" s = false -> replace (String "@" o) new s = s.
Proof. intros H. now apply replace_absent, contains_token_free. Qed.

(** The token stage on a path made of stretches without at sign around
    one name placeholder and one full-name placeholder. *)
Lemma expand_tokens_name_then_full (w : World) (a : App) (pre mid post : string) :
  contains "@" pre = false -> contains "@" mid = false ->
  contains "@" post = false -> contains "@" (name w a) = false ->
  expand_tokens w a (pre +:+ "@n" +:+ mid +:+ "@f" +:+ post)
  = pre +:+ name w a +:+ mid +:+ escaped_app_dir a +:+ post.
Proof.
  intros Hpre Hmid Hpost Hname.
  assert (Hidx : forall c new,
             Ascii.eqb c "n" = false -> Ascii.eqb c "f" = false ->
             replace (String "@" (String c EmptyString)) new
               (pre +:+ "@n" +:+ mid +:+ "@f" +:+ post)
             = pre +:+ "@n" +:+ mid +:+ "@f" +:+ post).
  { intros c new Hn Hf.
    rewrite replace_free_prefix by exact Hpre.
    rewrite !app_cons, !app_nil_l.
    rewrite replace_other by (exact Hn || reflexivity).
    rewrite replace_free_prefix by exact Hmid.
    rewrite replace_other by (exact Hf || reflexivity).
    now rewrite replace_token_free by exact Hpost. }
  unfold expand_tokens, expand_indices.
  assert (E : match index a with
              | Some i => replace INDEX_PLACEHOLDER (of_int i)
                            (pre +:+ "@n" +:+ mid +:+ "@f" +:+ post)
              | None => pre +:+ "@n" +:+ mid +:+ "@f" +:+ post
              end = pre +:+ "@n" +:+ mid +:+ "@f" +:+ post).
  { destruct (index a); [apply Hidx; reflexivity|reflexivity]. }
  rewrite E.
  rewrite (Hidx "p"%char) by reflexivity.
  rewrite (Hidx "v"%char) by reflexivity.
  rewrite (Hidx "t"%char) by reflexivity.
  unfold NAME_PLACEHOLDER, FULL_NAME_PLACEHOLDER.
  rewrite (replace_free_prefix _ _ pre) by exact Hpre.
  rewrite replace_at.
  rewrite (replace_free_prefix _ _ mid) by exact Hmid.
  rewrite (app_cons "@"%char "f"), (app_cons "f"%char), app_nil_l.
  rewrite replace_other by reflexivity.
  rewrite replace_token_free by exact Hpost.
  assert (Hc : contains "@f"
                 (pre +:+ name w a +:+ mid +:+ String "@" (String "f" post)) = true).
  { do 3 apply contains_app_r. reflexivity. }
  rewrite Hc.
  rewrite (replace_free_prefix _ _ pre) by exact Hpre.
  rewrite (replace_free_prefix _ _ (name w a)) by exact Hname.
  rewrite (replace_free_prefix _ _ mid) by exact Hmid.
  change (String "@" (String "f" post)) with ("@f" +:+ post).
  rewrite replace_at. now rewrite replace_token_free by exact Hpost.
Qed.

(** The whole of [_expand] on a path made of stretches without at sign
    around one name placeholder and one full-name placeholder. *)
Lemma expand_name_then_full (w : World) (a : App) (pre mid post : string) :
  contains "@" pre = false -> contains "@" mid = false ->
  contains "@" post = false -> contains "@" (name w a) = false ->
  _expand w a (pre +:+ "@n" +:+ mid +:+ "@f" +:+ post)
  = expandvars (environ w)
      (expand_wildcard a (pre +:+ name w a +:+ mid +:+ escaped_app_dir a +:+ post)).
Proof.
  intros Hpre Hmid Hpost Hname. unfold _expand.
  assert (Ht : truthy (pre +:+ "@n" +:+ mid +:+ "@f" +:+ post) = true).
  { destruct pre; reflexivity. }
  rewrite Ht. cbn [negb].
  now rewrite expand_tokens_name_then_full.
Qed.

(** C5, as the code has it.  [_expand] replaces the name placeholder
    [@n] before the full-name placeholder [@f], which is the last of the
    six value placeholders to be replaced; the wildcard placeholder and
    the environment variables follow.  What the full-name substitution
    writes is therefore never expanded as a name placeholder nor as any
    other value placeholder, whatever it contains, but it does go through
    the wildcard stage and the expansion of environment variables: on a
    path with both placeholders the result is what these two stages make
    of the path with the name and the escaped app directory in place, and
    it is that very string when no wildcard placeholder and no dollar
    sign occur in it. *)
Theorem name_placeholder_before_full_name :
  (forall (w : World) (a : App) (path : string),
      truthy path = true ->
      _expand w a path
      = expandvars (environ w)
          (expand_wildcard a
             (replace FULL_NAME_PLACEHOLDER (escaped_app_dir a)
                (replace NAME_PLACEHOLDER (name w a) (expand_indices w a path))))) /\
  (forall (w : World) (a : App) (pre mid post : string),
      contains "@" pre = false -> contains "@" mid = false ->
      contains "@" post = false -> contains "@" (name w a) = false ->
      let placed := pre +:+ name w a +:+ mid +:+ escaped_app_dir a +:+ post in
      _expand w a (pre +:+ "@n" +:+ mid +:+ "@f" +:+ post)
      = expandvars (environ w) (expand_wildcard a placed) /\
      (contains "@w" placed = false -> contains "$" placed = false ->
       _expand w a (pre +:+ "@n" +:+ mid +:+ "@f" +:+ post) = placed)).
Proof.
  split.
  - intros w a path Ht. unfold _expand, expand_tokens. rewrite Ht. cbn [negb].
    destruct (contains FULL_NAME_PLACEHOLDER _) eqn:E; [reflexivity|].
    now rewrite (replace_absent _ _ _ E).
  - intros w a pre mid post Hpre Hmid Hpost Hname placed.
    pose proof (expand_name_then_full w a pre mid post Hpre Hmid Hpost Hname) as E.
    split; [exact E|].
    intros Hw Hd. rewrite E. fold placed.
    rewrite expand_wildcard_free by exact Hw.
    now apply expandvars_no_dollar.
Qed.

Lemma name_placeholder_before_full_name_witness :
  (contains "@" "out/" = false /\ contains "@" "-" = false /\
   contains "@" ".bin" = false /\ contains "@" (name w_plain app_token_dir) = false) /\
  (contains "@w" "out/x-_@n_x.bin" = false /\ contains "$" "out/x-_@n_x.bin" = false) /\
  _expand w_plain app_token_dir ("out/" +:+ "@n" +:+ "-" +:+ "@f" +:+ ".bin")
  = "out/x-_@n_x.bin".
Proof.
  split; [repeat split; reflexivity|]. split; [split; reflexivity|].
  apply (proj2 name_placeholder_before_full_name w_plain app_token_dir "out/" "-" ".bin");
    reflexivity.
Defined.

(** C5 as stated fails: the code does not replace the full-name
    placeholder first.  For the app directory [/@n/x] and the path [@f]
    the code answers [_@n_x], where replacing the full-name placeholder
    before the name placeholder answers [_x_x]. *)
Lemma full_name_not_replaced_first :
  _expand w_plain app_token_dir "@f" = "_@n_x" /\
  _expand_full_name_first w_plain app_token_dir "@f" = "_x_x" /\
  _expand w_plain app_token_dir "@f"
  <> _expand_full_name_first w_plain app_token_dir "@f".
Proof. repeat split; vm_compute; (reflexivity || discriminate). Qed.

(** C6, as the code has it.  [build_path] is an absolute path whenever
    [realpath] answers one.  A relative build directory is joined to the
    work directory and resolved by [realpath], so [build_path] is as
    normalized as the answer of [realpath]; an absolute build directory
    is returned as it was supplied. *)
Theorem build_path_absolute (w : World) (a : App) :
  isabs (realpath w (join (work_dir w a) (build_dir w a))) = true ->
  normpath (realpath w (join (work_dir w a) (build_dir w a)))
  = realpath w (join (work_dir w a) (build_dir w a)) ->
  isabs (build_path w a) = true /\
  (isabs (build_dir w a) = false -> normpath (build_path w a) = build_path w a) /\
  (isabs (build_dir w a) = true -> build_path w a = build_dir w a).
Proof.
  intros Habs Hnorm. unfold build_path.
  destruct (isabs (build_dir w a)) eqn:E.
  - split; [exact E|]. split; [discriminate|reflexivity].
  - split; [exact Habs|]. split; [intros _; exact Hnorm|discriminate].
Qed.

Lemma build_path_absolute_witness :
  (isabs (realpath w_plain (join (work_dir w_plain app_cfg) (build_dir w_plain app_cfg)))
   = true /\
   normpath (realpath w_plain (join (work_dir w_plain app_cfg) (build_dir w_plain app_cfg)))
   = realpath w_plain (join (work_dir w_plain app_cfg) (build_dir w_plain app_cfg))) /\
  isabs (build_path w_plain app_cfg) = true /\
  (isabs (build_dir w_plain app_cfg) = false ->
   normpath (build_path w_plain app_cfg) = build_path w_plain app_cfg) /\
  (isabs (build_dir w_plain app_cfg) = true ->
   build_path w_plain app_cfg = build_dir w_plain app_cfg).
Proof.
  split; [split; reflexivity|].
  apply (build_path_absolute w_plain app_cfg); reflexivity.
Defined.

(** C6 as stated fails: the absolute build directory [/tmp//build] comes
    back as it is, and it is not normalized. *)
Lemma build_path_not_normalized :
  isabs (build_dir w_plain app_abs_build) = true /\
  build_path w_plain app_abs_build = "/tmp//build" /\
  normpath (build_path w_plain app_abs_build) <> build_path w_plain app_abs_build.
Proof. repeat split; vm_compute; discriminate. Qed.

End PathTemplate_claims.

(** ** BuildDecision: the claims about [check_should_build] *)

Section Decision_claims.
Import PyStr Decision Decision_spec Samples.

(** [p in q.parents]: same anchor, and the names of [p] are a proper
    prefix of the names of [q]. *)
Lemma in_parents_spec (p q : Path) :
  p ∈ parents q <->
  anchor p = anchor q /\
  exists rest, rest <> [] /\ names q = names p ++ rest.
Proof.
  unfold parents. rewrite list_elem_of_In, in_map_iff. split.
  - intros (k & <- & Hk). apply in_rev, in_seq in Hk. cbn.
    split; [reflexivity|]. exists (skipn k (names q)). split.
    + intros E. apply (f_equal length) in E. rewrite length_skipn in E.
      cbn in E. lia.
    + symmetry. apply firstn_skipn.
  - intros (Ha & rest & Hne & Hn). exists (length (names p)). split.
    + destruct p as [ap np]. cbn in *. subst ap. f_equal.
      rewrite Hn. now rewrite take_app_length.
    + apply in_rev. rewrite rev_involutive. apply in_seq.
      rewrite Hn, length_app.
      destruct rest; [contradiction|]. cbn. lia.
Qed.

(** [is_modified] on a list: some file that does not end in [.md] lies
    below the app directory. *)
Lemma is_modified_list (w : World) (a : App) (l : list string) :
  is_modified w a (Some (PyListArg l)) = true <->
  exists f, f ∈ l /\
    endswith ".md" (last_part (to_absolute_path w f)) = false /\
    to_absolute_path w (app_dir a) ∈ parents (to_absolute_path w f).
Proof.
  unfold is_modified. cbn [iterate]. rewrite existsb_exists. split.
  - intros (f & Hin & H). apply andb_true_iff in H as [H1 H2].
    exists f. rewrite list_elem_of_In. split; [exact Hin|].
    apply negb_true_iff in H1. apply bool_decide_eq_true in H2. now split.
  - intros (f & Hin & H1 & H2). exists f. rewrite <- list_elem_of_In.
    split; [exact Hin|]. rewrite H1. cbn [negb andb].
    now apply bool_decide_eq_true.
Qed.

(** The component signal, for a list of modified components. *)
Lemma set_inter_spec (l1 l2 : list string) :
  list_to_set l1 ∩ list_to_set l2 ≠@{gset string} ∅ <->
  exists c, c ∈ l1 /\ c ∈ l2.
Proof.
  split.
  - intros H. apply set_choose_L in H as [c Hc]. exists c.
    apply elem_of_intersection in Hc as [H1 H2].
    now rewrite !elem_of_list_to_set in *.
  - intros (c & H1 & H2) E.
    assert (Hc : c ∈ (list_to_set l1 ∩ list_to_set l2 : gset string)).
    { apply elem_of_intersection. now rewrite !elem_of_list_to_set. }
    rewrite E in Hc. now apply not_elem_of_empty in Hc.
Qed.

Lemma component_signal_spec (w : World) (a : App) (mc : option (list string)) :
  (component_signal w a true mc = YES <->
   exists l c, mc = Some l /\ c ∈ depends_components w a /\ c ∈ l) /\
  (component_signal w a true mc = NO <->
   exists l, mc = Some l /\ depends_components w a <> [] /\
             ~ exists c, c ∈ depends_components w a /\ c ∈ l) /\
  (component_signal w a true mc = UNKNOWN <->
   mc = None \/ depends_components w a = []).
Proof.
  unfold component_signal. destruct mc as [l|].
  - destruct (bool_decide _) eqn:E.
    + apply bool_decide_eq_true, set_inter_spec in E. repeat split.
      * intros _. destruct E as (c & H1 & H2). now exists l, c.
      * discriminate.
      * intros (l' & [= <-] & _ & Hn). contradiction.
      * discriminate.
      * intros [|H]; [discriminate|]. destruct E as (c & H1 & _).
        rewrite H in H1. now apply elem_of_nil in H1.
    + apply bool_decide_eq_false in E. rewrite set_inter_spec in E.
      destruct (depends_components w a) eqn:D; cbn [nonempty]; repeat split;
        try discriminate; try (intros _; now right);
        try (intros (l' & c & [= <-] & H1 & H2); exfalso; apply E; now exists c);
        try (intros (l' & _ & Hne & _); congruence);
        try (intros [|]; discriminate).
      intros _. exists l. now split.
  - repeat split; try discriminate; try (intros _; now left);
      try (intros (l & c & [=] & _)); try (intros (l & [=] & _)).
Qed.

(** The file-pattern signal, for a list of modified files. *)
Lemma files_matches_patterns_spec
  (w : World) (files patterns : list string) (root : option string) :
  files_matches_patterns w files patterns root = true <->
  exists f p, f ∈ files /\ p ∈ patterns /\ pattern_matches w root p f = true.
Proof.
  unfold files_matches_patterns. rewrite existsb_exists. split.
  - intros (f & Hf & H). apply existsb_exists in H as (p & Hp & H).
    exists f, p. now rewrite !list_elem_of_In.
  - intros (f & p & Hf & Hp & H). exists f. rewrite <- list_elem_of_In.
    split; [exact Hf|]. apply existsb_exists. exists p.
    now rewrite <- list_elem_of_In.
Qed.

Lemma filepattern_signal_spec
  (w : World) (a : App) (root : option string) (mf : option (list string)) :
  (filepattern_signal w a root true mf = YES <->
   exists l, mf = Some l /\
             files_matches_patterns w l (depends_filepatterns w a) root = true) /\
  (filepattern_signal w a root true mf = NO <->
   exists l, mf = Some l /\ depends_filepatterns w a <> [] /\
             files_matches_patterns w l (depends_filepatterns w a) root = false) /\
  (filepattern_signal w a root true mf = UNKNOWN <->
   mf = None \/ depends_filepatterns w a = []).
Proof.
  unfold filepattern_signal. destruct mf as [l|].
  - destruct (files_matches_patterns w l (depends_filepatterns w a) root) eqn:E.
    + repeat split; try discriminate.
      * intros _. now exists l.
      * intros (l' & [= <-] & _ & H). congruence.
      * intros [|H]; [discriminate|]. rewrite H in E.
        unfold files_matches_patterns in E. cbn [existsb] in E.
        clear -E. induction l as [|x l IH]; [discriminate|exact (IH E)].
    + destruct (depends_filepatterns w a) eqn:D; cbn [nonempty]; repeat split;
        try discriminate; try (intros _; now right);
        try (intros (l' & [= <-] & H); congruence);
        try (intros (l' & _ & Hne & _); congruence);
        try (intros [|]; discriminate).
      intros _. exists l. now split.
  - repeat split; try discriminate; try (intros _; now left);
      try (intros (l & [=] & _)).
Qed.

(** The decision table of [check_should_build], for every call that
    finds the decision still unknown, in terms of [is_modified] and of
    the two signals computed from the arguments passed through
    [to_list]. *)
Lemma check_should_build_matrix
  (w : World) (a : App) (root : option string) (chk : bool)
  (mc mf : option StrOrList) :
  should_build a = UNKNOWN ->
  let a' := check_should_build w a root chk mc mf in
  let cs := component_signal w a true (to_list mc) in
  let fs := filepattern_signal w a root true (to_list mf) in
  (chk = false -> should_build a' = YES) /\
  (chk = true -> is_modified w a mf = true -> should_build a' = YES) /\
  (chk = true -> is_modified w a mf = false ->
   (cs = YES \/ fs = YES -> should_build a' = YES) /\
   (cs = NO -> fs <> YES -> should_build a' = NO) /\
   (cs <> YES -> fs <> YES -> cs <> NO -> should_build a' = UNKNOWN)) /\
  (chk = true -> is_modified w a mf = false ->
   depends_components w a = [] -> depends_filepatterns w a = [] ->
   should_build a' = UNKNOWN).
Proof.
  intros Hu a' cs fs.
  assert (H3 : chk = true -> is_modified w a mf = false ->
               (cs = YES \/ fs = YES -> should_build a' = YES) /\
               (cs = NO -> fs <> YES -> should_build a' = NO) /\
               (cs <> YES -> fs <> YES -> cs <> NO -> should_build a' = UNKNOWN)).
  { subst a'. unfold check_should_build.
    rewrite bool_decide_eq_true_2 by exact Hu. cbn [negb].
    intros -> ->. cbn [negb]. fold cs fs.
    destruct cs, fs; cbn; rewrite ?Hu; repeat split; intros;
      try reflexivity; try congruence; try tauto;
      match goal with H : _ \/ _ |- _ => destruct H; congruence end. }
  split; [|split; [|split; [exact H3|]]].
  - subst a'. unfold check_should_build.
    rewrite bool_decide_eq_true_2 by exact Hu. now intros ->.
  - subst a'. unfold check_should_build.
    rewrite bool_decide_eq_true_2 by exact Hu. now intros -> ->.
  - intros Hchk Hm Hc Hf.
    assert (Hcs : cs = UNKNOWN) by (apply component_signal_spec; now right).
    assert (Hfs : fs = UNKNOWN) by (apply filepattern_signal_spec; now right).
    apply (H3 Hchk Hm); congruence.
Qed.

(** C1.  On the call [check_should_build(None, True, None, 'proj/main.c')]
    the modified file lies inside the app directory [proj] and is no
    [.md] file: passed as the one-element list it makes the decision
    [YES].  Passed as a [str], which the signature admits and which
    [to_list] would wrap two lines further down, it is iterated
    character by character by [is_modified], no character lies inside
    the app directory, and the decision stays [UNKNOWN]. *)
Theorem check_should_build_str_modified_files :
  is_modified w_plain app_proj (Some (PyListArg ["proj/main.c"])) = true /\
  should_build
    (check_should_build w_plain app_proj None true None
       (Some (PyListArg ["proj/main.c"]))) = YES /\
  to_list (Some (PyStrArg "proj/main.c")) = Some ["proj/main.c"] /\
  is_modified w_plain app_proj (Some (PyStrArg "proj/main.c")) = false /\
  should_build
    (check_should_build w_plain app_proj None true None
       (Some (PyStrArg "proj/main.c"))) = UNKNOWN.
Proof. repeat split; vm_compute; reflexivity. Qed.

Lemma decided_stays (w : World) (a : App) (c : Call) :
  should_build a <> UNKNOWN -> apply_call w a c = a.
Proof.
  intros H. unfold apply_call, check_should_build.
  now rewrite bool_decide_eq_false_2.
Qed.

Lemma decided_no_changes (w : World) (a : App) (calls : list Call) :
  should_build a <> UNKNOWN -> changes (history w a calls) = 0%nat.
Proof.
  intros H. induction calls as [|c calls IH]; [reflexivity|].
  cbn [history]. rewrite decided_stays by exact H.
  destruct calls as [|c' calls].
  - cbn. now rewrite bool_decide_eq_true_2.
  - cbn [history changes] in *. rewrite decided_stays in * by exact H.
    rewrite bool_decide_eq_true_2 by reflexivity. exact IH.
Qed.

Lemma history_step (w : World) (a : App) (c : Call) (calls : list Call) :
  changes (history w a (c :: calls))
  = ((if bool_decide (should_build a = should_build (apply_call w a c))
      then 0 else 1)
     + changes (history w (apply_call w a c) calls))%nat.
Proof. destruct calls; reflexivity. Qed.

Lemma decision_step_refl (a : App) : decision_step a a.
Proof. now left. Qed.

Lemma decision_step_trans (a b c : App) :
  decision_step a b -> decision_step b c -> decision_step a c.
Proof.
  unfold decision_step. intros [H1|[H1 H1']] [H2|[H2 H2']].
  - left. congruence.
  - right. split; [congruence|exact H2'].
  - right. split; [exact H1|]. rewrite H2. exact H1'.
  - destruct H1'; congruence.
Qed.

Lemma check_should_build_step
  (w : World) (a : App) (root : option string) (chk : bool) (mc mf : option StrOrList) :
  decision_step a (check_should_build w a root chk mc mf).
Proof.
  destruct (decide (should_build a = UNKNOWN)) as [Hu|Hd].
  - destruct (should_build (check_should_build w a root chk mc mf)) eqn:E.
    + right. split; [exact Hu|now left].
    + right. split; [exact Hu|now right].
    + left. now rewrite Hu.
  - left. f_equal. exact (decided_stays w a (mkCall root chk mc mf) Hd).
Qed.

Lemma at_most_one_change (w : World) (a : App) (calls : list Call) :
  (changes (history w a calls) <= 1)%nat.
Proof.
  revert a. induction calls as [|c calls IH]; intros a.
  - cbn. lia.
  - destruct (decide (should_build a = UNKNOWN)) as [Hu|Hd];
      [|rewrite decided_no_changes by exact Hd; lia].
    rewrite history_step.
    destruct (decide (should_build (apply_call w a c) = UNKNOWN)) as [Hu'|Hd'].
    + rewrite bool_decide_eq_true_2 by congruence. apply IH.
    + rewrite decided_no_changes by exact Hd'.
      destruct (bool_decide _); lia.
Qed.

End Decision_claims.

(** ** SdkconfigPipeline: the claims about [_process_sdkconfig_files] *)

Section Sdkconfig_claims.
Import PyStr OsPath PathTemplate Sdkconfig Sdkconfig_spec Samples PyStr_facts.

Lemma test_opt_not_target (k : string) :
  str_in k SDKCONFIG_TEST_OPTS = true -> String.eqb k "CONFIG_IDF_TARGET" = false.
Proof.
  unfold str_in, SDKCONFIG_TEST_OPTS. cbn [existsb].
  rewrite !orb_true_iff, !String.eqb_eq.
  intros [->|[->|[->|?]]]; (discriminate || reflexivity).
Qed.

Lemma ignore_opt_not_target (k : string) :
  str_in k SDKCONFIG_IGNORE_OPTS = true -> String.eqb k "CONFIG_IDF_TARGET" = false.
Proof.
  unfold str_in, SDKCONFIG_IGNORE_OPTS. cbn [existsb].
  rewrite !orb_true_iff, !String.eqb_eq.
  intros [->|?]; (discriminate || reflexivity).
Qed.

Lemma ignore_opt_not_test (k : string) :
  str_in k SDKCONFIG_IGNORE_OPTS = true -> str_in k SDKCONFIG_TEST_OPTS = false.
Proof.
  unfold str_in at 1, SDKCONFIG_IGNORE_OPTS. cbn [existsb].
  rewrite !orb_true_iff, !String.eqb_eq.
  intros [->|?]; (discriminate || reflexivity).
Qed.

Lemma process_line_test_opt (w : World) (st : LineState) (line k v : string) :
  SDKCONFIG_LINE_REGEX_match (expandvars (environ w) line) = Some (k, v) ->
  str_in k SDKCONFIG_TEST_OPTS = true ->
  process_line w CMake st line
  = (mkLineState (ls_target st) (<[k := v]> (ls_vars st)), None).
Proof.
  intros Hm Hk. unfold process_line. rewrite Hm.
  rewrite (test_opt_not_target k Hk), Hk. reflexivity.
Qed.

Lemma process_line_ignore_opt (w : World) (st : LineState) (line k v : string) :
  SDKCONFIG_LINE_REGEX_match (expandvars (environ w) line) = Some (k, v) ->
  str_in k SDKCONFIG_IGNORE_OPTS = true ->
  process_line w CMake st line = (st, None).
Proof.
  intros Hm Hk. unfold process_line. rewrite Hm.
  rewrite (ignore_opt_not_target k Hk), (ignore_opt_not_test k Hk), Hk. reflexivity.
Qed.

Lemma process_line_output (w : World) (bs : BuildSystem) (st : LineState) (line : string) :
  snd (process_line w bs st line)
  = match bs with
    | CMake =>
        if routed (expandvars (environ w) line) then None
        else Some (expandvars (environ w) line)
    | Make => Some (expandvars (environ w) line)
    end.
Proof.
  unfold process_line, routed.
  destruct bs; [reflexivity|].
  destruct (SDKCONFIG_LINE_REGEX_match _) as [[k v]|]; [|reflexivity].
  destruct (str_in k SDKCONFIG_TEST_OPTS); [reflexivity|].
  destruct (str_in k SDKCONFIG_IGNORE_OPTS); reflexivity.
Qed.

Lemma process_lines_cons (w : World) (bs : BuildSystem) (st : LineState)
  (l : string) (ls : list string) :
  process_lines w bs st (l :: ls)
  = (fst (process_lines w bs (fst (process_line w bs st l)) ls),
     match snd (process_line w bs st l) with
     | Some o => o :: snd (process_lines w bs (fst (process_line w bs st l)) ls)
     | None => snd (process_lines w bs (fst (process_line w bs st l)) ls)
     end).
Proof.
  cbn [process_lines]. destruct (process_line w bs st l) as [st1 out].
  cbn [fst snd]. destruct (process_lines w bs st1 ls). reflexivity.
Qed.

Lemma process_lines_cmake_output (w : World) (st : LineState) (ls : list string) :
  snd (process_lines w CMake st ls)
  = List.filter (fun l => negb (routed l)) (List.map (expandvars (environ w)) ls).
Proof.
  revert st. induction ls as [|l ls IH]; intros st; [reflexivity|].
  rewrite process_lines_cons. cbn [snd List.map List.filter].
  rewrite process_line_output, IH.
  destruct (routed _); reflexivity.
Qed.

Lemma process_lines_make (w : World) (st : LineState) (ls : list string) :
  snd (process_lines w Make st ls) = List.map (expandvars (environ w)) ls /\
  ls_vars (fst (process_lines w Make st ls)) = ls_vars st.
Proof.
  revert st. induction ls as [|l ls IH]; intros st; [now split|].
  rewrite process_lines_cons. cbn [fst snd List.map].
  rewrite process_line_output.
  destruct (IH (fst (process_line w Make st l))) as [IH1 IH2].
  rewrite IH1, IH2. split; [reflexivity|].
  unfold process_line.
  destruct (SDKCONFIG_LINE_REGEX_match _) as [[k v]|]; [|reflexivity].
  cbn [fst]. destruct (String.eqb k "CONFIG_IDF_TARGET"); reflexivity.
Qed.

Lemma cmake_var_in_build_args
  (w : World) (h : Lifecycle.Host) (a : App) (k v : string) :
  cmake_vars a !! k = Some v ->
  In ("-D" +:+ k +:+ "=" +:+ v) (Lifecycle.cmake_build_args w h a).
Proof.
  intros H. unfold Lifecycle.cmake_build_args.
  apply in_or_app. right. apply in_or_app. left.
  apply in_map_iff. exists (k, v). split; [reflexivity|].
  apply list_elem_of_In, elem_of_map_to_list, H.
Qed.

Lemma process_lines_written
  (w : World) (bs : BuildSystem) (st : LineState) (ls : list string) :
  snd (process_lines w bs st ls) = written_lines w bs ls.
Proof.
  destruct bs; [apply process_lines_make|apply process_lines_cmake_output].
Qed.

Lemma process_lines_app
  (w : World) (bs : BuildSystem) (st : LineState) (l1 l2 : list string) :
  fst (process_lines w bs st (l1 ++ l2))
  = fst (process_lines w bs (fst (process_lines w bs st l1)) l2).
Proof.
  revert st. induction l1 as [|l l1 IH]; intros st; [reflexivity|].
  rewrite <- app_comm_cons, !process_lines_cons. cbn [fst]. apply IH.
Qed.


(** *** Paths in the scratch directory *)

Lemma split_nonempty (sep : ascii) (s : string) : split sep s <> [].
Proof.
  destruct s as [|c s]; [discriminate|]. cbn [split].
  destruct (Ascii.eqb c sep); [discriminate|].
  destruct (split sep s); discriminate.
Qed.

Lemma split_no_sep (sep : ascii) (s : string) :
  Forall (fun x => contains (String sep EmptyString) x = false) (split sep s).
Proof.
  induction s as [|c s IH]; [repeat constructor|]. cbn [split].
  destruct (Ascii.eqb c sep) eqn:E.
  - constructor; [reflexivity|exact IH].
  - pose proof (split_nonempty sep s) as Hne.
    destruct (split sep s) as [|x l]; [contradiction|].
    inversion IH as [|? ? Hx Hl]; subst. constructor; [|exact Hl].
    rewrite contains_cons. cbn [startswith]. rewrite Ascii.eqb_sym, E. exact Hx.
Qed.

Lemma startswith_contains (p s : string) :
  startswith p s = true -> contains p s = true.
Proof. intros H. destruct s; cbn [contains]; now rewrite H. Qed.

Lemma basename_no_slash (y : string) : contains "/" (basename y) = false.
Proof.
  unfold basename.
  assert (H : forall l : list string,
             Forall (fun x => contains "/" x = false) l ->
             contains "/" (List.last l EmptyString) = false).
  { induction 1 as [|x l Hx Hl IH]; [reflexivity|].
    destruct l as [|y' l]; [exact Hx|exact IH]. }
  apply H, (split_no_sep "/"%char).
Qed.

Lemma join_prefix (d b : string) :
  contains "/" b = false -> startswith d (join d b) = true.
Proof.
  intros Hb. unfold join.
  destruct (startswith "/" b) eqn:E.
  - apply startswith_contains in E. congruence.
  - destruct (negb (truthy d) || endswith "/" d); apply startswith_app.
Qed.

Lemma copy_dest_inside (w : World) (a : App) (g : string) :
  outside_scratch w a (copy_dest w a g) = false.
Proof.
  unfold outside_scratch, copy_dest.
  now rewrite join_prefix by apply basename_no_slash.
Qed.

Lemma scratch_path_inside (w : World) (a : App) (f0 : string) :
  outside_scratch w a (scratch_path w a f0) = false.
Proof. apply copy_dest_inside. Qed.

Lemma outside_ne_copy_dest (w : World) (a : App) (p g : string) :
  outside_scratch w a p = true -> p <> copy_dest w a g.
Proof. intros H ->. now rewrite copy_dest_inside in H. Qed.

(** *** The copies of the target-specific files *)

Lemma copy_all_frame (w : World) (a : App) (fs : gmap string string)
  (srcs : list string) (p : string) :
  outside_scratch w a p = true ->
  files_after id (copy_all (expanded_dir w a) fs srcs) !! p = fs !! p.
Proof.
  intros Hp. revert fs. induction srcs as [|src srcs IH]; intros fs; [reflexivity|].
  cbn [copy_all]. destruct (fs !! src) as [c|]; [|reflexivity].
  destruct (String.eqb src _); [reflexivity|].
  rewrite IH. apply lookup_insert_ne.
  intros E. now apply (outside_ne_copy_dest w a p src).
Qed.

Lemma copy_all_ok (w : World) (a : App) (fs : gmap string string) (srcs : list string) :
  (forall g, In g srcs -> is_Some (fs !! g) /\ outside_scratch w a g = true) ->
  exists fs',
    copy_all (expanded_dir w a) fs srcs = inr fs' /\
    forall p, (fs' !! p = fs !! p /\ forall g, In g srcs -> copy_dest w a g <> p) \/
              exists g, In g srcs /\ copy_dest w a g = p /\ fs' !! p = fs !! g.
Proof.
  revert fs. induction srcs as [|src srcs IH]; intros fs H.
  - exists fs. split; [reflexivity|]. intros p. left. split; [reflexivity|intros g []].
  - destruct (H src (or_introl eq_refl)) as [[c Hc] Hout].
    cbn [copy_all]. rewrite Hc. fold (copy_dest w a src).
    rewrite (proj2 (String.eqb_neq _ _) (outside_ne_copy_dest w a src src Hout)).
    assert (Hkeep : forall g, outside_scratch w a g = true ->
                              <[copy_dest w a src := c]> fs !! g = fs !! g).
    { intros g Hg. apply lookup_insert_ne. intros E.
      now apply (outside_ne_copy_dest w a g src). }
    destruct (IH (<[copy_dest w a src := c]> fs)) as (fs' & E & Hfs').
    { intros g Hg. destruct (H g (or_intror Hg)) as [Hs Ho].
      split; [now rewrite Hkeep|exact Ho]. }
    exists fs'. split; [exact E|]. intros p.
    destruct (Hfs' p) as [[Hp Hno]|(g & Hg & Hd & Hp)].
    + destruct (decide (copy_dest w a src = p)) as [<-|Hne].
      * right. exists src. split; [now left|]. split; [reflexivity|].
        now rewrite Hp, lookup_insert_eq.
      * left. split; [now rewrite Hp, lookup_insert_ne|].
        intros g [<-|Hg]; [exact Hne|now apply Hno].
    + right. exists g. split; [now right|]. split; [exact Hd|].
      rewrite Hp. apply Hkeep. now destruct (H g (or_intror Hg)).
Qed.

(** *** One round of the file loop *)

Lemma eqb_false_ne (x y : string) : x <> y -> String.eqb x y = false.
Proof. intros H. now apply String.eqb_neq. Qed.

(** What one round does to a candidate that is a file and is not its own
    scratch copy. *)
Lemma process_file_present (w : World) (a : App) (st : PipeState) (f0 c : string) :
  let f := resolve_candidate w a f0 in
  let fp := scratch_path w a f0 in
  let fs2 :=
    <[fp := normalized w (build_system a) c]> (<[fp := EmptyString]> (ps_fs st)) in
  let ls := fst (process_lines w (build_system a) (ps_line st) (lines c)) in
  ps_fs st !! f = Some c -> f <> fp ->
  process_file w a st f0
  = if unchanged w (build_system a) c
    then inr (mkPipeState (delete fp fs2) ls (ps_res st ++ [f]))
    else match target_specific_files w fs2 a f with
         | None => inl (GlobError (basename f +:+ "." +:+ target a) fs2)
         | Some srcs =>
             match copy_all (expanded_dir w a) fs2 srcs with
             | inr fs3 => inr (mkPipeState fs3 ls (ps_res st ++ [fp]))
             | inl e => inl e
             end
         end.
Proof.
  intros f fp fs2 ls Hf Hne. unfold process_file. fold f. rewrite Hf.
  change (join (expanded_dir w a) (basename f)) with fp.
  assert (Hskip : forall (x : string) (m : gmap string string),
             <[fp := x]> m !! f = m !! f).
  { intros x m. apply lookup_insert_ne. congruence. }
  rewrite Hskip, Hf. cbn [from_option]. change (id c) with c.
  subst fs2 ls. unfold unchanged, normalized.
  rewrite <- (process_lines_written w (build_system a) (ps_line st) (lines c)).
  destruct (process_lines w (build_system a) (ps_line st) (lines c)) as [ls out].
  cbv beta iota. cbn [fst snd].
  rewrite !Hskip, Hf, lookup_insert_eq. reflexivity.
Qed.

(** A round writes in the scratch directory only, however it ends. *)
Lemma process_file_frame (w : World) (a : App) (st : PipeState) (f0 p : string) :
  outside_scratch w a p = true ->
  files_after ps_fs (process_file w a st f0) !! p = ps_fs st !! p.
Proof.
  intros Hp. unfold process_file.
  destruct (ps_fs st !! resolve_candidate w a f0); [|reflexivity].
  destruct (process_lines _ _ _ _) as [ls out].
  fold (scratch_path w a f0).
  assert (Hne : p <> scratch_path w a f0) by now apply outside_ne_copy_dest.
  destruct (String.eqb _ _); cbn [files_after ps_fs].
  - rewrite lookup_delete_ne by congruence.
    now rewrite !lookup_insert_ne by congruence.
  - destruct (target_specific_files _ _ _ _) as [srcs|]; cbn [files_after];
      [|now rewrite !lookup_insert_ne by congruence].
    match goal with
    | |- context [copy_all ?d ?m ?l] =>
        pose proof (copy_all_frame w a m l p Hp) as Hc;
          destruct (copy_all d m l) as [[pat fs'|src fs']|fs3]
    end; cbn [files_after ps_fs id] in *;
      rewrite Hc; now rewrite !lookup_insert_ne by congruence.
Qed.

(** One round for a candidate outside the scratch directory, on files
    that are those of the start outside the scratch directory. *)
Lemma round_spec
  (w : World) (a : App) (fs : gmap string string) (st : PipeState) (f0 : string) :
  glob_fits w a fs ->
  In f0 (candidates a) ->
  outside_scratch w a (resolve_candidate w a f0) = true ->
  (forall p, outside_scratch w a p = true -> ps_fs st !! p = fs !! p) ->
  exists st',
    process_file w a st f0 = inr st' /\
    ps_res st' = ps_res st ++ output_of w a fs f0 /\
    ps_line st'
    = fst (process_lines w (build_system a) (ps_line st) (lines_of w a fs f0)) /\
    (forall p, outside_scratch w a p = true -> ps_fs st' !! p = fs !! p) /\
    (forall p v, ps_fs st !! p = v -> p <> scratch_path w a f0 ->
                 (forall g, In g (yielded w a fs f0) ->
                            copy_dest w a g = p -> v = fs !! g) ->
                 ps_fs st' !! p = v) /\
    (forall c, fs !! resolve_candidate w a f0 = Some c ->
               if unchanged w (build_system a) c
               then ps_fs st' !! scratch_path w a f0 = None
               else ps_fs st' !! scratch_path w a f0
                    = Some (normalized w (build_system a) c) /\
                    forall g, In g (yielded w a fs f0) ->
                              ps_fs st' !! copy_dest w a g = fs !! g).
Proof.
  intros (G0 & G1 & G2 & G3 & G4) Hin Hout Hag.
  destruct (G0 f0 Hin) as [srcs Hsrcs].
  assert (Hy : yielded w a fs f0 = srcs) by (unfold yielded; now rewrite Hsrcs).
  rewrite Hy in *.
  set (f := resolve_candidate w a f0) in *.
  set (fp := scratch_path w a f0) in *.
  assert (Hne : f <> fp) by now apply outside_ne_copy_dest.
  unfold output_of, lines_of. fold f.
  destruct (fs !! f) as [c|] eqn:Hf.
  - assert (Hst : ps_fs st !! f = Some c) by now rewrite Hag.
    rewrite (process_file_present w a st f0 c Hst Hne). fold f fp.
    set (fs2 := <[fp := normalized w (build_system a) c]>
                  (<[fp := EmptyString]> (ps_fs st))).
    assert (Hfs2 : forall p, p <> fp -> fs2 !! p = ps_fs st !! p).
    { intros p Hp. subst fs2. now rewrite !lookup_insert_ne by congruence. }
    assert (Hag2 : forall p, outside_scratch w a p = true -> fs2 !! p = fs !! p).
    { intros p Hp. rewrite Hfs2; [now apply Hag|].
      now apply outside_ne_copy_dest. }
    destruct (unchanged w (build_system a) c) eqn:Eu.
    + eexists. split; [reflexivity|]. cbn [ps_res ps_line ps_fs].
      split; [reflexivity|]. split; [reflexivity|]. split; [|split].
      * intros p Hp. rewrite lookup_delete_ne; [now apply Hag2|].
        intros E. now apply (outside_ne_copy_dest w a p (resolve_candidate w a f0)).
      * intros p v Hv Hp _. rewrite lookup_delete_ne by congruence.
        now rewrite Hfs2.
      * intros c' [= <-]. rewrite Eu. apply lookup_delete_eq.
    + rewrite (G2 fs2 f0 Hin Hag2
               : target_specific_files w fs2 a f = target_specific_files w fs a f),
        Hsrcs.
      assert (G1' : forall g, In g srcs -> is_Some (fs !! g) /\ outside_scratch w a g = true).
      { intros g Hg. apply (G1 f0 g Hin). now rewrite Hy. }
      assert (G3' : forall g, In g srcs -> copy_dest w a g <> fp).
      { intros g Hg. apply (G3 f0 f0 g Hin Hin). now rewrite Hy. }
      assert (G4' : forall g g', In g srcs -> In g' srcs ->
                                 copy_dest w a g = copy_dest w a g' -> g = g').
      { intros g g' Hg Hg'. apply (G4 f0 f0 g g' Hin Hin); now rewrite Hy. }
      destruct (copy_all_ok w a fs2 srcs) as (fs3 & E3 & H3).
      { intros g Hg. destruct (G1' g Hg) as [Hs Ho].
        split; [now rewrite Hag2|exact Ho]. }
      rewrite E3. eexists. split; [reflexivity|]. cbn [ps_res ps_line ps_fs].
      split; [reflexivity|]. split; [reflexivity|].
      assert (Hcopy : forall g, In g srcs -> fs3 !! copy_dest w a g = fs !! g).
      { intros g Hg. destruct (H3 (copy_dest w a g)) as [[_ Hno]|(g' & Hg' & Hd & Hp)].
        - now destruct (Hno g Hg).
        - rewrite Hp, (G4' g' g Hg' Hg Hd).
          apply Hag2. now destruct (G1' g Hg). }
      assert (Hfp : fs3 !! fp = Some (normalized w (build_system a) c)).
      { destruct (H3 fp) as [[Hp _]|(g' & Hg' & Hd & _)].
        - rewrite Hp. subst fs2. apply lookup_insert_eq.
        - now destruct (G3' g' Hg'). }
      split; [|split].
      * intros p Hp.
        pose proof (copy_all_frame w a fs2 srcs p Hp) as Hfr.
        rewrite E3 in Hfr. cbn [files_after id] in Hfr. rewrite Hfr. now apply Hag2.
      * intros p v Hv Hp Hw.
        destruct (H3 p) as [[Hq _]|(g' & Hg' & Hd & Hq)].
        -- rewrite Hq. now rewrite Hfs2.
        -- rewrite <- Hd, (Hcopy g' Hg'). symmetry. now apply Hw.
      * intros c' [= <-]. rewrite Eu. split; [exact Hfp|exact Hcopy].
  - assert (Hst : ps_fs st !! f = None) by now rewrite Hag.
    exists st. unfold process_file. fold f. rewrite Hst.
    split; [reflexivity|]. rewrite List.app_nil_r. split; [reflexivity|].
    split; [reflexivity|]. split; [exact Hag|]. split; [|discriminate].
    intros p v Hv _ _. exact Hv.
Qed.

(** *** The whole loop *)

Lemma run_files_spec
  (w : World) (a : App) (fs : gmap string string) (cands : list string) :
  glob_fits w a fs ->
  incl cands (candidates a) ->
  (forall f0, In f0 cands -> outside_scratch w a (resolve_candidate w a f0) = true) ->
  NoDup (List.map (scratch_path w a) cands) ->
  forall st,
    (forall p, outside_scratch w a p = true -> ps_fs st !! p = fs !! p) ->
    exists st',
      run_files w a st cands = inr st' /\
      ps_res st' = ps_res st ++ flat_map (output_of w a fs) cands /\
      ps_line st'
      = fst (process_lines w (build_system a) (ps_line st)
               (flat_map (lines_of w a fs) cands)) /\
      (forall p, outside_scratch w a p = true -> ps_fs st' !! p = fs !! p) /\
      (forall p v, ps_fs st !! p = v ->
                   (forall f0, In f0 cands -> p <> scratch_path w a f0) ->
                   (forall f0 g,
                       In f0 cands ->
                       In g (yielded w a fs f0) ->
                       copy_dest w a g = p -> v = fs !! g) ->
                   ps_fs st' !! p = v) /\
      (forall f0 c,
          In f0 cands -> fs !! resolve_candidate w a f0 = Some c ->
          if unchanged w (build_system a) c
          then ps_fs st' !! scratch_path w a f0 = None
          else ps_fs st' !! scratch_path w a f0
               = Some (normalized w (build_system a) c) /\
               forall g, In g (yielded w a fs f0) ->
                         ps_fs st' !! copy_dest w a g = fs !! g).
Proof.
  intros G. induction cands as [|f0 cands IH]; intros Hincl Hout Hnd st Hag.
  - exists st. cbn [run_files flat_map]. rewrite List.app_nil_r.
    split; [reflexivity|]. split; [reflexivity|]. split; [reflexivity|].
    split; [exact Hag|]. split; [|intros f0 c []].
    intros p v Hv _ _. exact Hv.
  - assert (Hin0 : In f0 (candidates a)) by (apply Hincl; now left).
    assert (Hincl' : incl cands (candidates a))
      by (intros x Hx; apply Hincl; now right).
    cbn [List.map] in Hnd. apply NoDup_cons in Hnd as [Hnotin Hnd].
    rewrite list_elem_of_In in Hnotin.
    destruct (round_spec w a fs st f0 G Hin0 (Hout f0 (or_introl eq_refl)) Hag)
      as (st1 & E1 & R1 & L1 & A1 & P1 & C1).
    destruct (IH Hincl' (fun x Hx => Hout x (or_intror Hx)) Hnd st1 A1)
      as (st' & E' & R' & L' & A' & P' & C').
    destruct G as (G0 & G1 & G2 & G3 & G4).
    exists st'. cbn [run_files flat_map]. rewrite E1.
    split; [exact E'|]. split; [now rewrite R', R1, <- List.app_assoc|].
    split; [now rewrite L', L1, process_lines_app|]. split; [exact A'|].
    assert (Hrest : forall x, In x cands -> scratch_path w a f0 <> scratch_path w a x).
    { intros x Hx E. apply Hnotin. rewrite E. now apply in_map. }
    split.
    + intros p v Hv Hs Hc. apply P'.
      * apply P1; [exact Hv|apply Hs; now left|].
        intros g Hg. apply (Hc f0 g); [now left|exact Hg].
      * intros x Hx. apply Hs. now right.
      * intros x g Hx. apply Hc. now right.
    + intros x c [<-|Hx] Hc.
      * specialize (C1 c Hc). destruct (unchanged w (build_system a) c).
        -- apply P'; [exact C1|exact Hrest|].
           intros x g Hx Hg E. now destruct (G3 x f0 g (Hincl' x Hx) Hin0 Hg).
        -- destruct C1 as [C1 C2]. split.
           ++ apply P'; [exact C1|exact Hrest|].
              intros x g Hx Hg E. now destruct (G3 x f0 g (Hincl' x Hx) Hin0 Hg).
           ++ intros g Hg. apply P'; [now apply C2| |].
              ** intros x Hx. apply (G3 f0 x g Hin0 (Hincl' x Hx) Hg).
              ** intros x g' Hx Hg' E. f_equal.
                 symmetry. exact (G4 x f0 g' g (Hincl' x Hx) Hin0 Hg' Hg E).
      * now apply C'.
Qed.

(** The outcome of the method under the two conditions on the candidates
    and the glob. *)
Lemma pipeline_spec (w : World) (a : App) (fs : gmap string string) :
  candidates_apart w a -> glob_fits w a fs ->
  exists fs' a',
    _process_sdkconfig_files w a fs = inr (fs', dir_calls w a, a') /\
    a' = set_sdkconfig_state
           (flat_map (output_of w a fs) (candidates a))
           (ls_target (fst (process_lines w (build_system a) (initial_lines a)
                              (flat_map (lines_of w a fs) (candidates a)))))
           (ls_vars (fst (process_lines w (build_system a) (initial_lines a)
                            (flat_map (lines_of w a fs) (candidates a)))))
           a /\
    (forall p, outside_scratch w a p = true -> fs' !! p = fs !! p) /\
    (forall f0 c,
        In f0 (candidates a) -> fs !! resolve_candidate w a f0 = Some c ->
        if unchanged w (build_system a) c
        then fs' !! scratch_path w a f0 = None
        else fs' !! scratch_path w a f0 = Some (normalized w (build_system a) c) /\
             forall g, In g (yielded w a fs f0) ->
                       fs' !! copy_dest w a g = fs !! g).
Proof.
  intros [Hout Hnd] G.
  destruct (run_files_spec w a fs (candidates a) G (incl_refl _) Hout Hnd
              (mkPipeState fs (initial_lines a) []) (fun p _ => eq_refl))
    as (st' & E & R & L & A & _ & C).
  exists (ps_fs st'), (set_sdkconfig_state (ps_res st') (ls_target (ps_line st'))
                         (ls_vars (ps_line st')) a).
  unfold _process_sdkconfig_files, run_pipeline. fold (initial_lines a). rewrite E.
  split; [reflexivity|]. cbn [ps_res ps_line] in R, L. rewrite R, L.
  split; [reflexivity|]. split; [exact A|exact C].
Qed.

(** *** The sample world *)

Lemma sample_glob_plain (fs : gmap string string) (f p : string) :
  has_magic p = false ->
  sample_glob fs f p
  = Some match fs !! (dir_of f +:+ p) with
         | Some _ => [dir_of f +:+ p]
         | None => []
         end.
Proof. intros H. unfold sample_glob. now rewrite H. Qed.

Lemma app_proj_target_specific (fs : gmap string string) :
  target_specific_files w_plain fs app_proj
    (resolve_candidate w_plain app_proj "sdkconfig.defaults")
  = Some match fs !! "proj/sdkconfig.defaults.esp32" with
         | Some _ => ["proj/sdkconfig.defaults.esp32"]
         | None => []
         end.
Proof.
  unfold target_specific_files. change (glob w_plain) with sample_glob.
  rewrite sample_glob_plain by reflexivity. reflexivity.
Qed.

Lemma app_proj_apart : candidates_apart w_plain app_proj.
Proof.
  split.
  - intros f0 [<-|[]]. reflexivity.
  - change (candidates app_proj) with ["sdkconfig.defaults"].
    cbn [List.map]. apply NoDup_singleton.
Qed.

Lemma app_proj_glob_fits (fs : gmap string string) : glob_fits w_plain app_proj fs.
Proof.
  assert (Hg : forall fs1 g,
             In g (yielded w_plain app_proj fs1 "sdkconfig.defaults") ->
             g = "proj/sdkconfig.defaults.esp32" /\ is_Some (fs1 !! g)).
  { intros fs1 g. unfold yielded. rewrite app_proj_target_specific. cbn [from_option].
    unfold id.
    destruct (fs1 !! "proj/sdkconfig.defaults.esp32") as [c|] eqn:E; [|intros []].
    intros [<-|[]]. split; [reflexivity|]. rewrite E. eauto. }
  split; [|split; [|split; [|split]]].
  - intros f0 [<-|[]]. rewrite app_proj_target_specific. eauto.
  - intros f0 g [<-|[]] Hin. destruct (Hg fs g Hin) as [-> Hs].
    split; [exact Hs|reflexivity].
  - intros fs1 f0 [<-|[]] Hag. rewrite !app_proj_target_specific.
    now rewrite (Hag "proj/sdkconfig.defaults.esp32" eq_refl).
  - intros f0 f0' g [<-|[]] [<-|[]] Hin. destruct (Hg fs g Hin) as [-> _].
    vm_compute. discriminate.
  - intros f0 f0' g g' [<-|[]] [<-|[]] Hin Hin' _.
    destruct (Hg fs g Hin) as [-> _]. now destruct (Hg fs g' Hin') as [-> _].
Qed.

(** *** The variables the line loop records *)

Lemma process_line_var_kept
  (w : World) (bs : BuildSystem) (st : LineState) (line k : string) :
  records k (expandvars (environ w) line) = false ->
  ls_vars (fst (process_line w bs st line)) !! k = ls_vars st !! k.
Proof.
  unfold records, process_line.
  destruct (SDKCONFIG_LINE_REGEX_match _) as [[k' v]|]; [|now destruct bs].
  intros H. destruct bs.
  - destruct (String.eqb k' "CONFIG_IDF_TARGET"); reflexivity.
  - destruct (str_in k' SDKCONFIG_TEST_OPTS).
    + rewrite andb_true_r in H. apply String.eqb_neq in H. cbn [fst ls_vars].
      rewrite lookup_insert_ne by exact H.
      destruct (String.eqb k' "CONFIG_IDF_TARGET"); reflexivity.
    + destruct (str_in k' SDKCONFIG_IGNORE_OPTS);
        destruct (String.eqb k' "CONFIG_IDF_TARGET"); reflexivity.
Qed.

Lemma process_lines_var_kept
  (w : World) (bs : BuildSystem) (st : LineState) (ls : list string) (k : string) :
  forallb (fun l => negb (records k (expandvars (environ w) l))) ls = true ->
  ls_vars (fst (process_lines w bs st ls)) !! k = ls_vars st !! k.
Proof.
  revert st. induction ls as [|l ls IH]; intros st H; [reflexivity|].
  cbn [forallb] in H. apply andb_true_iff in H as [H1 H2].
  apply negb_true_iff in H1.
  rewrite process_lines_cons. cbn [fst]. rewrite IH by exact H2.
  now apply process_line_var_kept.
Qed.

Lemma process_lines_var_recorded
  (w : World) (st : LineState) (before after : list string) (line k v : string) :
  SDKCONFIG_LINE_REGEX_match (expandvars (environ w) line) = Some (k, v) ->
  str_in k SDKCONFIG_TEST_OPTS = true ->
  forallb (fun l => negb (records k (expandvars (environ w) l))) after = true ->
  ls_vars (fst (process_lines w CMake st (before ++ line :: after))) !! k = Some v.
Proof.
  intros Hm Hk Ha. rewrite process_lines_app, process_lines_cons. cbn [fst].
  rewrite process_lines_var_kept by exact Ha.
  rewrite (process_line_test_opt w _ line k v Hm Hk). cbn [fst ls_vars].
  apply lookup_insert_eq.
Qed.

(** C7, as the code has it.  Take candidates that lie outside the
    scratch directory, no two with the same scratch path, and a glob as
    [glob_fits] describes.  The method returns.  Its output list holds,
    in the order of the candidates, one path for each candidate that is a
    file and none for the others: the path of the file itself when the
    scratch copy, read back in text mode, equals the file read in text
    mode, and the path of the scratch copy otherwise.  In the first case
    no file is left at the scratch path.  In the second the scratch copy
    holds the normalized text, and every path the glob of
    [<base name>.<target>] yields beside the file is copied into the
    scratch directory under its base name.  The candidates are the
    defaults followed by the overlay file. *)
Theorem sdkconfig_output_paths :
  (forall (w : World) (a : App) (fs : gmap string string),
      candidates_apart w a -> glob_fits w a fs ->
      exists fs' a',
        _process_sdkconfig_files w a fs = inr (fs', dir_calls w a, a') /\
        _sdkconfig_files a' = flat_map (output_of w a fs) (candidates a) /\
        (forall f0 c,
            In f0 (candidates a) -> fs !! resolve_candidate w a f0 = Some c ->
            if unchanged w (build_system a) c
            then In (resolve_candidate w a f0) (_sdkconfig_files a') /\
                 fs' !! scratch_path w a f0 = None
            else In (scratch_path w a f0) (_sdkconfig_files a') /\
                 fs' !! scratch_path w a f0 = Some (normalized w (build_system a) c) /\
                 forall g,
                   In g (yielded w a fs f0) ->
                   is_Some (fs !! g) /\ fs' !! copy_dest w a g = fs !! g)) /\
  (forall (a : App) (overlay : string),
      sdkconfig_path a = Some overlay -> truthy overlay = true ->
      candidates a = _sdkconfig_defaults a ++ [overlay]) /\
  (forall (a : App),
      opt_truthy (sdkconfig_path a) = false -> candidates a = _sdkconfig_defaults a).
Proof.
  split; [|split].
  - intros w a fs Hap G.
    destruct (pipeline_spec w a fs Hap G) as (fs' & a' & E & -> & _ & C).
    exists fs'. eexists. split; [exact E|]. cbn [set_sdkconfig_state _sdkconfig_files].
    split; [reflexivity|]. intros f0 c Hin Hc. specialize (C f0 c Hin Hc).
    assert (Hout : In (match unchanged w (build_system a) c with
                       | true => resolve_candidate w a f0
                       | false => scratch_path w a f0
                       end)
                     (flat_map (output_of w a fs) (candidates a))).
    { apply in_flat_map. exists f0. split; [exact Hin|].
      unfold output_of. rewrite Hc.
      destruct (unchanged w (build_system a) c); now left. }
    destruct (unchanged w (build_system a) c).
    + split; [exact Hout|exact C].
    + destruct C as [C1 C2]. split; [exact Hout|]. split; [exact C1|].
      intros g Hg. split; [|now apply C2].
      destruct G as (_ & G1 & _). now destruct (G1 f0 g Hin Hg).
  - intros a overlay Hp Ht. unfold candidates. rewrite Hp. cbn. now rewrite Ht.
  - intros a H. unfold candidates. rewrite H. apply List.app_nil_r.
Qed.

Lemma sdkconfig_output_paths_witness :
  (candidates_apart w_plain app_proj /\ glob_fits w_plain app_proj sample_fs) /\
  exists fs' a',
    _process_sdkconfig_files w_plain app_proj sample_fs
    = inr (fs', dir_calls w_plain app_proj, a') /\
    _sdkconfig_files a' = ["proj/expanded_sdkconfig_files/build/sdkconfig.defaults"] /\
    fs' !! "proj/expanded_sdkconfig_files/build/sdkconfig.defaults"
    = Some ("CONFIG_A=y" +:+ nl) /\
    fs' !! "proj/expanded_sdkconfig_files/build/sdkconfig.defaults.esp32"
    = Some ("CONFIG_B=y" +:+ nl).
Proof.
  split; [split; [exact app_proj_apart|exact (app_proj_glob_fits sample_fs)]|].
  destruct (proj1 sdkconfig_output_paths w_plain app_proj sample_fs
              app_proj_apart (app_proj_glob_fits sample_fs))
    as (fs' & a' & E & R & C).
  exists fs', a'. split; [exact E|]. split; [rewrite R; reflexivity|].
  specialize (C "sdkconfig.defaults"
                ("CONFIG_A=y" +:+ nl +:+ "TEST_GROUPS=foo" +:+ nl)
                (or_introl eq_refl) eq_refl).
  change (unchanged w_plain (build_system app_proj)
            ("CONFIG_A=y" +:+ nl +:+ "TEST_GROUPS=foo" +:+ nl)) with false in C.
  destruct C as (_ & C1 & C2). split; [exact C1|].
  destruct (C2 "proj/sdkconfig.defaults.esp32") as [_ C3]; [|exact C3].
  unfold yielded. rewrite app_proj_target_specific. now left.
Defined.

(** C7 as stated fails in two places.  The scratch copy is compared with
    the file as text read back, not byte by byte: for a file with the
    line ends CR LF the scratch copy holds other bytes, and yet the path
    of the file is the output and the scratch copy is removed.  And the
    target-specific files are found by a glob: with the target [[a]] the
    sibling named [sdkconfig.defaults.[a]] is not copied, the sibling
    named [sdkconfig.defaults.a] is. *)
Lemma sdkconfig_comparison_not_bytewise :
  (crlf_fs !! "proj/sdkconfig.defaults" = Some ("CONFIG_A=y" +:+ cr +:+ nl) /\
   normalized w_plain CMake ("CONFIG_A=y" +:+ cr +:+ nl) = "CONFIG_A=y" +:+ nl /\
   normalized w_plain CMake ("CONFIG_A=y" +:+ cr +:+ nl) <> "CONFIG_A=y" +:+ cr +:+ nl /\
   outputs_left (_process_sdkconfig_files w_plain app_proj crlf_fs)
   = Some ["proj/sdkconfig.defaults"] /\
   files_left (_process_sdkconfig_files w_plain app_proj crlf_fs)
     !! "proj/expanded_sdkconfig_files/build/sdkconfig.defaults" = None) /\
  (target app_bracket = "[a]" /\
   bracket_fs !! "proj/sdkconfig.defaults.[a]" = Some ("CONFIG_LITERAL=y" +:+ nl) /\
   outputs_left (_process_sdkconfig_files w_plain app_bracket bracket_fs)
   = Some ["proj/expanded_sdkconfig_files/build/sdkconfig.defaults"] /\
   files_left (_process_sdkconfig_files w_plain app_bracket bracket_fs)
     !! "proj/expanded_sdkconfig_files/build/sdkconfig.defaults.[a]" = None /\
   files_left (_process_sdkconfig_files w_plain app_bracket bracket_fs)
     !! "proj/expanded_sdkconfig_files/build/sdkconfig.defaults.a"
   = Some ("CONFIG_MATCHED=y" +:+ nl)).
Proof. repeat split; vm_compute; (reflexivity || discriminate). Qed.

(** C8.  Under the conditions on the candidates and the glob the method
    returns, the App it leaves holds in [cmake_vars] the variables the
    line loop records over the lines of all candidate files, taken in the
    order of the candidates, and the scratch copy of a file that it
    changes holds the lines the loop writes.  For the CMake variant the
    lines written are the expanded lines whose key is neither a test
    option nor an ignored option: a line whose key is
    [EXCLUDE_COMPONENTS], [TEST_EXCLUDE_COMPONENTS] or [TEST_COMPONENTS]
    is not written and its key and value are recorded, a line whose key
    is [TEST_GROUPS] is not written and changes nothing.  A variable
    recorded by a line and by no later line is in [cmake_vars] with the
    value of that line, and [CMakeApp._build] passes it to the build
    command as [-Dkey=value].  For the Make variant every expanded line
    is written and [cmake_vars] stays as it was. *)
Theorem sdkconfig_key_routing :
  (forall (w : World) (a : App) (fs : gmap string string),
      candidates_apart w a -> glob_fits w a fs ->
      exists fs' a',
        _process_sdkconfig_files w a fs = inr (fs', dir_calls w a, a') /\
        cmake_vars a'
        = ls_vars (fst (process_lines w (build_system a) (initial_lines a)
                          (flat_map (lines_of w a fs) (candidates a)))) /\
        (build_system a = Make -> cmake_vars a' = cmake_vars a) /\
        (forall f0 c,
            In f0 (candidates a) -> fs !! resolve_candidate w a f0 = Some c ->
            unchanged w (build_system a) c = false ->
            fs' !! scratch_path w a f0
            = Some (concat (written_lines w (build_system a) (lines c)))) /\
        (forall before after line k v,
            build_system a = CMake ->
            flat_map (lines_of w a fs) (candidates a) = before ++ line :: after ->
            SDKCONFIG_LINE_REGEX_match (expandvars (environ w) line) = Some (k, v) ->
            str_in k SDKCONFIG_TEST_OPTS = true ->
            forallb (fun l => negb (records k (expandvars (environ w) l))) after = true ->
            cmake_vars a' !! k = Some v /\
            forall h : Lifecycle.Host,
              In ("-D" +:+ k +:+ "=" +:+ v) (Lifecycle.cmake_build_args w h a'))) /\
  (forall (w : World) (st : LineState) (ls : list string),
      snd (process_lines w CMake st ls)
      = List.filter (fun l => negb (routed l)) (List.map (expandvars (environ w)) ls)) /\
  (forall (w : World) (st : LineState) (ls : list string),
      snd (process_lines w Make st ls) = List.map (expandvars (environ w)) ls /\
      ls_vars (fst (process_lines w Make st ls)) = ls_vars st) /\
  (forall (w : World) (ls : list string) (l k v : string),
      In l (written_lines w CMake ls) ->
      SDKCONFIG_LINE_REGEX_match l = Some (k, v) ->
      str_in k SDKCONFIG_TEST_OPTS = false /\ str_in k SDKCONFIG_IGNORE_OPTS = false) /\
  (forall (w : World) (st : LineState) (line k v : string),
      SDKCONFIG_LINE_REGEX_match (expandvars (environ w) line) = Some (k, v) ->
      str_in k SDKCONFIG_TEST_OPTS = true ->
      process_line w CMake st line
      = (mkLineState (ls_target st) (<[k := v]> (ls_vars st)), None)) /\
  (forall (w : World) (st : LineState) (line k v : string),
      SDKCONFIG_LINE_REGEX_match (expandvars (environ w) line) = Some (k, v) ->
      str_in k SDKCONFIG_IGNORE_OPTS = true ->
      process_line w CMake st line = (st, None)) /\
  (forall (w : World) (st : LineState),
      process_line w CMake st ("TEST_GROUPS=foo" +:+ nl) = (st, None)) /\
  (forall (w : World) (st : LineState),
      process_line w CMake st ("TEST_COMPONENTS=foo" +:+ nl)
      = (mkLineState (ls_target st) (<["TEST_COMPONENTS" := "foo"]> (ls_vars st)),
         None)).
Proof.
  split; [|split; [|split; [|split; [|split; [|split; [|split]]]]]].
  - intros w a fs Hap G.
    destruct (pipeline_spec w a fs Hap G) as (fs' & a' & E & -> & _ & C).
    exists fs'. eexists. split; [exact E|]. cbn [set_sdkconfig_state cmake_vars].
    split; [reflexivity|]. split; [|split].
    + intros Hm. rewrite Hm.
      now destruct (process_lines_make w (initial_lines a)
                      (flat_map (lines_of w a fs) (candidates a))).
    + intros f0 c Hin Hc Hu. specialize (C f0 c Hin Hc). rewrite Hu in C.
      exact (proj1 C).
    + intros before after line k v Hbs Hall Hm Hk Ha.
      assert (Hv : ls_vars (fst (process_lines w (build_system a) (initial_lines a)
                                   (flat_map (lines_of w a fs) (candidates a)))) !! k
                   = Some v).
      { rewrite Hbs, Hall. now apply process_lines_var_recorded. }
      split; [exact Hv|]. intros h. now apply cmake_var_in_build_args.
  - exact process_lines_cmake_output.
  - exact process_lines_make.
  - intros w ls l k v Hin Hm. unfold written_lines in Hin.
    apply filter_In in Hin as [_ Hr]. apply negb_true_iff in Hr.
    unfold routed in Hr. rewrite Hm in Hr. now apply orb_false_iff in Hr.
  - exact process_line_test_opt.
  - exact process_line_ignore_opt.
  - intros w st. apply (process_line_ignore_opt w st _ "TEST_GROUPS" "foo"); reflexivity.
  - intros w st. apply (process_line_test_opt w st _ "TEST_COMPONENTS" "foo"); reflexivity.
Qed.

Lemma sdkconfig_key_routing_witness :
  (candidates_apart w_plain app_proj /\ glob_fits w_plain app_proj routing_fs) /\
  exists fs' a',
    _process_sdkconfig_files w_plain app_proj routing_fs
    = inr (fs', dir_calls w_plain app_proj, a') /\
    cmake_vars a' = <["TEST_COMPONENTS" := "foo"]> ∅ /\
    fs' !! "proj/expanded_sdkconfig_files/build/sdkconfig.defaults"
    = Some ("CONFIG_A=y" +:+ nl) /\
    forall h : Lifecycle.Host,
      In "-DTEST_COMPONENTS=foo" (Lifecycle.cmake_build_args w_plain h a').
Proof.
  split; [split; [exact app_proj_apart|exact (app_proj_glob_fits routing_fs)]|].
  destruct (proj1 sdkconfig_key_routing w_plain app_proj routing_fs
              app_proj_apart (app_proj_glob_fits routing_fs))
    as (fs' & a' & E & V & _ & S & R).
  exists fs', a'. split; [exact E|]. split; [rewrite V; reflexivity|]. split.
  - apply (S "sdkconfig.defaults"
             ("CONFIG_A=y" +:+ nl +:+ "TEST_COMPONENTS=foo" +:+ nl
              +:+ "TEST_GROUPS=bar" +:+ nl));
      [now left|reflexivity|reflexivity].
  - apply (R ["CONFIG_A=y" +:+ nl] ["TEST_GROUPS=bar" +:+ nl]
             ("TEST_COMPONENTS=foo" +:+ nl) "TEST_COMPONENTS" "foo");
      reflexivity.
Defined.

End Sdkconfig_claims.

(** ** BuildLifecycle: the claims about [build] *)

Section Lifecycle_claims.
Import PyStr OsPath PathTemplate Decision Lifecycle Lifecycle_spec Samples.

Lemma with_events_nil (st : State) : with_events st [] = st.
Proof. destruct st. unfold with_events. cbn. now rewrite app_nil_r. Qed.

Lemma with_events_app (st : State) (e1 e2 : list Event) :
  with_events (with_events st e1) e2 = with_events st (e1 ++ e2).
Proof. unfold with_events. cbn. now rewrite app_assoc. Qed.

Lemma bind_run {A B} (m : M A) (f : A -> M B) (st : State) :
  (m ≫= f) st
  = match m st with
    | (st', inr x) => f x st'
    | (st', inl e) => (st', inl e)
    end.
Proof. reflexivity. Qed.

Lemma emit_run (e : Event) (st : State) : emit e st = (with_events st [e], inr tt).
Proof. reflexivity. Qed.

Lemma log_run (lvl : Level) (r : LogRecord) (st : State) :
  log lvl r st = (with_events st [ELog lvl r], inr tt).
Proof. reflexivity. Qed.

(** *** Quiet computations *)

Lemma quiet_ret {A} (x : A) : quiet (mret x).
Proof. intros st. exists [], x. now rewrite with_events_nil. Qed.

Lemma quiet_bind {A B} (m : M A) (f : A -> M B) :
  quiet m -> (forall x, quiet (f x)) -> quiet (m ≫= f).
Proof.
  intros Hm Hf st. destruct (Hm st) as (e1 & x & E1).
  destruct (Hf x (with_events st e1)) as (e2 & y & E2).
  exists (e1 ++ e2), y. rewrite bind_run, E1, E2. now rewrite with_events_app.
Qed.

Lemma quiet_emit (e : Event) : quiet (emit e).
Proof. intros st. now exists [e], tt. Qed.

Lemma quiet_log (lvl : Level) (r : LogRecord) : quiet (log lvl r).
Proof. apply quiet_emit. Qed.

Lemma quiet_get_app : quiet get_app.
Proof. intros st. exists [], (st_app st). now rewrite with_events_nil. Qed.

Lemma quiet_get_trace : quiet get_trace.
Proof. intros st. exists [], (st_trace st). now rewrite with_events_nil. Qed.

Lemma quiet_when (b : bool) (m : M unit) : quiet m -> quiet (when b m).
Proof. intros H. destruct b; [exact H|apply quiet_ret]. Qed.

Ltac quiet_step :=
  first [ apply quiet_bind; [|intros ?]
        | apply quiet_when
        | apply quiet_log
        | apply quiet_emit
        | apply quiet_get_app
        | apply quiet_get_trace
        | apply quiet_ret ].

Lemma prepare_quiet (w : World) (h : Host) : quiet (prepare w h).
Proof.
  unfold prepare. repeat quiet_step.
  destruct (build_log_path w _); repeat quiet_step.
Qed.

(** *** The phases of [build] after [_build] *)

Lemma classify_run (w : World) (ls : list string) (b : bool) (st : State) :
  classify w ls b st
  = (with_events st (classify_events w ls), inr (b || has_unignored_warning_in w ls)).
Proof.
  revert b st. induction ls as [|l ls IH]; intros b st.
  - cbn. now rewrite with_events_nil, orb_false_r.
  - cbn [classify classify_events has_unignored_warning_in existsb].
    destruct (is_error_or_warning w l) as [[|] [|]].
    + rewrite bind_run, log_run, IH, with_events_app. reflexivity.
    + rewrite bind_run, log_run, IH, with_events_app. cbn [orb app].
      now rewrite orb_true_r.
    + now rewrite IH.
    + now rewrite IH.
Qed.

Lemma log_each_run (lvl : Level) (ls : list string) (st : State) :
  log_each lvl ls st
  = (with_events st (List.map (fun l => ELog lvl (MsgLine l)) ls), inr tt).
Proof.
  revert st. induction ls as [|l ls IH]; intros st.
  - cbn. now rewrite with_events_nil.
  - cbn [log_each List.map]. rewrite bind_run, log_run, IH, with_events_app.
    reflexivity.
Qed.

Lemma diagnose_run (w : World) (name : string) (err : option Exn) (st : State) :
  diagnose w name err st
  = (with_events st
       (classify_events w (log_lines (st_log st))
        ++ match err with
           | Some _ => last_lines_events name (log_lines (st_log st))
           | None => []
           end),
     inr (has_unignored_warning_in w (log_lines (st_log st)))).
Proof.
  unfold diagnose. rewrite bind_run. cbn [read_log].
  rewrite bind_run, classify_run. cbn [orb].
  rewrite bind_run. destruct err as [e|].
  - rewrite bool_decide_eq_true_2 by eauto. cbn [when].
    rewrite bind_run, log_run, log_each_run, !with_events_app. reflexivity.
  - rewrite bool_decide_eq_false_2 by (intros [? [=]]). cbn [when].
    now rewrite app_nil_r.
Qed.

Lemma remove_temp_log_run (name : string) (keep : bool) (err : option Exn) (st : State) :
  remove_temp_log name keep err st
  = (with_events st
       (if negb keep && negb (bool_decide (is_Some err))
        then remove_events name else []),
     inr tt).
Proof.
  unfold remove_temp_log. destruct (negb keep && _); cbn [when].
  - rewrite bind_run, emit_run, log_run, with_events_app. reflexivity.
  - now rewrite with_events_nil.
Qed.

Lemma size_report_not_built (w : World) (h : Host) (st : State) :
  size_report w h false st = (st, inr tt).
Proof.
  unfold size_report. rewrite bind_run. cbn [get_app].
  destruct (size_json_path w (st_app st)); reflexivity.
Qed.

Lemma clean_build_dir_run (w : World) (st : State) :
  clean_build_dir w st = (with_events st (clean_events w (st_app st)), inr tt).
Proof.
  unfold clean_build_dir, clean_events. rewrite bind_run. cbn [get_app].
  destruct (preserve (st_app st)); cbn [negb when].
  - now rewrite with_events_nil.
  - rewrite bind_run, log_run, emit_run, with_events_app. reflexivity.
Qed.

(** *** Computations that extend the trace *)

Lemma extending_ret {A} (x : A) : extending (mret x).
Proof. intros st. exists []. cbn. now rewrite app_nil_r. Qed.

Lemma extending_raise {A} (e : Exn) : extending (@raise A e).
Proof. intros st. exists []. cbn. now rewrite app_nil_r. Qed.

Lemma extending_quiet {A} (m : M A) : quiet m -> extending m.
Proof. intros H st. destruct (H st) as (evs & x & ->). now exists evs. Qed.

Lemma extending_bind {A B} (m : M A) (f : A -> M B) :
  extending m -> (forall x, extending (f x)) -> extending (m ≫= f).
Proof.
  intros Hm Hf st. destruct (Hm st) as (e1 & E1). rewrite bind_run.
  destruct (m st) as [st' [e|x]]; cbn [fst] in *.
  - now exists e1.
  - destruct (Hf x st') as (e2 & E2). exists (e1 ++ e2).
    now rewrite E2, E1, app_assoc.
Qed.

Lemma extending_when (b : bool) (m : M unit) : extending m -> extending (when b m).
Proof. intros H. destruct b; [exact H|apply extending_ret]. Qed.

Lemma extending_append_log (out : string) : extending (append_log out).
Proof. intros st. exists []. cbn. now rewrite app_nil_r. Qed.

Lemma extending_subprocess_run
  (h : Host) (cmd : list string) (env : list (string * string)) (cwd : option string)
  (lt : bool) (sink : Sink) :
  extending (subprocess_run h cmd env cwd lt sink).
Proof.
  unfold subprocess_run.
  apply extending_bind; [apply extending_quiet, quiet_get_trace|intros tr].
  destruct (run_command h tr cmd) as [out rc].
  apply extending_bind; [apply extending_quiet, quiet_emit|intros _].
  apply extending_bind; [apply extending_when, extending_append_log|intros _].
  destruct (rc =? 0); [apply extending_ret|apply extending_raise].
Qed.

Lemma extending_write_size_json (w : World) (h : Host) (p : string) :
  extending (write_size_json w h p).
Proof.
  unfold write_size_json.
  apply extending_bind; [apply extending_quiet, quiet_get_app|intros a].
  apply extending_bind; [apply extending_quiet, quiet_get_trace|intros tr].
  destruct (find_map_file h tr _); [|apply extending_quiet, quiet_log].
  apply extending_bind; [|intros _; apply extending_quiet, quiet_log].
  destruct (idf_version_ge_4_1 h); apply extending_subprocess_run.
Qed.

Lemma extending_size_report (w : World) (h : Host) (b : bool) :
  extending (size_report w h b).
Proof.
  unfold size_report.
  apply extending_bind; [apply extending_quiet, quiet_get_app|intros a].
  destruct (size_json_path w a); [|apply extending_ret].
  apply extending_when, extending_write_size_json.
Qed.

Lemma extending_conclude (err : option Exn) (hw b : bool) :
  extending (conclude err hw b).
Proof.
  unfold conclude.
  apply extending_bind; [apply extending_quiet, quiet_get_app|intros a].
  destruct err; [apply extending_raise|].
  destruct (check_warnings a && hw); [apply extending_raise|].
  apply extending_bind; [|intros _; apply extending_ret].
  destruct hw; apply extending_quiet, quiet_log.
Qed.

Lemma extending_closing (w : World) (h : Host) (err : option Exn) (hw b : bool) :
  extending (size_report w h b;; clean_build_dir w;; conclude err hw b).
Proof.
  apply extending_bind; [apply extending_size_report|intros _].
  apply extending_bind; [|intros _; apply extending_conclude].
  intros st. rewrite clean_build_dir_run. now eexists.
Qed.

(** *** [build] without a configured log path, phase by phase *)

Lemma after_build_error
  (w : World) (h : Host) (name : string) (e : Exn) (st : State) :
  after_build w h name false (inl e) st
  = (with_events st
       (classify_events w (log_lines (st_log st))
        ++ last_lines_events name (log_lines (st_log st))
        ++ clean_events w (st_app st)),
     inl e).
Proof.
  unfold after_build.
  rewrite bind_run, diagnose_run.
  rewrite bind_run, remove_temp_log_run.
  rewrite bool_decide_eq_true_2 by eauto. cbn [negb andb].
  rewrite with_events_nil.
  rewrite bind_run, size_report_not_built.
  rewrite bind_run, clean_build_dir_run.
  unfold conclude. rewrite bind_run. cbn [get_app raise].
  rewrite with_events_app, <- app_assoc. reflexivity.
Qed.

Lemma after_build_returned
  (w : World) (h : Host) (name : string) (b : bool) (st : State) :
  after_build w h name false (inr b) st
  = (size_report w h b;; clean_build_dir w;;
     conclude None (has_unignored_warning_in w (log_lines (st_log st))) b)
      (with_events st
         (classify_events w (log_lines (st_log st)) ++ remove_events name)).
Proof.
  unfold after_build.
  rewrite bind_run, diagnose_run.
  rewrite bind_run, remove_temp_log_run.
  rewrite bool_decide_eq_false_2 by (intros [? [=]]). cbn [negb andb].
  rewrite app_nil_r, with_events_app. reflexivity.
Qed.

Lemma open_log_temp (w : World) (h : Host) (st : State) :
  build_log_path w (st_app st) = None ->
  open_log w h st = (temp_log_opened h st, inr (temp_name h (st_trace st), false)).
Proof.
  intros H. unfold open_log. rewrite bind_run. cbn [get_app].
  rewrite bind_run. cbn [get_trace]. rewrite H. reflexivity.
Qed.

Lemma guarded_run
  (bm : BuildArgs -> M bool) (args : BuildArgs) (name : string)
  (st st3 : State) (r : Exn + bool) :
  bm args st = (st3, r) ->
  finally (try_build (bm args)) (emit (ECloseLog name)) st
  = (with_events st3 [ECloseLog name],
     match r with
     | inl (BuildError msg) => inr (inl (BuildError msg))
     | inl (OtherError msg) => inl (OtherError msg)
     | inr b => inr (inr b)
     end).
Proof.
  intros H. unfold finally, try_build. rewrite H.
  destruct r as [[msg|msg]|b]; reflexivity.
Qed.

Lemma build_with_temp_log
  (w : World) (h : Host) (bm : BuildArgs -> M bool)
  (root : option string) (mc mf : option StrOrList) (chk : bool)
  (st st1 st3 : State) (r : Exn + bool) :
  dry_run (st_app st) = false ->
  build_log_path w (st_app st) = None ->
  fst (prepare w h st) = st1 ->
  bm (mkBuildArgs root (to_list mc) (to_list mf) chk) (temp_log_opened h st1) = (st3, r) ->
  build_with w h bm root mc mf chk st
  = match r with
    | inl (OtherError msg) =>
        (with_events st3 [ECloseLog (temp_name h (st_trace st1))], inl (OtherError msg))
    | inl (BuildError msg) =>
        after_build w h (temp_name h (st_trace st1)) false (inl (BuildError msg))
          (with_events st3 [ECloseLog (temp_name h (st_trace st1))])
    | inr b =>
        after_build w h (temp_name h (st_trace st1)) false (inr b)
          (with_events st3 [ECloseLog (temp_name h (st_trace st1))])
    end.
Proof.
  intros Hdry Hlog Hprep Hbm.
  destruct (prepare_quiet w h st) as (evs & [] & Eprep).
  rewrite Eprep in Hprep. cbn [fst] in Hprep. subst st1.
  unfold build_with. rewrite bind_run, Eprep.
  rewrite bind_run. cbn [get_app with_events st_app]. rewrite Hdry.
  unfold run_and_report.
  rewrite bind_run, open_log_temp by exact Hlog. cbv beta iota.
  rewrite bind_run, (guarded_run _ _ _ _ _ _ Hbm).
  destruct r as [[msg|msg]|b]; reflexivity.
Qed.

(** *** Events that remove no file *)

Lemma no_unlink_nil : no_unlink [].
Proof. intros p []. Qed.

Lemma no_unlink_app (e1 e2 : list Event) :
  no_unlink e1 -> no_unlink e2 -> no_unlink (e1 ++ e2).
Proof. intros H1 H2 p H. apply in_app_or in H as [H|H]; [exact (H1 p H)|exact (H2 p H)]. Qed.

Lemma no_unlink_classify (w : World) (ls : list string) :
  no_unlink (classify_events w ls).
Proof.
  induction ls as [|l ls IH]; [apply no_unlink_nil|].
  cbn [classify_events]. destruct (is_error_or_warning w l) as [[|] [|]];
    try exact IH; intros p [H|H]; (discriminate H || exact (IH p H)).
Qed.

Lemma no_unlink_last_lines (name : string) (ls : list string) :
  no_unlink (last_lines_events name ls).
Proof.
  intros p [H|H]; [discriminate H|].
  apply in_map_iff in H as (l & H & _). discriminate H.
Qed.

Lemma no_unlink_clean (w : World) (a : App) : no_unlink (clean_events w a).
Proof.
  unfold clean_events. destruct (preserve a); [apply no_unlink_nil|].
  intros p [H|[H|[]]]; discriminate H.
Qed.

(** After a build error and without configured log path: the outcome of
    [build] and the events that follow [_build]. *)
Lemma build_error_outcome
  (w : World) (h : Host) (bm : BuildArgs -> M bool)
  (root : option string) (mc mf : option StrOrList) (chk : bool)
  (st st1 st3 : State) (msg : string) :
  dry_run (st_app st) = false ->
  build_log_path w (st_app st) = None ->
  fst (prepare w h st) = st1 ->
  bm (mkBuildArgs root (to_list mc) (to_list mf) chk) (temp_log_opened h st1)
  = (st3, inl (BuildError msg)) ->
  let tmp := temp_name h (st_trace st1) in
  let lines := log_lines (st_log st3) in
  let after :=
    ECloseLog tmp :: classify_events w lines
      ++ last_lines_events tmp lines ++ clean_events w (st_app st3) in
  build_with w h bm root mc mf chk st = (with_events st3 after, inl (BuildError msg)) /\
  no_unlink after.
Proof.
  intros Hdry Hlog Hprep Hbm tmp lines after. split.
  - rewrite (build_with_temp_log w h bm root mc mf chk st st1 st3 _ Hdry Hlog Hprep Hbm).
    rewrite after_build_error, with_events_app. reflexivity.
  - subst after. apply (no_unlink_app [ECloseLog tmp]).
    + intros p [H|[]]. discriminate H.
    + apply no_unlink_app; [apply no_unlink_classify|].
      apply no_unlink_app; [apply no_unlink_last_lines|apply no_unlink_clean].
Qed.

(** C9.  [build] runs for real (no dry run) and no log path is
    configured; [_build] starts with the temporary log file created and
    empty, and ends in state [st3] with result [r].
    - When [_build] raised a build error, [build] closes the log,
      classifies its lines, reports the last 25 of them at error level,
      cleans the build directory if asked to, and ends with the build
      error it caught; none of the events after [_build] removes a file,
      so the temporary log stays.
    - When [_build] raised any other exception, [build] closes the log
      and lets the exception through at once.
    - When [_build] returned, [build] closes the log, classifies its
      lines and removes the temporary log before anything else. *)
Theorem temp_log_kept_after_build_error
  (w : World) (h : Host) (bm : BuildArgs -> M bool)
  (root : option string) (mc mf : option StrOrList) (chk : bool)
  (st st1 st3 : State) (r : Exn + bool) :
  dry_run (st_app st) = false ->
  build_log_path w (st_app st) = None ->
  fst (prepare w h st) = st1 ->
  bm (mkBuildArgs root (to_list mc) (to_list mf) chk) (temp_log_opened h st1) = (st3, r) ->
  let tmp := temp_name h (st_trace st1) in
  let lines := log_lines (st_log st3) in
  match r with
  | inl (BuildError msg) =>
      let after :=
        ECloseLog tmp :: classify_events w lines
          ++ last_lines_events tmp lines ++ clean_events w (st_app st3) in
      build_with w h bm root mc mf chk st
      = (with_events st3 after, inl (BuildError msg)) /\
      no_unlink after /\
      last_lines_events tmp lines
      = ELog LError (MsgLastLines 25 tmp)
        :: List.map (fun l => ELog LError (MsgLine l))
             (List.skipn (length lines - 25) lines)
  | inl (OtherError msg) =>
      build_with w h bm root mc mf chk st
      = (with_events st3 [ECloseLog tmp], inl (OtherError msg))
  | inr b =>
      exists rest,
        st_trace (fst (build_with w h bm root mc mf chk st))
        = st_trace st3
          ++ ECloseLog tmp :: classify_events w lines ++ remove_events tmp ++ rest
  end.
Proof.
  intros Hdry Hlog Hprep Hbm tmp lines.
  destruct r as [[msg|msg]|b].
  - destruct (build_error_outcome w h bm root mc mf chk st st1 st3 msg
                Hdry Hlog Hprep Hbm) as [H1 H2].
    split; [exact H1|]. split; [exact H2|reflexivity].
  - now rewrite (build_with_temp_log w h bm root mc mf chk st st1 st3 _
                   Hdry Hlog Hprep Hbm).
  - rewrite (build_with_temp_log w h bm root mc mf chk st st1 st3 _
               Hdry Hlog Hprep Hbm).
    rewrite after_build_returned, with_events_app.
    destruct (extending_closing w h None
                (has_unignored_warning_in w
                   (log_lines (st_log (with_events st3 [ECloseLog tmp])))) b
                (with_events st3
                   ([ECloseLog tmp]
                    ++ classify_events w
                         (log_lines (st_log (with_events st3 [ECloseLog tmp])))
                    ++ remove_events tmp))) as (rest & E).
    exists rest. etransitivity; [exact E|].
    cbn [with_events st_trace st_log]. rewrite <- !app_assoc. reflexivity.
Qed.

Lemma temp_log_kept_after_build_error_witness :
  let h := sample_host error_output 2 in
  let st := initial_state app_strict in
  (dry_run (st_app st) = false /\ build_log_path w_plain (st_app st) = None) /\
  snd (build w_plain h None None None false st)
  = inl (BuildError "Command returned non-zero exit status 2") /\
  no_unlink
    (ECloseLog "/tmp/tmplog"
     :: [ELog LWarning (MsgLine "main.c:3: error: undefined reference")]
     ++ [ELog LError (MsgLastLines 25 "/tmp/tmplog");
         ELog LError (MsgLine "main.c:3: error: undefined reference")]
     ++ []).
Proof.
  intros h st. split; [split; reflexivity|].
  pose proof (temp_log_kept_after_build_error w_plain h (_build w_plain h)
                None None None false st
                (fst (prepare w_plain h st))
                (fst (_build w_plain h (mkBuildArgs None None None false)
                        (temp_log_opened h (fst (prepare w_plain h st)))))
                (inl (BuildError "Command returned non-zero exit status 2"))
                eq_refl eq_refl eq_refl) as H.
  cbv zeta in H. destruct H as (H1 & H2 & _); [vm_compute; reflexivity|].
  split; [unfold build; now rewrite H1|].
  exact H2.
Defined.

Lemma closing_policy_error
  (w : World) (h : Host) (b : bool) (s st5 : State) (hw : bool) :
  size_report w h b s = (st5, inr tt) ->
  check_warnings (st_app st5) = true ->
  hw = true ->
  (size_report w h b;; clean_build_dir w;; conclude None hw b) s
  = (with_events st5 (clean_events w (st_app st5)),
     inl (BuildError "Build succeeded with warnings")).
Proof.
  intros Hsize Hcw ->. rewrite bind_run, Hsize.
  rewrite bind_run, clean_build_dir_run.
  unfold conclude. rewrite bind_run. cbn [get_app with_events st_app].
  now rewrite Hcw.
Qed.

(** C10.  [build] runs for real and no log path is configured.  When
    [_build] returned, the size report ended normally, [check_warnings]
    is set and the log holds a warning that is not ignored, then [build]
    ends with the build error [Build succeeded with warnings], and the
    trace it leaves shows the removal of the temporary log right after
    the classification of its lines, before the size report and the
    cleaning.  When [_build] raised a build error, no event after
    [_build] removes a file. *)
Theorem temp_log_removed_before_policy_error
  (w : World) (h : Host) (bm : BuildArgs -> M bool)
  (root : option string) (mc mf : option StrOrList) (chk : bool)
  (st st1 st3 : State) :
  dry_run (st_app st) = false ->
  build_log_path w (st_app st) = None ->
  fst (prepare w h st) = st1 ->
  let args := mkBuildArgs root (to_list mc) (to_list mf) chk in
  let tmp := temp_name h (st_trace st1) in
  let lines := log_lines (st_log st3) in
  (forall (b : bool) (st5 : State),
      bm args (temp_log_opened h st1) = (st3, inr b) ->
      size_report w h b
        (with_events st3 (ECloseLog tmp :: classify_events w lines ++ remove_events tmp))
      = (st5, inr tt) ->
      check_warnings (st_app st5) = true ->
      has_unignored_warning_in w lines = true ->
      build_with w h bm root mc mf chk st
      = (with_events st5 (clean_events w (st_app st5)),
         inl (BuildError "Build succeeded with warnings")) /\
      exists rest,
        st_trace st5
        = st_trace st3
          ++ ECloseLog tmp :: classify_events w lines ++ remove_events tmp ++ rest) /\
  (forall msg : string,
      bm args (temp_log_opened h st1) = (st3, inl (BuildError msg)) ->
      let after :=
        ECloseLog tmp :: classify_events w lines
          ++ last_lines_events tmp lines ++ clean_events w (st_app st3) in
      build_with w h bm root mc mf chk st
      = (with_events st3 after, inl (BuildError msg)) /\
      no_unlink after).
Proof.
  intros Hdry Hlog Hprep args tmp lines. split.
  - intros b st5 Hbm Hsize Hcw Hwarn.
    rewrite (build_with_temp_log w h bm root mc mf chk st st1 st3 _
               Hdry Hlog Hprep Hbm).
    rewrite after_build_returned, with_events_app.
    split.
    + exact (closing_policy_error w h b _ st5 _ Hsize Hcw Hwarn).
    + destruct (extending_size_report w h b
                  (with_events st3
                     (ECloseLog tmp :: classify_events w lines ++ remove_events tmp)))
        as (rest & E).
      rewrite Hsize in E. cbn [fst with_events st_trace] in E.
      exists rest. rewrite E. rewrite <- !app_assoc. cbn [app].
      now rewrite <- !app_assoc.
  - intros msg Hbm.
    exact (build_error_outcome w h bm root mc mf chk st st1 st3 msg Hdry Hlog Hprep Hbm).
Qed.

Lemma temp_log_removed_before_policy_error_witness :
  let h := sample_host warning_output 0 in
  let st := initial_state app_strict in
  (dry_run (st_app st) = false /\ build_log_path w_plain (st_app st) = None) /\
  snd (build w_plain h None None None false st)
  = inl (BuildError "Build succeeded with warnings") /\
  In (EUnlink "/tmp/tmplog") (st_trace (fst (build w_plain h None None None false st))).
Proof.
  intros h st. split; [split; reflexivity|].
  destruct (proj1 (temp_log_removed_before_policy_error w_plain h (_build w_plain h)
                     None None None false st
                     (fst (prepare w_plain h st))
                     (fst (_build w_plain h (mkBuildArgs None None None false)
                             (temp_log_opened h (fst (prepare w_plain h st)))))
                     eq_refl eq_refl eq_refl)
              true
              (fst (size_report w_plain h true
                      (with_events
                         (fst (_build w_plain h (mkBuildArgs None None None false)
                                 (temp_log_opened h (fst (prepare w_plain h st)))))
                         (ECloseLog "/tmp/tmplog"
                          :: classify_events w_plain
                               (log_lines
                                  (st_log
                                     (fst (_build w_plain h
                                             (mkBuildArgs None None None false)
                                             (temp_log_opened h
                                                (fst (prepare w_plain h st)))))))
                          ++ remove_events "/tmp/tmplog")))))
    as (H1 & H2); try (vm_compute; reflexivity).
  unfold build. rewrite H1. split; [reflexivity|].
  vm_compute. tauto.
Defined.

End Lifecycle_claims.

(** ** The decision across [check_should_build] and [_build] *)

Section Sticky_decision.
Import PyStr Decision Decision_spec Lifecycle Samples.

Lemma subprocess_run_app
  (h : Host) (cmd : list string) (env : list (string * string)) (cwd : option string)
  (lt : bool) (sink : Sink) (st : State) :
  st_app (fst (subprocess_run h cmd env cwd lt sink st)) = st_app st.
Proof.
  unfold subprocess_run. rewrite bind_run. cbn [get_trace].
  destruct (run_command h (st_trace st) cmd) as [out rc].
  rewrite bind_run, emit_run, bind_run.
  destruct (bool_decide (sink = ToBuildLog)); cbn [when append_log mret M_ret];
    destruct (rc =? 0); reflexivity.
Qed.

Lemma make_build_app (w : World) (h : Host) (args : BuildArgs) (st : State) :
  st_app (fst (make_build w h args st)) = st_app st.
Proof.
  unfold make_build. rewrite bind_run. cbn [get_app].
  rewrite bind_run.
  pose proof (subprocess_run_app h ["make"; "defconfig"]
                [("IDF_TARGET", target (st_app st));
                 ("BUILD_DIR_BASE", PathTemplate.build_path w (st_app st))]
                (Some (PathTemplate.work_dir w (st_app st)))
                (log_terminal_of w (st_app st)) ToBuildLog st) as H1.
  destruct (subprocess_run _ _ _ _ _ _ st) as [st1 [e|[]]]; cbn [fst] in *;
    [exact H1|].
  rewrite bind_run.
  match goal with
  | |- context [subprocess_run ?h ?c ?e ?d ?l ?k st1] =>
      pose proof (subprocess_run_app h c e d l k st1) as H2;
      destruct (subprocess_run h c e d l k st1) as [st2 [e2|[]]]
  end; cbn [fst mret M_ret] in *; congruence.
Qed.

Lemma cmake_resolve_decision_step
  (w : World) (h : Host) (args : BuildArgs) (st : State) :
  decision_step (st_app st) (st_app (fst (cmake_resolve_decision w h args st))).
Proof.
  unfold cmake_resolve_decision. rewrite bind_run. cbn [get_app].
  rewrite bind_run.
  set (a1 := if _checked_should_build (st_app st) then st_app st
             else check_should_build w (st_app st) (manifest_rootpath args)
                    (check_app_dependencies args)
                    (PyListArg <$> modified_components args)
                    (PyListArg <$> modified_files args)).
  assert (Hstep : decision_step (st_app st) a1).
  { subst a1. destruct (_checked_should_build (st_app st));
      [apply decision_step_refl|apply check_should_build_step]. }
  assert (E : when (negb (_checked_should_build (st_app st)))
                (put_app
                   (check_should_build w (st_app st) (manifest_rootpath args)
                      (check_app_dependencies args)
                      (PyListArg <$> modified_components args)
                      (PyListArg <$> modified_files args))) st
              = (mkState a1 (st_log st) (st_trace st), inr tt)).
  { subst a1. destruct (_checked_should_build (st_app st)); [|reflexivity].
    destruct st; reflexivity. }
  rewrite E. clear E. rewrite bind_run. cbn [get_app st_app].
  destruct (modified_components args) as [mc|];
    [|cbn [mret M_ret fst st_app]; exact Hstep].
  destruct (check_app_dependencies args && bool_decide (should_build a1 = UNKNOWN)) eqn:Hc;
    [|cbn [mret M_ret fst st_app]; exact Hstep].
  apply andb_true_iff in Hc as [_ Hu]. apply bool_decide_eq_true in Hu.
  rewrite bind_run.
  match goal with
  | |- context [subprocess_run ?h ?c ?e ?d ?l ?k ?s] =>
      pose proof (subprocess_run_app h c e d l k s) as H2;
      destruct (subprocess_run h c e d l k s) as [st2 [e2|[]]]
  end; cbn [fst st_app] in *.
  - now rewrite H2.
  - rewrite bind_run. cbn [get_trace].
    destruct (negb (set_inter_nonempty mc _)).
    + rewrite bind_run, log_run. cbn [mret M_ret fst with_events st_app].
      now rewrite H2.
    + rewrite bind_run. cbn [put_app mret M_ret fst st_app].
      apply (decision_step_trans _ a1); [exact Hstep|].
      right. split; [exact Hu|now left].
Qed.

Lemma cmake_build_step (w : World) (h : Host) (args : BuildArgs) (st : State) :
  decision_step (st_app st) (st_app (fst (cmake_build w h args st))).
Proof.
  unfold cmake_build. rewrite bind_run.
  pose proof (cmake_resolve_decision_step w h args st) as H1.
  destruct (cmake_resolve_decision w h args st) as [st1 [e|proceed]];
    cbn [fst] in *; [exact H1|].
  destruct proceed; cbn [negb mret M_ret fst]; [|exact H1].
  rewrite bind_run. cbn [get_app].
  destruct (bool_decide (should_build (st_app st1) = NO)).
  - rewrite bind_run, log_run. cbn [mret M_ret fst with_events st_app]. exact H1.
  - rewrite bind_run.
    match goal with
    | |- context [subprocess_run ?h ?c ?e ?d ?l ?k ?s] =>
        pose proof (subprocess_run_app h c e d l k s) as H2;
        destruct (subprocess_run h c e d l k s) as [st2 [e2|[]]]
    end; cbn [fst mret M_ret] in *; now rewrite H2.
Qed.

Lemma build_method_step (w : World) (h : Host) (args : BuildArgs) (st : State) :
  decision_step (st_app st) (st_app (fst (_build w h args st))).
Proof.
  unfold _build. rewrite bind_run. cbn [get_app].
  destruct (build_system (st_app st)).
  - rewrite make_build_app. apply decision_step_refl.
  - apply cmake_build_step.
Qed.

(** C2.  A call of [check_should_build] on an App whose decision is
    [YES] or [NO] returns the App as it was, whatever the arguments.  A
    call changes [should_build] only from [UNKNOWN], and then to [YES] or
    to [NO]; along any sequence of calls the value changes at most
    once.  The [_build] method of either variant, the other place where
    [should_build] is assigned, changes it in the same way only. *)
Theorem should_build_sticky :
  (forall (w : World) (a : App) (root : option string) (chk : bool)
          (mc mf : option StrOrList),
      should_build a <> UNKNOWN ->
      check_should_build w a root chk mc mf = a) /\
  (forall (w : World) (a : App) (root : option string) (chk : bool)
          (mc mf : option StrOrList),
      should_build (check_should_build w a root chk mc mf) = should_build a \/
      (should_build a = UNKNOWN /\
       (should_build (check_should_build w a root chk mc mf) = YES \/
        should_build (check_should_build w a root chk mc mf) = NO))) /\
  (forall (w : World) (a : App) (calls : list Call),
      (changes (history w a calls) <= 1)%nat) /\
  (forall (w : World) (h : Host) (args : BuildArgs) (st : State),
      decision_step (st_app st) (st_app (fst (_build w h args st)))).
Proof.
  split; [|split; [|split]].
  - intros w a root chk mc mf H.
    exact (decided_stays w a (mkCall root chk mc mf) H).
  - exact check_should_build_step.
  - exact at_most_one_change.
  - exact build_method_step.
Qed.

Lemma should_build_sticky_witness :
  should_build (set_should_build NO app_proj) <> UNKNOWN /\
  check_should_build w_plain (set_should_build NO app_proj) None false None
    (Some (PyListArg ["proj/main.c"]))
  = set_should_build NO app_proj.
Proof.
  split; [discriminate|].
  apply (proj1 should_build_sticky); discriminate.
Defined.

End Sticky_decision.

(** ** More about the sdkconfig pipeline *)

Section Sdkconfig_more.
Import PyStr OsPath PathTemplate Sdkconfig Sdkconfig_spec Extra_spec PyStr_facts
  Template_facts Samples.

Lemma rev_app_app (s1 s2 : string) : String.rev_app s1 s2 = String.rev s1 +:+ s2.
Proof.
  unfold String.rev. revert s2. induction s1 as [|c s1 IH]; intros s2; [reflexivity|].
  cbn [String.rev_app]. rewrite IH, (IH (String c EmptyString)).
  now rewrite PyStr_facts.app_assoc.
Qed.

Lemma rev_cons (c : ascii) (s : string) :
  String.rev (String c s) = String.rev s +:+ String c EmptyString.
Proof. unfold String.rev at 1. cbn [String.rev_app]. apply rev_app_app. Qed.

Lemma concat_lines_go (cur s : string) :
  concat (lines_go cur s) = String.rev cur +:+ s.
Proof.
  revert cur. induction s as [|c s IH]; intros cur.
  - destruct cur; [reflexivity|]. cbn [lines_go concat foldr].
    reflexivity.
  - cbn [lines_go]. destruct (Ascii.eqb c "010").
    + cbn [concat foldr]. fold (concat (lines_go EmptyString s)).
      rewrite IH, rev_cons, PyStr_facts.app_assoc. reflexivity.
    + rewrite IH, rev_cons, PyStr_facts.app_assoc. reflexivity.
Qed.

(** Writing the lines of a file one after the other gives the text that
    reading the file gives. *)
Lemma concat_lines (s : string) : concat (lines s) = read_text s.
Proof. unfold lines. now rewrite concat_lines_go. Qed.

Lemma contains_char_cons (c d : ascii) (s : string) :
  contains (String c EmptyString) (String d s)
  = Ascii.eqb c d || contains (String c EmptyString) s.
Proof.
  rewrite contains_cons. cbn [startswith]. now destruct (Ascii.eqb c d).
Qed.

Lemma contains_char_app (c : ascii) (x y : string) :
  contains (String c EmptyString) (x +:+ y)
  = contains (String c EmptyString) x || contains (String c EmptyString) y.
Proof.
  induction x as [|d x IH]; [reflexivity|].
  rewrite app_cons, !contains_char_cons, IH. now rewrite orb_assoc.
Qed.

Lemma lines_go_free (c : ascii) (cur s : string) :
  contains (String c EmptyString) (String.rev cur) = false ->
  contains (String c EmptyString) s = false ->
  Forall (fun l => contains (String c EmptyString) l = false) (lines_go cur s).
Proof.
  revert cur. induction s as [|d s IH]; intros cur Hcur Hs.
  - cbn [lines_go]. destruct cur; constructor; [exact Hcur|constructor].
  - rewrite contains_char_cons in Hs. apply orb_false_iff in Hs as [Hd Hs].
    assert (Hcur' : contains (String c EmptyString) (String.rev (String d cur)) = false).
    { rewrite rev_cons, contains_char_app, Hcur, contains_char_cons, Hd. reflexivity. }
    cbn [lines_go]. destruct (Ascii.eqb d "010").
    + constructor; [exact Hcur'|]. now apply IH.
    + now apply IH.
Qed.

Lemma map_expandvars_free (env : string -> option string) (ls : list string) :
  Forall (fun l => contains "$" l = false) ls -> List.map (expandvars env) ls = ls.
Proof.
  induction 1 as [|l ls Hl _ IH]; [reflexivity|].
  cbn [List.map]. now rewrite IH, expandvars_no_dollar.
Qed.

Lemma filter_all {A} (p : A -> bool) (l : list A) :
  forallb p l = true -> List.filter p l = l.
Proof.
  induction l as [|x l IH]; [reflexivity|]. cbn [forallb List.filter].
  intros H. apply andb_true_iff in H as [H1 H2]. now rewrite H1, IH.
Qed.

Lemma process_line_vars_unrouted
  (w : World) (bs : BuildSystem) (st : LineState) (line : string) :
  routed (expandvars (environ w) line) = false ->
  ls_vars (fst (process_line w bs st line)) = ls_vars st.
Proof.
  unfold routed, process_line.
  destruct (SDKCONFIG_LINE_REGEX_match _) as [[k v]|]; [|now destruct bs].
  intros H. apply orb_false_iff in H as [H1 H2].
  destruct bs; [|rewrite H1, H2]; destruct (String.eqb k "CONFIG_IDF_TARGET"); reflexivity.
Qed.

Lemma process_lines_unrouted
  (w : World) (bs : BuildSystem) (st : LineState) (ls : list string) :
  forallb (fun l => negb (routed (expandvars (environ w) l))) ls = true ->
  snd (process_lines w bs st ls) = List.map (expandvars (environ w)) ls /\
  ls_vars (fst (process_lines w bs st ls)) = ls_vars st.
Proof.
  revert st. induction ls as [|l ls IH]; intros st H; [now split|].
  cbn [forallb] in H. apply andb_true_iff in H as [H1 H2].
  apply negb_true_iff in H1.
  rewrite process_lines_cons. cbn [fst snd List.map].
  destruct (IH (fst (process_line w bs st l)) H2) as [IH1 IH2].
  rewrite IH1, IH2, process_line_output, H1.
  rewrite (process_line_vars_unrouted w bs st l H1).
  split; [now destruct bs|reflexivity].
Qed.

(** *** Universal newlines *)

Lemma string_ind2 (P : string -> Prop) :
  P EmptyString ->
  (forall c, P (String c EmptyString)) ->
  (forall c d s, P s -> P (String d s) -> P (String c (String d s))) ->
  forall s, P s.
Proof.
  intros H0 H1 H2.
  assert (H : forall s, P s /\ forall c, P (String c s)).
  { induction s as [|d s [IH1 IH2]].
    - split; [exact H0|exact H1].
    - split; [apply IH2|]. intros c. apply H2; [exact IH1|apply IH2]. }
  intros s. apply H.
Qed.

Lemma universal_newlines_cons (c d : ascii) (s : string) :
  universal_newlines (String c (String d s))
  = if Ascii.eqb c "013"
    then String "010" (if Ascii.eqb d "010" then universal_newlines s
                       else universal_newlines (String d s))
    else String c (universal_newlines (String d s)).
Proof. reflexivity. Qed.

(** A character other than the line feed that is not in a text is not in
    what reading makes of it. *)
Lemma universal_newlines_free (x : ascii) (s : string) :
  Ascii.eqb x "010" = false ->
  contains (String x EmptyString) s = false ->
  contains (String x EmptyString) (universal_newlines s) = false.
Proof.
  intros Hx. induction s as [|c|c d s IH1 IH2] using string_ind2; intros H.
  - reflexivity.
  - cbn [universal_newlines]. rewrite contains_char_cons in H.
    apply orb_false_iff in H as [H _].
    destruct (Ascii.eqb c "013"); rewrite contains_char_cons;
      [now rewrite Hx|now rewrite H].
  - rewrite universal_newlines_cons.
    rewrite contains_char_cons in H. apply orb_false_iff in H as [Hc H].
    pose proof H as H'. rewrite contains_char_cons in H'.
    apply orb_false_iff in H' as [Hd H'].
    destruct (Ascii.eqb c "013").
    + rewrite contains_char_cons, Hx. cbn [orb].
      destruct (Ascii.eqb d "010"); [now apply IH1|now apply IH2].
    + rewrite contains_char_cons, Hc. cbn [orb]. now apply IH2.
Qed.

(** Reading leaves no carriage return, and changes nothing in a text
    without one. *)
Lemma universal_newlines_no_cr (s : string) :
  contains cr (universal_newlines s) = false.
Proof.
  unfold cr. induction s as [|c|c d s IH1 IH2] using string_ind2.
  - reflexivity.
  - cbn [universal_newlines]. destruct (Ascii.eqb c "013") eqn:E; [reflexivity|].
    rewrite contains_char_cons, Ascii.eqb_sym, E. reflexivity.
  - rewrite universal_newlines_cons. destruct (Ascii.eqb c "013") eqn:E.
    + rewrite contains_char_cons. cbn [Ascii.eqb Bool.eqb andb orb].
      destruct (Ascii.eqb d "010"); [exact IH1|exact IH2].
    + rewrite contains_char_cons, Ascii.eqb_sym, E. exact IH2.
Qed.

Lemma universal_newlines_plain (s : string) :
  contains cr s = false -> universal_newlines s = s.
Proof.
  unfold cr. induction s as [|c s IH]; [reflexivity|].
  rewrite contains_char_cons. intros H. apply orb_false_iff in H as [Hc H].
  rewrite Ascii.eqb_sym in Hc.
  destruct s as [|d s].
  - cbn [universal_newlines]. now rewrite Hc.
  - rewrite universal_newlines_cons, Hc. now rewrite IH.
Qed.

Lemma read_text_idem (s : string) : read_text (read_text s) = read_text s.
Proof. apply universal_newlines_plain, universal_newlines_no_cr. Qed.

(** X1.  A candidate file whose text holds no dollar sign and, for the
    CMake variant, no line with a test-option or ignored key, is used as
    it is: the round ends normally, its own path is appended to the
    output list, no file is left at the scratch path, no CMake variable
    is recorded and every other file of the filesystem is as before. *)
Theorem sdkconfig_plain_file_used_as_is
  (w : World) (a : App) (st : PipeState) (f0 c : string) :
  ps_fs st !! resolve_candidate w a f0 = Some c ->
  resolve_candidate w a f0 <> scratch_path w a f0 ->
  contains "$" c = false ->
  build_system a = Make \/ forallb (fun l => negb (routed l)) (lines c) = true ->
  exists st',
    process_file w a st f0 = inr st' /\
    ps_res st' = ps_res st ++ [resolve_candidate w a f0] /\
    ps_fs st' !! scratch_path w a f0 = None /\
    ls_vars (ps_line st') = ls_vars (ps_line st) /\
    (forall p, p <> scratch_path w a f0 -> ps_fs st' !! p = ps_fs st !! p).
Proof.
  intros Hf Hne Hd Hr.
  assert (Hfree : Forall (fun l => contains "$" l = false) (lines c)).
  { apply lines_go_free; [reflexivity|].
    apply universal_newlines_free; [reflexivity|exact Hd]. }
  assert (Hmap : List.map (expandvars (environ w)) (lines c) = lines c)
    by now apply map_expandvars_free.
  assert (Hlines :
            written_lines w (build_system a) (lines c) = lines c /\
            ls_vars (fst (process_lines w (build_system a) (ps_line st) (lines c)))
            = ls_vars (ps_line st)).
  { rewrite <- (process_lines_written w (build_system a) (ps_line st)).
    destruct Hr as [Hm|Hu].
    - rewrite Hm. destruct (process_lines_make w (ps_line st) (lines c)) as [H1 H2].
      now rewrite H1, Hmap.
    - rewrite <- Hmap at 2. apply process_lines_unrouted.
      clear -Hfree Hu. induction Hfree as [|l ls Hl _ IH]; [reflexivity|].
      cbn [forallb] in *. apply andb_true_iff in Hu as [H1 H2].
      rewrite expandvars_no_dollar by exact Hl. now rewrite H1, IH. }
  destruct Hlines as [Hout Hvars].
  rewrite (process_file_present w a st f0 c Hf Hne).
  unfold unchanged, normalized.
  rewrite Hout, concat_lines, read_text_idem, String.eqb_refl.
  eexists. split; [reflexivity|]. cbn [ps_res ps_fs ps_line].
  split; [reflexivity|]. split; [apply lookup_delete_eq|]. split; [exact Hvars|].
  intros p Hp. rewrite lookup_delete_ne by congruence.
  now rewrite !lookup_insert_ne by congruence.
Qed.

Lemma sdkconfig_plain_file_used_as_is_witness :
  let fs : gmap string string :=
    <["proj/sdkconfig.defaults" := "CONFIG_A=y" +:+ nl +:+ "CONFIG_B=n" +:+ nl]> ∅ in
  let st := Sdkconfig.mkPipeState fs (mkLineState None ∅) [] in
  exists st',
    process_file w_plain app_proj st "sdkconfig.defaults" = inr st' /\
    ps_res st' = ["proj/sdkconfig.defaults"] /\
    ps_fs st' !! "proj/expanded_sdkconfig_files/build/sdkconfig.defaults" = None.
Proof.
  intros fs st.
  destruct (sdkconfig_plain_file_used_as_is w_plain app_proj st "sdkconfig.defaults"
              ("CONFIG_A=y" +:+ nl +:+ "CONFIG_B=n" +:+ nl))
    as (st' & E & H1 & H2 & _); [reflexivity|vm_compute; discriminate|reflexivity| |].
  - right. reflexivity.
  - exists st'. split; [exact E|]. split; [exact H1|exact H2].
Defined.

Lemma process_line_target_declared
  (w : World) (bs : BuildSystem) (st : LineState) (line v : string) :
  SDKCONFIG_LINE_REGEX_match (expandvars (environ w) line)
  = Some ("CONFIG_IDF_TARGET", v) ->
  ls_target (fst (process_line w bs st line)) = Some v.
Proof. intros H. unfold process_line. rewrite H. now destruct bs. Qed.

Lemma process_line_target_kept
  (w : World) (bs : BuildSystem) (st : LineState) (line : string) :
  declares_target (expandvars (environ w) line) = false ->
  ls_target (fst (process_line w bs st line)) = ls_target st.
Proof.
  unfold declares_target, process_line.
  destruct (SDKCONFIG_LINE_REGEX_match _) as [[k v]|]; [|now destruct bs].
  intros ->. destruct bs; [reflexivity|].
  destruct (str_in k SDKCONFIG_TEST_OPTS); [reflexivity|].
  now destruct (str_in k SDKCONFIG_IGNORE_OPTS).
Qed.

Lemma process_lines_target_kept
  (w : World) (bs : BuildSystem) (st : LineState) (ls : list string) :
  forallb (fun l => negb (declares_target (expandvars (environ w) l))) ls = true ->
  ls_target (fst (process_lines w bs st ls)) = ls_target st.
Proof.
  revert st. induction ls as [|l ls IH]; intros st H; [reflexivity|].
  cbn [forallb] in H. apply andb_true_iff in H as [H1 H2].
  apply negb_true_iff in H1.
  rewrite process_lines_cons. cbn [fst]. rewrite IH by exact H2.
  now apply process_line_target_kept.
Qed.

(** X2.  The target a file declares is the value of its last
    [CONFIG_IDF_TARGET] line, for either variant and whatever was declared
    before; lines without that key leave the declared target as it is. *)
Theorem declared_target_last_line_wins
  (w : World) (bs : BuildSystem) (st : LineState)
  (before after : list string) (line v : string) :
  SDKCONFIG_LINE_REGEX_match (expandvars (environ w) line)
  = Some ("CONFIG_IDF_TARGET", v) ->
  forallb (fun l => negb (declares_target (expandvars (environ w) l))) after = true ->
  ls_target (fst (process_lines w bs st (before ++ line :: after))) = Some v.
Proof.
  intros Hm Ha. rewrite process_lines_app, process_lines_cons. cbn [fst].
  rewrite process_lines_target_kept by exact Ha.
  now apply process_line_target_declared.
Qed.

Lemma declared_target_last_line_wins_witness :
  ls_target
    (fst (process_lines w_plain CMake (mkLineState None ∅)
            (["CONFIG_IDF_TARGET=esp32" +:+ nl]
             ++ ("CONFIG_IDF_TARGET=" +:+ dq +:+ "esp32s3" +:+ dq +:+ nl)
                :: ["CONFIG_A=y" +:+ nl])))
  = Some "esp32s3".
Proof.
  apply (declared_target_last_line_wins w_plain CMake (mkLineState None ∅)
           ["CONFIG_IDF_TARGET=esp32" +:+ nl] ["CONFIG_A=y" +:+ nl]);
    reflexivity.
Defined.

Lemma run_files_frame
  (w : World) (a : App) (cands : list string) (st : PipeState) (p : string) :
  outside_scratch w a p = true ->
  files_after ps_fs (run_files w a st cands) !! p = ps_fs st !! p.
Proof.
  intros Hp. revert st. induction cands as [|f0 cands IH]; intros st; [reflexivity|].
  cbn [run_files].
  pose proof (process_file_frame w a st f0 p Hp) as H.
  destruct (process_file w a st f0) as [[pat fs'|src fs']|st1]; cbn [files_after] in *;
    [exact H|exact H|]. now rewrite IH.
Qed.

(** X3.  However the method ends, by returning or by an exception of the
    glob or of a copy, it has written and removed files in the scratch
    directory only:
    every path that does not begin with the text of the scratch directory,
    the candidate files outside it among them, holds what it held.  When
    it returns, the directory calls it has made are [os.makedirs] for the
    scratch directory, unless that is a directory already, and the two
    closing [os.rmdir], for the scratch directory and for
    [expanded_sdkconfig_files]; no other directory is removed. *)
Theorem pipeline_leaves_other_files
  (w : World) (a : App) (fs : gmap string string) :
  (forall p, outside_scratch w a p = true ->
             files_left (_process_sdkconfig_files w a fs) !! p = fs !! p) /\
  (forall fs' calls a',
      _process_sdkconfig_files w a fs = inr (fs', calls, a') ->
      calls
      = (if isdir w (expanded_dir w a) then [] else [Makedirs (expanded_dir w a)])
        ++ [Rmdir (expanded_dir w a);
            Rmdir (join (work_dir w a) "expanded_sdkconfig_files")]).
Proof.
  split.
  - intros p Hp. unfold _process_sdkconfig_files, run_pipeline, files_left.
    match goal with
    | |- context [run_files w a ?st ?l] =>
        pose proof (run_files_frame w a l st p Hp) as H;
          destruct (run_files w a st l) as [[pat fs'|src fs']|st']
    end; exact H.
  - intros fs' calls a'. unfold _process_sdkconfig_files.
    destruct (run_pipeline w a fs) as [e|st']; [discriminate|].
    now intros [= _ <- _].
Qed.

Lemma pipeline_leaves_other_files_witness :
  outside_scratch w_plain app_proj "proj/sdkconfig.defaults.esp32" = true /\
  files_left (_process_sdkconfig_files w_plain app_proj sample_fs)
    !! "proj/sdkconfig.defaults.esp32"
  = Some ("CONFIG_B=y" +:+ nl).
Proof.
  split; [reflexivity|].
  rewrite (proj1 (pipeline_leaves_other_files w_plain app_proj sample_fs)
             "proj/sdkconfig.defaults.esp32" eq_refl).
  reflexivity.
Defined.

Lemma find_char_first (c : ascii) (k rest : string) :
  contains (String c EmptyString) k = false ->
  find (String c EmptyString) (k +:+ String c rest) = Z.of_nat (String.length k).
Proof.
  induction k as [|d k IH]; intros H.
  - cbn [String.append find startswith]. rewrite app_nil_l. cbn [find startswith].
    now rewrite Ascii.eqb_refl.
  - rewrite contains_char_cons in H. apply orb_false_iff in H as [Hd Hk].
    rewrite app_cons. cbn [find startswith]. rewrite Hd, (IH Hk).
    replace (Z.of_nat (String.length k) =? -1) with false
      by (symmetry; apply Z.eqb_neq; lia).
    cbn [String.length]. lia.
Qed.

Lemma first_occurrence_free (c : ascii) (pre post : string) :
  find (String c EmptyString) (pre +:+ String c EmptyString +:+ post)
  = Z.of_nat (String.length pre) ->
  contains (String c EmptyString) pre = false.
Proof.
  induction pre as [|d pre IH]; intros H; [reflexivity|].
  rewrite app_cons in H. cbn [String.length] in H.
  apply find_cons_inv in H as [H1 H2].
  cbn [startswith] in H1. rewrite contains_char_cons.
  destruct (Ascii.eqb c d); [discriminate|]. now apply IH.
Qed.

Lemma take_value_free (s : string) :
  contains dq (take_value s) = false /\ contains nl (take_value s) = false.
Proof.
  induction s as [|c s [IH1 IH2]]; [now split|]. cbn [take_value].
  destruct (Ascii.eqb c "034") eqn:E1; [now split|].
  destruct (Ascii.eqb c "010") eqn:E2; [now split|]. cbn [orb].
  unfold dq, nl in *. rewrite !contains_char_cons, IH1, IH2.
  now rewrite (Ascii.eqb_sym "034" c), (Ascii.eqb_sym "010" c), E1, E2.
Qed.

Lemma take_value_stop (v rest : string) :
  contains dq v = false -> contains nl v = false ->
  take_value rest = EmptyString ->
  take_value (v +:+ rest) = v.
Proof.
  intros Hq Hn Hrest. induction v as [|c v IH]; [exact Hrest|].
  unfold dq, nl in *. rewrite contains_char_cons in Hq, Hn.
  apply orb_false_iff in Hq as [Hq1 Hq2]. apply orb_false_iff in Hn as [Hn1 Hn2].
  rewrite app_cons. cbn [take_value].
  rewrite (Ascii.eqb_sym c "034"), Hq1, (Ascii.eqb_sym c "010"), Hn1. cbn [orb].
  now rewrite IH.
Qed.

Lemma skip_quote_free (v rest : string) :
  contains dq v = false -> skip_quote rest = rest ->
  skip_quote (v +:+ rest) = v +:+ rest.
Proof.
  intros Hq Hrest. destruct v as [|c v]; [exact Hrest|].
  unfold dq in Hq. rewrite contains_char_cons in Hq.
  apply orb_false_iff in Hq as [Hq _].
  rewrite app_cons. cbn [skip_quote]. now rewrite (Ascii.eqb_sym c "034"), Hq.
Qed.

Lemma regex_match_after_key (k r : string) :
  truthy k = true -> contains "=" k = false ->
  SDKCONFIG_LINE_REGEX_match (k +:+ "=" +:+ r)
  = if all_newlines
         (skip_quote (drop (String.length (take_value (skip_quote r))) (skip_quote r)))
    then Some (k, take_value (skip_quote r)) else None.
Proof.
  intros Hk He. unfold SDKCONFIG_LINE_REGEX_match.
  change ("=" +:+ r) with (String "=" r).
  rewrite (find_char_first "=" k r He).
  replace (Z.of_nat (String.length k) <=? 0) with false
    by (symmetry; apply Z.leb_gt; destruct k; [discriminate|cbn; lia]).
  unfold slice, slice_from.
  replace (Z.to_nat (Z.of_nat (String.length k) - 0)) with (String.length k) by lia.
  change (Z.to_nat 0) with 0%nat. cbn [drop]. rewrite take_app_length.
  replace (Z.to_nat (Z.of_nat (String.length k) + 1))
    with (String.length (k +:+ "=")) by (rewrite app_length; cbn; lia).
  change (String "=" r) with ("=" +:+ r).
  rewrite <- PyStr_facts.app_assoc, drop_app_length. reflexivity.
Qed.

(** X4.  The line pattern reads back what was written: for a non-empty key
    without equals sign and a value without double quote and newline, the
    lines [key=value], [key=value] with a newline and the quoted form all
    match with that key and that value.  Conversely the key of a match is
    never empty and holds no equals sign, its value holds no double quote
    and no newline, and the line starts with the key and an equals sign. *)
Theorem sdkconfig_line_pattern_round_trip :
  (forall k v : string,
      truthy k = true -> contains "=" k = false ->
      contains dq v = false -> contains nl v = false ->
      SDKCONFIG_LINE_REGEX_match (k +:+ "=" +:+ v) = Some (k, v) /\
      SDKCONFIG_LINE_REGEX_match (k +:+ "=" +:+ v +:+ nl) = Some (k, v) /\
      SDKCONFIG_LINE_REGEX_match (k +:+ "=" +:+ dq +:+ v +:+ dq +:+ nl) = Some (k, v)) /\
  (forall line k v : string,
      SDKCONFIG_LINE_REGEX_match line = Some (k, v) ->
      truthy k = true /\ contains "=" k = false /\
      contains dq v = false /\ contains nl v = false /\
      startswith (k +:+ "=") line = true).
Proof.
  split.
  - intros k v Hk He Hq Hn. repeat split.
    + rewrite <- (app_nil_r v) at 1. rewrite (regex_match_after_key k _ Hk He).
      rewrite skip_quote_free by (exact Hq || reflexivity).
      rewrite take_value_stop by (exact Hq || exact Hn || reflexivity).
      rewrite drop_app_length. reflexivity.
    + rewrite (regex_match_after_key k _ Hk He).
      rewrite skip_quote_free by (exact Hq || reflexivity).
      rewrite take_value_stop by (exact Hq || exact Hn || reflexivity).
      rewrite drop_app_length. reflexivity.
    + rewrite (regex_match_after_key k _ Hk He).
      change (skip_quote (dq +:+ v +:+ dq +:+ nl)) with (v +:+ dq +:+ nl).
      rewrite take_value_stop by (exact Hq || exact Hn || reflexivity).
      rewrite drop_app_length. reflexivity.
  - intros line k v. unfold SDKCONFIG_LINE_REGEX_match.
    destruct (find "=" line <=? 0) eqn:Hpos; [discriminate|].
    apply Z.leb_gt in Hpos.
    destruct (find_split "=" line) as (pre & post & Hline & Hfind); [lia|].
    destruct (all_newlines _); [|discriminate]. intros [= <- <-].
    rewrite Hfind. unfold slice.
    replace (Z.to_nat (Z.of_nat (String.length pre) - 0)) with (String.length pre) by lia.
    change (Z.to_nat 0) with 0%nat. cbn [drop].
    assert (Hpre : truthy pre = true).
    { destruct pre; [cbn [String.length] in Hfind; lia|reflexivity]. }
    destruct (take_value_free
                (skip_quote (slice_from line (Z.of_nat (String.length pre) + 1))))
      as [Hq Hn].
    subst line. rewrite !take_app_length.
    repeat split.
    + exact Hpre.
    + exact (first_occurrence_free "=" pre post Hfind).
    + exact Hq.
    + exact Hn.
    + rewrite <- PyStr_facts.app_assoc. apply startswith_app.
Qed.

Lemma sdkconfig_line_pattern_round_trip_witness :
  (truthy "CONFIG_IDF_TARGET" = true /\ contains "=" "CONFIG_IDF_TARGET" = false /\
   contains dq "esp32" = false /\ contains nl "esp32" = false) /\
  SDKCONFIG_LINE_REGEX_match ("CONFIG_IDF_TARGET" +:+ "=" +:+ dq +:+ "esp32" +:+ dq +:+ nl)
  = Some ("CONFIG_IDF_TARGET", "esp32").
Proof.
  split; [repeat split; reflexivity|].
  apply (proj1 sdkconfig_line_pattern_round_trip "CONFIG_IDF_TARGET" "esp32");
    reflexivity.
Defined.

Lemma process_file_res_length (w : World) (a : App) (st st' : PipeState) (f0 : string) :
  process_file w a st f0 = inr st' ->
  (length (ps_res st') <= S (length (ps_res st)))%nat.
Proof.
  unfold process_file.
  destruct (ps_fs st !! resolve_candidate w a f0); [|intros [= <-]; lia].
  destruct (process_lines _ _ _ _) as [ls out].
  destruct (String.eqb _ _).
  - intros [= <-]. cbn [ps_res]. rewrite length_app. cbn. lia.
  - destruct (target_specific_files _ _ _ _); [|discriminate].
    destruct (copy_all _ _ _); [discriminate|].
    intros [= <-]. cbn [ps_res]. rewrite length_app. cbn. lia.
Qed.

Lemma run_files_res_length
  (w : World) (a : App) (cands : list string) (st st' : PipeState) :
  run_files w a st cands = inr st' ->
  (length (ps_res st') <= length (ps_res st) + length cands)%nat.
Proof.
  revert st. induction cands as [|f0 cands IH]; intros st.
  - intros [= <-]. lia.
  - cbn [run_files]. destruct (process_file w a st f0) as [e|st1] eqn:E; [discriminate|].
    intros H. apply IH in H. apply process_file_res_length in E. cbn [length]. lia.
Qed.

Lemma run_files_missing (w : World) (a : App) (cands : list string) (st : PipeState) :
  (forall f0, In f0 cands -> ps_fs st !! resolve_candidate w a f0 = None) ->
  run_files w a st cands = inr st.
Proof.
  induction cands as [|f0 cands IH]; intros H; [reflexivity|].
  cbn [run_files]. unfold process_file. rewrite (H f0 (or_introl eq_refl)).
  apply IH. intros x Hx. apply H. now right.
Qed.

(** X5.  When the method returns, the output list holds no more paths
    than there are candidates.  When none of the candidates is a file the
    method returns, no file is written or removed, the output list is
    empty and the declared target and the CMake variables are those the
    App had; the scratch directory is created all the same when it is
    missing, with its missing ancestors, and the two closing [os.rmdir]
    are called for the two scratch levels only. *)
Theorem pipeline_output_bounded :
  (forall (w : World) (a : App) (fs fs' : gmap string string)
          (calls : list DirCall) (a' : App),
      _process_sdkconfig_files w a fs = inr (fs', calls, a') ->
      (length (_sdkconfig_files a') <= length (candidates a))%nat) /\
  (forall (w : World) (a : App) (fs : gmap string string),
      (forall f0, In f0 (candidates a) -> fs !! resolve_candidate w a f0 = None) ->
      _process_sdkconfig_files w a fs
      = inr (fs,
             (if isdir w (expanded_dir w a) then [] else [Makedirs (expanded_dir w a)])
             ++ [Rmdir (expanded_dir w a);
                 Rmdir (join (work_dir w a) "expanded_sdkconfig_files")],
             set_sdkconfig_state [] (_sdkconfig_files_defined_target a) (cmake_vars a) a)).
Proof.
  split.
  - intros w a fs fs' calls a'. unfold _process_sdkconfig_files, run_pipeline.
    destruct (run_files w a _ (candidates a)) as [e|st'] eqn:E; [discriminate|].
    intros [= _ _ <-]. cbn [set_sdkconfig_state _sdkconfig_files].
    apply run_files_res_length in E. exact E.
  - intros w a fs H. unfold _process_sdkconfig_files, run_pipeline.
    rewrite run_files_missing by exact H. reflexivity.
Qed.

Lemma pipeline_output_bounded_witness :
  (forall f0, In f0 (candidates app_proj) ->
              (∅ : gmap string string) !! resolve_candidate w_plain app_proj f0 = None) /\
  _process_sdkconfig_files w_plain app_proj ∅
  = inr (∅,
         [Makedirs "proj/expanded_sdkconfig_files/build";
          Rmdir "proj/expanded_sdkconfig_files/build";
          Rmdir "proj/expanded_sdkconfig_files"],
         app_proj).
Proof.
  split; [intros f0 _; apply lookup_empty|].
  rewrite (proj2 pipeline_output_bounded w_plain app_proj ∅)
    by (intros f0 _; apply lookup_empty).
  reflexivity.
Defined.

End Sdkconfig_more.

(** ** More about the build decision *)

Section Decision_more.
Import PyStr Decision Decision_spec Samples.

Lemma to_list_of_list (l : option (list string)) : to_list (PyListArg <$> l) = l.
Proof. now destruct l. Qed.

Lemma is_modified_of_list (w : World) (a : App) (mf : option (list string)) :
  is_modified w a (PyListArg <$> mf) = true <->
  exists l f, mf = Some l /\ f ∈ l /\
    endswith ".md" (last_part (to_absolute_path w f)) = false /\
    anchor (to_absolute_path w (app_dir a)) = anchor (to_absolute_path w f) /\
    exists rest, rest <> [] /\
      names (to_absolute_path w f) = names (to_absolute_path w (app_dir a)) ++ rest.
Proof.
  destruct mf as [l|]; cbn [fmap option_fmap option_map].
  - rewrite is_modified_list. split.
    + intros (f & Hin & Hmd & Hp). apply in_parents_spec in Hp as [Ha Hr].
      now exists l, f.
    + intros (l' & f & [= <-] & Hin & Hmd & Ha & Hr). exists f.
      split; [exact Hin|]. split; [exact Hmd|]. now apply in_parents_spec.
  - split; [discriminate|]. intros (l & f & [=] & _).
Qed.

(** X6.  The decision table for arguments given as lists.  On an App
    whose decision is unknown: without dependency checking the decision is
    [YES]; so it is when a modified file that does not end in [.md] lies
    strictly below the app directory; failing that, so it is when a
    modified component is among the declared ones or a modified file
    matches a declared pattern.  Otherwise the component signal alone
    decides: [NO] when the modified components are given and components
    are declared, else the decision stays [UNKNOWN], whatever the file
    patterns say. *)
Theorem decision_table_for_lists
  (w : World) (a : App) (root : option string) (chk : bool)
  (mc mf : option (list string)) :
  should_build a = UNKNOWN ->
  let a' := check_should_build w a root chk (PyListArg <$> mc) (PyListArg <$> mf) in
  let touched :=
    exists l f, mf = Some l /\ f ∈ l /\
      endswith ".md" (last_part (to_absolute_path w f)) = false /\
      anchor (to_absolute_path w (app_dir a)) = anchor (to_absolute_path w f) /\
      exists rest, rest <> [] /\
        names (to_absolute_path w f) = names (to_absolute_path w (app_dir a)) ++ rest in
  let component_hit :=
    exists l c, mc = Some l /\ c ∈ depends_components w a /\ c ∈ l in
  let pattern_hit :=
    exists l f p, mf = Some l /\ f ∈ l /\ p ∈ depends_filepatterns w a /\
      pattern_matches w root p f = true in
  (chk = false -> should_build a' = YES) /\
  (chk = true -> touched -> should_build a' = YES) /\
  (chk = true -> ~ touched -> component_hit \/ pattern_hit -> should_build a' = YES) /\
  (chk = true -> ~ touched -> ~ component_hit -> ~ pattern_hit ->
   mc <> None -> depends_components w a <> [] -> should_build a' = NO) /\
  (chk = true -> ~ touched -> ~ component_hit -> ~ pattern_hit ->
   mc = None \/ depends_components w a = [] -> should_build a' = UNKNOWN).
Proof.
  intros Hu a' touched component_hit pattern_hit.
  destruct (check_should_build_matrix w a root chk (PyListArg <$> mc) (PyListArg <$> mf) Hu)
    as (H1 & H2 & H3 & _).
  fold a' in H1, H2, H3. rewrite !to_list_of_list in H3.
  destruct (component_signal_spec w a mc) as (Cy & Cn & Cu).
  destruct (filepattern_signal_spec w a root mf) as (Fy & _ & _).
  assert (Hfy : filepattern_signal w a root true mf = YES <-> pattern_hit).
  { rewrite Fy. subst pattern_hit. split.
    - intros (l & -> & Hm). apply files_matches_patterns_spec in Hm as (f & p & ?).
      exists l, f, p. tauto.
    - intros (l & f & p & -> & Hf & Hp & Hm). exists l. split; [reflexivity|].
      apply files_matches_patterns_spec. now exists f, p. }
  assert (Hnot : ~ touched -> is_modified w a (PyListArg <$> mf) = false).
  { intros Hn. destruct (is_modified w a (PyListArg <$> mf)) eqn:E; [|reflexivity].
    exfalso. apply Hn. now apply is_modified_of_list. }
  split; [exact H1|]. split; [|split; [|split]].
  - intros Hc Ht. apply (H2 Hc). now apply is_modified_of_list.
  - intros Hc Hn [Hh|Hh]; apply (H3 Hc (Hnot Hn)).
    + left. now apply Cy.
    + right. now apply Hfy.
  - intros Hc Hn Hnc Hnp Hmc Hd. apply (H3 Hc (Hnot Hn)).
    + apply Cn. destruct mc as [l|]; [|contradiction]. exists l.
      split; [reflexivity|]. split; [exact Hd|].
      intros (c & Hc1 & Hc2). apply Hnc. now exists l, c.
    + intros E. now apply Hnp, Hfy.
  - intros Hc Hn Hnc Hnp Hs. apply (H3 Hc (Hnot Hn)).
    + intros E. now apply Hnc, Cy.
    + intros E. now apply Hnp, Hfy.
    + intros E. apply Cn in E as (l & -> & Hd & _).
      destruct Hs as [Hs|Hs]; [discriminate|contradiction].
Qed.

Lemma decision_table_for_lists_witness :
  should_build app_proj = UNKNOWN /\
  should_build
    (check_should_build w_plain app_proj None true
       (PyListArg <$> Some ["esp_wifi"]) (PyListArg <$> Some ["proj/main/app.c"]))
  = YES.
Proof.
  split; [reflexivity|].
  destruct (decision_table_for_lists w_plain app_proj None true
              (Some ["esp_wifi"]) (Some ["proj/main/app.c"]) eq_refl)
    as (_ & H & _).
  apply H; [reflexivity|].
  exists ["proj/main/app.c"], "proj/main/app.c".
  split; [reflexivity|]. split; [apply list_elem_of_In; now left|].
  split; [reflexivity|]. split; [reflexivity|].
  exists ["main"; "app.c"]. split; [discriminate|reflexivity].
Defined.

(** X7.  A second call of [check_should_build] with the arguments of the
    first changes nothing more: the call is idempotent, also when the first
    one left the decision unknown. *)
Theorem check_should_build_idempotent
  (w : World) (a : App) (root : option string) (chk : bool) (mc mf : option StrOrList) :
  check_should_build w (check_should_build w a root chk mc mf) root chk mc mf
  = check_should_build w a root chk mc mf.
Proof.
  assert (Hdec : forall x : App,
             should_build x <> UNKNOWN -> check_should_build w x root chk mc mf = x).
  { intros x Hx. exact (decided_stays w x (mkCall root chk mc mf) Hx). }
  destruct (decide (should_build a = UNKNOWN)) as [Ha|Ha];
    [|now rewrite !(Hdec a Ha)].
  remember (check_should_build w a root chk mc mf) as a1 eqn:E1.
  unfold check_should_build in E1.
  rewrite (bool_decide_eq_true_2 _ Ha) in E1. cbn [negb] in E1.
  destruct chk; cbn [negb] in E1;
    [|subst a1; apply Hdec; cbn; discriminate].
  destruct (is_modified w a mf) eqn:Em;
    [subst a1; apply Hdec; cbn; discriminate|].
  cbv zeta in E1.
  destruct (bool_decide (component_signal w a true (to_list mc) = YES)
            || bool_decide (filepattern_signal w a root true (to_list mf) = YES)) eqn:Ec1;
    [subst a1; apply Hdec; cbn; discriminate|].
  destruct (bool_decide (component_signal w a true (to_list mc) = NO)) eqn:Ec2;
    [subst a1; apply Hdec; cbn; discriminate|].
  subst a1. unfold check_should_build.
  change (should_build (set_checked_should_build true a)) with (should_build a).
  rewrite (bool_decide_eq_true_2 _ Ha). cbn [negb].
  change (is_modified w (set_checked_should_build true a) mf) with (is_modified w a mf).
  rewrite Em. cbv zeta.
  change (component_signal w (set_checked_should_build true a) true (to_list mc))
    with (component_signal w a true (to_list mc)).
  change (filepattern_signal w (set_checked_should_build true a) root true (to_list mf))
    with (filepattern_signal w a root true (to_list mf)).
  rewrite Ec1, Ec2. reflexivity.
Qed.

(** X8.  On an App whose decision is unknown, a call of
    [check_should_build] assigns [should_build] and
    [_checked_should_build] and nothing else, and it always leaves
    [_checked_should_build] set. *)
Theorem check_should_build_assigns_two_fields
  (w : World) (a : App) (root : option string) (chk : bool) (mc mf : option StrOrList) :
  should_build a = UNKNOWN ->
  exists v, check_should_build w a root chk mc mf
            = set_checked_should_build true (set_should_build v a).
Proof.
  intros Hu. unfold check_should_build.
  rewrite (bool_decide_eq_true_2 _ Hu). cbn [negb].
  destruct chk; cbn [negb]; [|now exists YES].
  destruct (is_modified w a mf); [now exists YES|].
  destruct (bool_decide _ || bool_decide _); [now exists YES|].
  destruct (bool_decide _); [now exists NO|].
  exists UNKNOWN. unfold set_checked_should_build, set_should_build. cbn.
  now rewrite Hu.
Qed.

Lemma check_should_build_assigns_two_fields_witness :
  should_build app_proj = UNKNOWN /\
  exists v, check_should_build w_plain app_proj None true None None
            = set_checked_should_build true (set_should_build v app_proj).
Proof.
  split; [reflexivity|].
  apply (check_should_build_assigns_two_fields w_plain app_proj None true None None).
  reflexivity.
Defined.

End Decision_more.

(** ** More about the build lifecycle *)

Section Lifecycle_more.
Import PyStr OsPath PathTemplate Decision Decision_spec Lifecycle Lifecycle_spec
  Extra_spec Samples.

Lemma log_only_ret {A} (x : A) : log_only (mret x).
Proof.
  intros st. exists [], x. rewrite with_events_nil. split; [reflexivity|constructor].
Qed.

Lemma log_only_bind {A B} (m : M A) (f : A -> M B) :
  log_only m -> (forall x, log_only (f x)) -> log_only (m ≫= f).
Proof.
  intros Hm Hf st. destruct (Hm st) as (e1 & x & E1 & L1).
  destruct (Hf x (with_events st e1)) as (e2 & y & E2 & L2).
  exists (e1 ++ e2), y. rewrite bind_run, E1, E2, with_events_app.
  split; [reflexivity|]. apply Forall_app. now split.
Qed.

Lemma log_only_log (lvl : Level) (r : LogRecord) : log_only (log lvl r).
Proof.
  intros st. exists [ELog lvl r], tt. split; [reflexivity|].
  constructor; [exact I|constructor].
Qed.

Lemma log_only_get_trace : log_only get_trace.
Proof.
  intros st. exists [], (st_trace st). rewrite with_events_nil.
  split; [reflexivity|constructor].
Qed.

Lemma log_only_when (b : bool) (m : M unit) : log_only m -> log_only (when b m).
Proof. intros H. destruct b; [exact H|apply log_only_ret]. Qed.

Lemma prepare_dry_run (w : World) (h : Host) (st : State) :
  dry_run (st_app st) = true ->
  exists evs, prepare w h st = (with_events st evs, inr tt) /\ Forall is_log evs.
Proof.
  intros Hdry.
  assert (H : log_only
                (log LDebug MsgPreparing;;
                 when (negb (String.eqb (work_dir w (st_app st)) (app_dir (st_app st))))
                   (tr ← get_trace;
                    when (path_exists h tr (work_dir w (st_app st)))
                      (log LDebug (MsgWorkDirExists (work_dir w (st_app st)));;
                       when false (emit (ERmtree (work_dir w (st_app st)))));;
                    log LDebug (MsgCopyingApp (app_dir (st_app st)) (work_dir w (st_app st)));;
                    when false
                      (emit (ECopytree (app_dir (st_app st)) (work_dir w (st_app st)))));;
                 tr ← get_trace;
                 when (path_exists h tr (build_path w (st_app st)))
                   (log LDebug (MsgBuildDirExists (build_path w (st_app st)));;
                    when false (emit (ERmtree (build_path w (st_app st)))));;
                 when false (emit (EMakedirs (build_path w (st_app st))));;
                 tr ← get_trace;
                 when (path_exists h tr (join (work_dir w (st_app st)) "sdkconfig"))
                   (log LDebug (MsgRemovingSdkconfig (join (work_dir w (st_app st)) "sdkconfig"));;
                    when false (emit (EUnlink (join (work_dir w (st_app st)) "sdkconfig"))));;
                 match build_log_path w (st_app st) with
                 | Some p => log LInfo (MsgWritingBuildLog p)
                 | None => mret tt
                 end)).
  { repeat first [ apply log_only_bind; [|intros ?]
                 | apply (log_only_ret tt : log_only (when false _))
                 | apply log_only_when
                 | apply log_only_log
                 | apply log_only_get_trace
                 | apply log_only_ret ].
    destruct (build_log_path w (st_app st)); [apply log_only_log|apply log_only_ret]. }
  destruct (H st) as (evs & [] & E & L). exists evs. split; [|exact L].
  rewrite <- E. unfold prepare. rewrite bind_run. cbn [get_app].
  rewrite Hdry. reflexivity.
Qed.

(** X9.  A dry run never reaches [_build]: whatever the [_build] method
    and the arguments, [build] returns [True], leaves the App and the log
    as they are, and everything it adds to the trace is a log record; no
    directory is removed, copied or created and no file is opened or
    removed. *)
Theorem dry_run_only_logs
  (w : World) (h : Host) (bm : BuildArgs -> M bool)
  (root : option string) (mc mf : option StrOrList) (chk : bool) (st : State) :
  dry_run (st_app st) = true ->
  exists evs,
    build_with w h bm root mc mf chk st = (with_events st evs, inr true) /\
    Forall is_log evs.
Proof.
  intros Hdry. destruct (prepare_dry_run w h st Hdry) as (evs & E & L).
  exists (evs ++ [ELog LDebug MsgSkippingDryRun]). split.
  - unfold build_with. rewrite bind_run, E, bind_run.
    cbn [get_app with_events st_app]. rewrite Hdry.
    rewrite bind_run, log_run, with_events_app. reflexivity.
  - apply Forall_app. split; [exact L|]. constructor; [exact I|constructor].
Qed.

Lemma dry_run_only_logs_witness :
  let a := mkApp Make "proj" "esp32" None None UNKNOWN "work" "build" None None
             true None false false true 1 1 false [] [] None ∅ in
  dry_run a = true /\
  exists evs,
    build w_plain (sample_host error_output 2) None None None false (initial_state a)
    = (with_events (initial_state a) evs, inr true) /\
    Forall is_log evs.
Proof.
  intros a. split; [reflexivity|].
  apply (dry_run_only_logs w_plain (sample_host error_output 2)). reflexivity.
Defined.

(** *** Computations that remove no file *)

Lemma tidy_ret {A} (x : A) : tidy (mret x).
Proof.
  intros st. exists []. cbn. rewrite app_nil_r. split; [reflexivity|apply no_unlink_nil].
Qed.

Lemma tidy_raise {A} (e : Exn) : tidy (@raise A e).
Proof.
  intros st. exists []. cbn. rewrite app_nil_r. split; [reflexivity|apply no_unlink_nil].
Qed.

Lemma tidy_bind {A B} (m : M A) (f : A -> M B) :
  tidy m -> (forall x, tidy (f x)) -> tidy (m ≫= f).
Proof.
  intros Hm Hf st. destruct (Hm st) as (e1 & E1 & N1). rewrite bind_run.
  destruct (m st) as [st' [e|x]]; cbn [fst] in *.
  - now exists e1.
  - destruct (Hf x st') as (e2 & E2 & N2). exists (e1 ++ e2). split.
    + now rewrite E2, E1, app_assoc.
    + now apply no_unlink_app.
Qed.

Lemma tidy_when (b : bool) (m : M unit) : tidy m -> tidy (when b m).
Proof. intros H. destruct b; [exact H|apply tidy_ret]. Qed.

Lemma tidy_events {A} (m : M A) (evs : State -> list Event) (x : State -> Exn + A) :
  (forall st, m st = (with_events st (evs st), x st)) ->
  (forall st, no_unlink (evs st)) ->
  tidy m.
Proof. intros E N st. exists (evs st). rewrite E. split; [reflexivity|apply N]. Qed.

Lemma tidy_log (lvl : Level) (r : LogRecord) : tidy (log lvl r).
Proof.
  apply (tidy_events _ (fun _ => [ELog lvl r]) (fun _ => inr tt)); [reflexivity|].
  intros _ p [H|[]]. discriminate.
Qed.

Lemma tidy_get_app : tidy get_app.
Proof.
  apply (tidy_events _ (fun _ => []) (fun st => inr (st_app st))).
  - intros st. now rewrite with_events_nil.
  - intros _. apply no_unlink_nil.
Qed.

Lemma tidy_get_trace : tidy get_trace.
Proof.
  apply (tidy_events _ (fun _ => []) (fun st => inr (st_trace st))).
  - intros st. now rewrite with_events_nil.
  - intros _. apply no_unlink_nil.
Qed.

Lemma tidy_append_log (out : string) : tidy (append_log out).
Proof.
  intros st. exists []. cbn. rewrite app_nil_r. split; [reflexivity|apply no_unlink_nil].
Qed.

Lemma tidy_subprocess_run
  (h : Host) (cmd : list string) (env : list (string * string)) (cwd : option string)
  (lt : bool) (sink : Sink) :
  tidy (subprocess_run h cmd env cwd lt sink).
Proof.
  unfold subprocess_run.
  apply tidy_bind; [apply tidy_get_trace|intros tr].
  destruct (run_command h tr cmd) as [out rc].
  apply tidy_bind; [|intros _].
  { apply (tidy_events _ (fun _ => [ERun cmd env cwd lt sink]) (fun _ => inr tt));
      [reflexivity|]. intros _ p [H|[]]. discriminate. }
  apply tidy_bind; [apply tidy_when, tidy_append_log|intros _].
  destruct (rc =? 0); [apply tidy_ret|apply tidy_raise].
Qed.

Lemma tidy_write_size_json (w : World) (h : Host) (p : string) :
  tidy (write_size_json w h p).
Proof.
  unfold write_size_json.
  apply tidy_bind; [apply tidy_get_app|intros a].
  apply tidy_bind; [apply tidy_get_trace|intros tr].
  destruct (find_map_file h tr _); [|apply tidy_log].
  apply tidy_bind; [|intros _; apply tidy_log].
  destruct (idf_version_ge_4_1 h); apply tidy_subprocess_run.
Qed.

Lemma tidy_closing (w : World) (h : Host) (err : option Exn) (hw b : bool) :
  tidy (size_report w h b;; clean_build_dir w;; conclude err hw b).
Proof.
  apply tidy_bind; [|intros _].
  { unfold size_report. apply tidy_bind; [apply tidy_get_app|intros a].
    destruct (size_json_path w a); [|apply tidy_ret].
    apply tidy_when, tidy_write_size_json. }
  apply tidy_bind; [|intros _].
  { apply (tidy_events _ (fun st => clean_events w (st_app st)) (fun _ => inr tt)).
    - apply clean_build_dir_run.
    - intros st. apply no_unlink_clean. }
  unfold conclude. apply tidy_bind; [apply tidy_get_app|intros a].
  destruct err; [apply tidy_raise|].
  destruct (check_warnings a && hw); [apply tidy_raise|].
  apply tidy_bind; [|intros _; apply tidy_ret].
  destruct hw; apply tidy_log.
Qed.

Lemma tidy_after_build_kept
  (w : World) (h : Host) (name : string) (r : Exn + bool) :
  tidy (after_build w h name true r).
Proof.
  unfold after_build. apply tidy_bind; [|intros hw].
  { apply (tidy_events _
             (fun st => classify_events w (log_lines (st_log st))
                        ++ match (match r with inl e => Some e | inr _ => None end) with
                           | Some _ => last_lines_events name (log_lines (st_log st))
                           | None => []
                           end)
             (fun st => inr (has_unignored_warning_in w (log_lines (st_log st))))).
    - intros st. apply diagnose_run.
    - intros st. apply no_unlink_app; [apply no_unlink_classify|].
      destruct r; [apply no_unlink_last_lines|apply no_unlink_nil]. }
  apply tidy_bind; [apply tidy_ret|intros _]. apply tidy_closing.
Qed.

(** *** [build] with either kind of log, phase by phase *)

Lemma open_log_run (w : World) (h : Host) (st : State) :
  open_log w h st = (build_start w h st, inr (log_name w h st, keeps_log w st)).
Proof.
  unfold open_log, build_start, log_name, keeps_log.
  rewrite bind_run. cbn [get_app]. rewrite bind_run. cbn [get_trace].
  destruct (build_log_path w (st_app st)); reflexivity.
Qed.

Lemma build_with_run
  (w : World) (h : Host) (bm : BuildArgs -> M bool)
  (root : option string) (mc mf : option StrOrList) (chk : bool)
  (st st1 st3 : State) (r : Exn + bool) :
  dry_run (st_app st) = false ->
  fst (prepare w h st) = st1 ->
  bm (mkBuildArgs root (to_list mc) (to_list mf) chk) (build_start w h st1) = (st3, r) ->
  build_with w h bm root mc mf chk st
  = match r with
    | inl (OtherError msg) =>
        (with_events st3 [ECloseLog (log_name w h st1)], inl (OtherError msg))
    | _ =>
        after_build w h (log_name w h st1) (keeps_log w st1) r
          (with_events st3 [ECloseLog (log_name w h st1)])
    end.
Proof.
  intros Hdry Hprep Hbm.
  destruct (prepare_quiet w h st) as (evs & [] & Eprep).
  rewrite Eprep in Hprep. cbn [fst] in Hprep. subst st1.
  unfold build_with. rewrite bind_run, Eprep.
  rewrite bind_run. cbn [get_app]. cbn [with_events st_app]. rewrite Hdry.
  unfold run_and_report.
  rewrite bind_run, open_log_run. cbv beta iota.
  rewrite bind_run, (guarded_run _ _ _ _ _ _ Hbm).
  destruct r as [[msg|msg]|b]; reflexivity.
Qed.

Lemma after_build_returned_run
  (w : World) (h : Host) (name : string) (keep b : bool) (st : State) :
  after_build w h name keep (inr b) st
  = (size_report w h b;; clean_build_dir w;;
     conclude None (has_unignored_warning_in w (log_lines (st_log st))) b)
      (with_events st
         (classify_events w (log_lines (st_log st))
          ++ (if keep then [] else remove_events name))).
Proof.
  unfold after_build.
  rewrite bind_run, diagnose_run.
  rewrite bind_run, remove_temp_log_run.
  rewrite bool_decide_eq_false_2 by (intros [? [=]]).
  rewrite app_nil_r, with_events_app.
  destruct keep; reflexivity.
Qed.

Lemma build_with_returned
  (w : World) (h : Host) (bm : BuildArgs -> M bool)
  (root : option string) (mc mf : option StrOrList) (chk : bool)
  (st st1 st3 : State) (b : bool) :
  dry_run (st_app st) = false ->
  fst (prepare w h st) = st1 ->
  bm (mkBuildArgs root (to_list mc) (to_list mf) chk) (build_start w h st1)
  = (st3, inr b) ->
  build_with w h bm root mc mf chk st
  = (size_report w h b;; clean_build_dir w;;
     conclude None (has_unignored_warning_in w (log_lines (st_log st3))) b)
      (with_events st3 (report_events w h st1 st3)).
Proof.
  intros Hdry Hprep Hbm.
  rewrite (build_with_run w h bm root mc mf chk st st1 st3 _ Hdry Hprep Hbm).
  rewrite after_build_returned_run. cbn [with_events st_log st_app st_trace].
  unfold report_events, with_events. cbn [st_app st_log st_trace].
  rewrite <- app_assoc. reflexivity.
Qed.

(** X10.  [build] runs for real with a log path configured.  Whatever
    [_build] does, returning or raising, the events [build] adds after it
    start with the closing of the log and none of them is an [os.unlink]:
    only a temporary log is ever removed. *)
Theorem configured_log_never_unlinked
  (w : World) (h : Host) (bm : BuildArgs -> M bool)
  (root : option string) (mc mf : option StrOrList) (chk : bool)
  (st st1 st3 : State) (r : Exn + bool) (p : string) :
  dry_run (st_app st) = false ->
  build_log_path w (st_app st) = Some p ->
  fst (prepare w h st) = st1 ->
  bm (mkBuildArgs root (to_list mc) (to_list mf) chk) (build_start w h st1) = (st3, r) ->
  exists evs,
    st_trace (fst (build_with w h bm root mc mf chk st))
    = st_trace st3 ++ ECloseLog p :: evs
    /\ no_unlink evs.
Proof.
  intros Hdry Hlog Hprep Hbm.
  rewrite (build_with_run w h bm root mc mf chk st st1 st3 r Hdry Hprep Hbm).
  assert (Happ : st_app st1 = st_app st).
  { destruct (prepare_quiet w h st) as (evs & [] & E).
    rewrite E in Hprep. now subst st1. }
  assert (Hname : log_name w h st1 = p) by (unfold log_name; now rewrite Happ, Hlog).
  assert (Hkeep : keeps_log w st1 = true) by (unfold keeps_log; now rewrite Happ, Hlog).
  rewrite Hname, Hkeep.
  assert (Hafter : forall r', exists evs,
             st_trace (fst (after_build w h p true r' (with_events st3 [ECloseLog p])))
             = st_trace st3 ++ ECloseLog p :: evs /\ no_unlink evs).
  { intros r'.
    destruct (tidy_after_build_kept w h p r' (with_events st3 [ECloseLog p]))
      as (evs & E & N).
    exists evs. split; [|exact N]. rewrite E. cbn [with_events st_trace].
    now rewrite <- app_assoc. }
  destruct r as [[msg|msg]|b]; [apply Hafter| |apply Hafter].
  exists []. split; [reflexivity|apply no_unlink_nil].
Qed.

Lemma configured_log_never_unlinked_witness :
  let h := sample_host error_output 2 in
  let st := initial_state app_logged in
  (dry_run (st_app st) = false /\
   build_log_path w_plain (st_app st) = Some "/ws/proj/build/build.log") /\
  exists evs,
    st_trace (fst (build w_plain h None None None false st))
    = st_trace (fst (_build w_plain h (mkBuildArgs None None None false)
                       (build_start w_plain h (fst (prepare w_plain h st)))))
      ++ ECloseLog "/ws/proj/build/build.log" :: evs
    /\ no_unlink evs.
Proof.
  intros h st. split; [split; reflexivity|].
  apply (configured_log_never_unlinked w_plain h (_build w_plain h) None None None false
           st (fst (prepare w_plain h st)) _
           (snd (_build w_plain h (mkBuildArgs None None None false)
                   (build_start w_plain h (fst (prepare w_plain h st)))))
           "/ws/proj/build/build.log");
    [reflexivity|reflexivity|reflexivity|].
  now destruct (_build w_plain h _ _).
Defined.

(** X11.  [build] runs for real and [_build] returned [b].  When the size
    report ended normally, and [check_warnings] is off or the log holds
    no warning that is not ignored, [build] cleans the build directory,
    logs the success (naming the warnings if there were some) and returns
    [b], the very value [_build] returned: warnings in the log do not fail
    a build that does not ask for it. *)
Theorem warnings_tolerated_unless_checked
  (w : World) (h : Host) (bm : BuildArgs -> M bool)
  (root : option string) (mc mf : option StrOrList) (chk : bool)
  (st st1 st3 st5 : State) (b : bool) :
  dry_run (st_app st) = false ->
  fst (prepare w h st) = st1 ->
  bm (mkBuildArgs root (to_list mc) (to_list mf) chk) (build_start w h st1)
  = (st3, inr b) ->
  size_report w h b (with_events st3 (report_events w h st1 st3)) = (st5, inr tt) ->
  check_warnings (st_app st5)
  && has_unignored_warning_in w (log_lines (st_log st3)) = false ->
  build_with w h bm root mc mf chk st
  = (with_events st5
       (clean_events w (st_app st5)
        ++ [ELog LInfo
              (if has_unignored_warning_in w (log_lines (st_log st3))
               then MsgSucceededWithWarnings else MsgSucceeded)]),
     inr b).
Proof.
  intros Hdry Hprep Hbm Hsize Hcw.
  rewrite (build_with_returned w h bm root mc mf chk st st1 st3 b Hdry Hprep Hbm).
  rewrite bind_run, Hsize.
  rewrite bind_run, clean_build_dir_run.
  unfold conclude. rewrite bind_run. cbn [get_app]. cbn [with_events st_app].
  rewrite Hcw. rewrite bind_run.
  destruct (has_unignored_warning_in w (log_lines (st_log st3)));
    rewrite log_run, with_events_app; reflexivity.
Qed.

Lemma warnings_tolerated_unless_checked_witness :
  let h := sample_host warning_output 0 in
  let st := initial_state app_logged in
  let r := build w_plain h None None None false st in
  dry_run (st_app st) = false /\
  has_unignored_warning_in w_plain
    (log_lines (st_log (fst (_build w_plain h (mkBuildArgs None None None false)
                               (build_start w_plain h (fst (prepare w_plain h st)))))))
  = true /\
  snd r = inr true /\
  last (st_trace (fst r)) = Some (ELog LInfo MsgSucceededWithWarnings).
Proof.
  intros h st r. split; [reflexivity|]. split; [reflexivity|].
  unfold r, build.
  rewrite (warnings_tolerated_unless_checked w_plain h (_build w_plain h)
             None None None false st (fst (prepare w_plain h st))
             (fst (_build w_plain h (mkBuildArgs None None None false)
                     (build_start w_plain h (fst (prepare w_plain h st)))))
             (fst (size_report w_plain h true
                     (with_events
                        (fst (_build w_plain h (mkBuildArgs None None None false)
                                (build_start w_plain h (fst (prepare w_plain h st)))))
                        (report_events w_plain h (fst (prepare w_plain h st))
                           (fst (_build w_plain h (mkBuildArgs None None None false)
                                   (build_start w_plain h (fst (prepare w_plain h st)))))))))
             true);
    [split; reflexivity|reflexivity|reflexivity|reflexivity|reflexivity|reflexivity].
Defined.

(** X12.  [build] runs for real and [_build] returned [b].  When the size
    report raises [e], [build] ends with [e] at once, in the state the
    size report left: the build directory is not cleaned, whatever
    [preserve] says, and no success is logged.  The size report raises
    only the build error of its command: then [_build] had returned
    [True], a size path is set, and the last event of the trace is the
    run of a command that returned a non-zero exit status. *)
Theorem size_report_failure_ends_build
  (w : World) (h : Host) (bm : BuildArgs -> M bool)
  (root : option string) (mc mf : option StrOrList) (chk : bool)
  (st st1 st3 st5 : State) (b : bool) (e : Exn) :
  dry_run (st_app st) = false ->
  fst (prepare w h st) = st1 ->
  bm (mkBuildArgs root (to_list mc) (to_list mf) chk) (build_start w h st1)
  = (st3, inr b) ->
  size_report w h b (with_events st3 (report_events w h st1 st3)) = (st5, inl e) ->
  build_with w h bm root mc mf chk st = (st5, inl e)
  /\ (exists p cmd lt sink rc,
        b = true /\
        size_json_path w (st_app st3) = Some p /\
        snd (run_command h (st_trace st3 ++ report_events w h st1 st3) cmd) = rc /\
        rc <> 0 /\
        st_trace st5
        = st_trace st3 ++ report_events w h st1 st3 ++ [ERun cmd [] None lt sink] /\
        e = BuildError ("Command returned non-zero exit status " +:+ of_int rc)).
Proof.
  intros Hdry Hprep Hbm Hsize. split.
  - rewrite (build_with_returned w h bm root mc mf chk st st1 st3 b Hdry Hprep Hbm).
    now rewrite bind_run, Hsize.
  - revert Hsize. generalize (report_events w h st1 st3). intros evs.
    unfold size_report. rewrite bind_run. cbn [get_app]. cbn [with_events st_app].
    destruct (size_json_path w (st_app st3)) as [p|]; [|discriminate].
    destruct b; [|discriminate]. cbn [when].
    unfold write_size_json. rewrite bind_run. cbn [get_app].
    rewrite bind_run. cbn [get_trace]. cbn [st_app st_trace].
    destruct (find_map_file h _ _) as [mfile|]; [|rewrite log_run; discriminate].
    rewrite bind_run.
    assert (Hrun : forall cmd lt sink s,
               sink <> ToBuildLog ->
               subprocess_run h cmd [] None lt sink s
               = (with_events s [ERun cmd [] None lt sink],
                  if snd (run_command h (st_trace s) cmd) =? 0 then inr tt
                  else inl (BuildError ("Command returned non-zero exit status "
                                        +:+ of_int (snd (run_command h (st_trace s) cmd)))))).
    { intros cmd lt sink s Hsink. unfold subprocess_run.
      rewrite bind_run. cbn [get_trace].
      destruct (run_command h (st_trace s) cmd) as [out rc]. cbn [snd].
      rewrite bind_run, emit_run, bind_run.
      rewrite bool_decide_eq_false_2 by exact Hsink. cbn [when mret M_ret].
      destruct (rc =? 0); reflexivity. }
    destruct (idf_version_ge_4_1 h); rewrite Hrun by discriminate;
      cbn [with_events st_trace st_app st_log];
      match goal with
      | |- context [run_command h ?tr ?cmd] =>
          destruct (snd (run_command h tr cmd) =? 0) eqn:Erc;
            [rewrite log_run; discriminate|]
      end;
      intros [= <- <-]; apply Z.eqb_neq in Erc;
      eexists p, _, _, _, _; (split; [reflexivity|]); (split; [reflexivity|]);
      (split; [reflexivity|]); (split; [exact Erc|]);
      (split; [cbn [with_events st_trace]; now rewrite <- app_assoc|reflexivity]).
Qed.

Lemma size_report_failure_ends_build_witness :
  let h := size_fails_host in
  let st := initial_state app_sized in
  let r := build w_plain h None None None false st in
  (dry_run (st_app st) = false /\ preserve (st_app st) = false) /\
  snd r = inl (BuildError "Command returned non-zero exit status 1") /\
  forall d ex, ~ In (ERmdir d ex) (st_trace (fst r)).
Proof.
  intros h st r. split; [split; reflexivity|].
  pose (st1 := fst (prepare w_plain h st)).
  pose (st3 := fst (_build w_plain h (mkBuildArgs None None None false)
                      (build_start w_plain h st1))).
  pose (st5 := fst (size_report w_plain h true
                      (with_events st3 (report_events w_plain h st1 st3)))).
  destruct (size_report_failure_ends_build w_plain h (_build w_plain h)
              None None None false st st1 st3 st5 true
              (BuildError "Command returned non-zero exit status 1"))
    as [E _]; [reflexivity|reflexivity|reflexivity|reflexivity|].
  unfold r, build. rewrite E. split; [reflexivity|].
  intros d ex H. vm_compute in H. intuition discriminate.
Defined.

(** *** The two [_build] methods *)

Lemma subprocess_run_run
  (h : Host) (cmd : list string) (env : list (string * string)) (cwd : option string)
  (lt : bool) (st : State) :
  subprocess_run h cmd env cwd lt ToBuildLog st
  = (mkState (st_app st) (st_log st +:+ fst (run_command h (st_trace st) cmd))
       (st_trace st ++ [ERun cmd env cwd lt ToBuildLog]),
     if snd (run_command h (st_trace st) cmd) =? 0 then inr tt
     else inl (BuildError ("Command returned non-zero exit status "
                           +:+ of_int (snd (run_command h (st_trace st) cmd))))).
Proof.
  unfold subprocess_run. rewrite bind_run. cbn [get_trace].
  destruct (run_command h (st_trace st) cmd) as [out rc]. cbn [fst snd].
  rewrite bind_run, emit_run, bind_run.
  rewrite bool_decide_eq_true_2 by reflexivity. cbn [when append_log with_events].
  cbn [st_app st_log st_trace].
  destruct (rc =? 0); reflexivity.
Qed.

(** X13.  [MakeApp._build] never consults the decision: whatever
    [should_build] and the arguments are, it runs [make defconfig] in
    the work directory with [IDF_TARGET] and [BUILD_DIR_BASE] in the
    environment, leaves the App untouched, and when that command fails it
    raises the build error without running [make -j]. *)
Theorem make_build_ignores_decision
  (w : World) (h : Host) (args : BuildArgs) (st : State) :
  let a := st_app st in
  let defconfig :=
    ERun ["make"; "defconfig"]
      [("IDF_TARGET", target a); ("BUILD_DIR_BASE", build_path w a)]
      (Some (work_dir w a)) (log_terminal_of w a) ToBuildLog in
  let rc := snd (run_command h (st_trace st) ["make"; "defconfig"]) in
  (exists evs,
      st_trace (fst (make_build w h args st)) = st_trace st ++ defconfig :: evs)
  /\ st_app (fst (make_build w h args st)) = a
  /\ (rc <> 0 ->
      make_build w h args st
      = (mkState a (st_log st +:+ fst (run_command h (st_trace st) ["make"; "defconfig"]))
           (st_trace st ++ [defconfig]),
         inl (BuildError ("Command returned non-zero exit status " +:+ of_int rc)))).
Proof.
  intros a defconfig rc. unfold make_build.
  rewrite bind_run. cbn [get_app]. rewrite bind_run, subprocess_run_run.
  fold a. fold rc. fold defconfig.
  destruct (rc =? 0) eqn:Erc.
  - rewrite bind_run, subprocess_run_run. cbn [st_app st_log st_trace].
    split; [|split].
    + match goal with
      | |- context [if snd ?x =? 0 then inr tt else _] => destruct (snd x =? 0)
      end; cbn [fst st_trace]; rewrite <- app_assoc; eexists; reflexivity.
    + now match goal with
          | |- context [if snd ?x =? 0 then inr tt else _] => destruct (snd x =? 0)
          end.
    + intros Hrc. apply Z.eqb_eq in Erc. contradiction.
  - split; [|split].
    + exists []. reflexivity.
    + reflexivity.
    + reflexivity.
Qed.

Lemma make_build_ignores_decision_witness :
  let h := sample_host error_output 2 in
  let st := initial_state (set_should_build NO app_strict) in
  should_build (st_app st) = NO /\
  snd (run_command h (st_trace st) ["make"; "defconfig"]) <> 0 /\
  make_build w_plain h (mkBuildArgs None None None true) st
  = (mkState (st_app st) error_output
       [ERun ["make"; "defconfig"]
          [("IDF_TARGET", "esp32"); ("BUILD_DIR_BASE", "/ws/proj/build")]
          (Some "proj") true ToBuildLog],
     inl (BuildError "Command returned non-zero exit status 2")).
Proof.
  intros h st. split; [reflexivity|]. split; [now vm_compute|].
  destruct (make_build_ignores_decision w_plain h (mkBuildArgs None None None true) st)
    as (_ & _ & H).
  rewrite H; [reflexivity|now vm_compute].
Defined.

Lemma cmake_resolve_decision_run
  (w : World) (h : Host) (args : BuildArgs) (st : State) :
  let a := decided_app w (st_app st) args in
  cmake_resolve_decision w h args st
  = match modified_components args with
    | Some mc =>
        if check_app_dependencies args && bool_decide (should_build a = UNKNOWN) then
          (subprocess_run h (cmake_common_args w h a ++ ["reconfigure"])
             [("IDF_TARGET", target a)] None (log_terminal_of w a) ToBuildLog;;
           tr ← get_trace;
           if negb (set_inter_nonempty mc (List.filter truthy (project_build_components h tr)))
           then
             log LInfo (MsgSkipBuildingComponents (app_dir a)
                          (List.filter truthy (project_build_components h tr)) mc);;
             mret false
           else put_app (set_should_build YES a);; mret true)
            (mkState a (st_log st) (st_trace st))
        else (mkState a (st_log st) (st_trace st), inr true)
    | None => (mkState a (st_log st) (st_trace st), inr true)
    end.
Proof.
  intros a. unfold cmake_resolve_decision. rewrite bind_run. cbn [get_app].
  rewrite bind_run.
  assert (E : when (negb (_checked_should_build (st_app st)))
                (put_app
                   (check_should_build w (st_app st) (manifest_rootpath args)
                      (check_app_dependencies args)
                      (PyListArg <$> modified_components args)
                      (PyListArg <$> modified_files args))) st
              = (mkState a (st_log st) (st_trace st), inr tt)).
  { subst a. unfold decided_app.
    destruct (_checked_should_build (st_app st)); [now destruct st|reflexivity]. }
  rewrite E. rewrite bind_run. cbn [get_app st_app].
  destruct (modified_components args) as [mc|]; [|reflexivity].
  destruct (check_app_dependencies args && bool_decide (should_build a = UNKNOWN));
    reflexivity.
Qed.

Lemma decided_app_decided (w : World) (a : App) (args : BuildArgs) :
  should_build a <> UNKNOWN -> decided_app w a args = a.
Proof.
  intros H. unfold decided_app, check_should_build.
  rewrite bool_decide_eq_false_2 by exact H. now destruct (_checked_should_build a).
Qed.

(** X14.  [CMakeApp._build] on an App whose decision is [NO] runs no
    command at all, whether the decision was checked before or not and
    whatever the arguments are: it logs that the build is skipped and
    returns [False], leaving the App and the log untouched. *)
Theorem cmake_build_skips_on_no
  (w : World) (h : Host) (args : BuildArgs) (st : State) :
  should_build (st_app st) = NO ->
  cmake_build w h args st = (with_events st [ELog LInfo MsgSkipBuilding], inr false).
Proof.
  intros Hno. unfold cmake_build. rewrite bind_run, cmake_resolve_decision_run.
  rewrite decided_app_decided by (rewrite Hno; discriminate).
  rewrite Hno. rewrite bool_decide_eq_false_2 by discriminate.
  rewrite andb_false_r.
  assert (E : match modified_components args with
              | Some _ | None =>
                  (mkState (st_app st) (st_log st) (st_trace st), inr true)
              end
              = (mkState (st_app st) (st_log st) (st_trace st), @inr Exn bool true)).
  { now destruct (modified_components args). }
  rewrite E. cbn [negb]. rewrite bind_run. cbn [get_app st_app]. rewrite Hno.
  rewrite bool_decide_eq_true_2 by reflexivity.
  rewrite bind_run, log_run. reflexivity.
Qed.

Lemma cmake_build_skips_on_no_witness :
  let st := initial_state (set_should_build NO app_token_dir) in
  should_build (st_app st) = NO /\
  cmake_build w_plain (sample_host error_output 2)
    (mkBuildArgs None (Some ["main"]) None true) st
  = (with_events st [ELog LInfo MsgSkipBuilding], inr false).
Proof.
  intros st. split; [reflexivity|].
  apply (cmake_build_skips_on_no w_plain (sample_host error_output 2)). reflexivity.
Defined.

(** X15.  Without the check of the dependencies, [CMakeApp._build] on an
    App whose decision is not [NO] runs exactly one command, the build
    command of the App as the decision step left it, and never
    [reconfigure]; it returns [True] when the command succeeds and raises
    the build error otherwise.  An App that was not checked and had no
    decision is built with the decision [YES]. *)
Theorem cmake_build_without_dependency_check
  (w : World) (h : Host) (args : BuildArgs) (st : State) :
  check_app_dependencies args = false ->
  should_build (st_app st) <> NO ->
  let a := decided_app w (st_app st) args in
  let cmd := cmake_build_args w h a in
  cmake_build w h args st
  = (mkState a (st_log st +:+ fst (run_command h (st_trace st) cmd))
       (st_trace st ++ [cmake_run w a cmd]),
     if snd (run_command h (st_trace st) cmd) =? 0 then inr true
     else inl (BuildError ("Command returned non-zero exit status "
                           +:+ of_int (snd (run_command h (st_trace st) cmd)))))
  /\ (_checked_should_build (st_app st) = false ->
      should_build (st_app st) = UNKNOWN ->
      a = set_checked_should_build true (set_should_build YES (st_app st))).
Proof.
  intros Hchk Hno a cmd.
  assert (Ha : should_build a <> NO).
  { subst a. unfold decided_app, check_should_build. rewrite Hchk.
    destruct (_checked_should_build (st_app st)); [exact Hno|].
    destruct (bool_decide (should_build (st_app st) = UNKNOWN));
      cbn [negb]; [discriminate|exact Hno]. }
  split.
  - unfold cmake_build. rewrite bind_run, cmake_resolve_decision_run.
    fold a. rewrite Hchk. cbn [andb].
    assert (E : match modified_components args with
                | Some _ | None => (mkState a (st_log st) (st_trace st), inr true)
                end
                = (mkState a (st_log st) (st_trace st), @inr Exn bool true)).
    { now destruct (modified_components args). }
    rewrite E. cbn [negb]. rewrite bind_run. cbn [get_app st_app].
    rewrite bool_decide_eq_false_2 by exact Ha.
    rewrite bind_run, subprocess_run_run. cbn [st_app st_log st_trace].
    fold cmd. unfold cmake_run.
    destruct (snd (run_command h (st_trace st) cmd) =? 0); reflexivity.
  - intros Hc Hu. subst a. unfold decided_app, check_should_build.
    rewrite Hc, Hchk, Hu. now rewrite bool_decide_eq_true_2.
Qed.

Lemma cmake_build_without_dependency_check_witness :
  let h := sample_host warning_output 0 in
  let st := initial_state app_token_dir in
  (check_app_dependencies (mkBuildArgs None (Some ["main"]) None false) = false /\
   should_build (st_app st) <> NO) /\
  snd (cmake_build w_plain h (mkBuildArgs None (Some ["main"]) None false) st) = inr true /\
  should_build
    (st_app (fst (cmake_build w_plain h (mkBuildArgs None (Some ["main"]) None false) st)))
  = YES.
Proof.
  intros h st. split; [split; [reflexivity|discriminate]|].
  destruct (cmake_build_without_dependency_check w_plain h
              (mkBuildArgs None (Some ["main"]) None false) st)
    as [E _]; [reflexivity|discriminate|].
  rewrite E. split; reflexivity.
Defined.

(** X16.  With the check of the dependencies on, a list of modified
    components and a decision that is still unknown after the decision
    step, [CMakeApp._build] runs [reconfigure] first.  When that command
    fails the build error ends [_build].  When it succeeds and no
    modified component is among the non-empty build components of the
    project, [_build] logs the skip and returns [False], and the decision
    stays unknown.  When one is, the decision becomes [YES] and the build
    command follows. *)
Theorem cmake_reconfigure_settles_unknown
  (w : World) (h : Host) (args : BuildArgs) (st : State) (mc : list string) :
  check_app_dependencies args = true ->
  modified_components args = Some mc ->
  let a := decided_app w (st_app st) args in
  should_build a = UNKNOWN ->
  let reconfigure := cmake_common_args w h a ++ ["reconfigure"] in
  let out := fst (run_command h (st_trace st) reconfigure) in
  let rc := snd (run_command h (st_trace st) reconfigure) in
  let tr := st_trace st ++ [cmake_run w a reconfigure] in
  let comps := List.filter truthy (project_build_components h tr) in
  let r := cmake_build w h args st in
  (rc <> 0 ->
   r = (mkState a (st_log st +:+ out) tr,
        inl (BuildError ("Command returned non-zero exit status " +:+ of_int rc))))
  /\ (rc = 0 -> (forall c, c ∈ mc -> c ∉ comps) ->
      r = (mkState a (st_log st +:+ out)
             (tr ++ [ELog LInfo (MsgSkipBuildingComponents (app_dir a) comps mc)]),
           inr false))
  /\ (rc = 0 -> (exists c, c ∈ mc /\ c ∈ comps) ->
      st_app (fst r) = set_should_build YES a /\
      st_trace (fst r)
      = tr ++ [cmake_run w a (cmake_build_args w h (set_should_build YES a))]).
Proof.
  intros Hchk Hmc a Hu reconfigure out rc tr comps r.
  assert (Hr : r = (proceed ← (subprocess_run h reconfigure
                                [("IDF_TARGET", target a)] None (log_terminal_of w a)
                                ToBuildLog;;
                              tr ← get_trace;
                              if negb (set_inter_nonempty mc
                                         (List.filter truthy (project_build_components h tr)))
                              then
                                log LInfo (MsgSkipBuildingComponents (app_dir a)
                                             (List.filter truthy
                                                (project_build_components h tr)) mc);;
                                mret false
                              else put_app (set_should_build YES a);; mret true);
                    if negb proceed then mret false
                    else
                      a ← get_app;
                      if bool_decide (should_build a = NO) then
                        log LInfo MsgSkipBuilding;; mret false
                      else
                        subprocess_run h (cmake_build_args w h a)
                          [("IDF_TARGET", target a)] None
                          (log_terminal_of w a) ToBuildLog;;
                        mret true)
                     (mkState a (st_log st) (st_trace st))).
  { subst r. unfold cmake_build. rewrite !bind_run, cmake_resolve_decision_run.
    fold a. rewrite Hmc, Hchk, Hu. rewrite bool_decide_eq_true_2 by reflexivity.
    cbn [andb]. rewrite !bind_run. reflexivity. }
  rewrite Hr. clear Hr. rewrite !bind_run, subprocess_run_run.
  cbn [st_app st_log st_trace]. fold rc. fold out. change (ERun reconfigure _ _ _ _) with (cmake_run w a reconfigure).
  fold tr.
  split; [|split].
  - intros Hrc. apply Z.eqb_neq in Hrc. now rewrite Hrc.
  - intros Hrc Hnone. rewrite Hrc. cbn [Z.eqb]. rewrite bind_run.
    cbn [get_trace st_trace]. fold comps.
    unfold set_inter_nonempty. rewrite bool_decide_eq_false_2.
    + cbn [negb]. rewrite bind_run, log_run. reflexivity.
    + rewrite set_inter_spec. intros (c & H1 & H2). exact (Hnone c H1 H2).
  - intros Hrc Hsome. rewrite Hrc. cbn [Z.eqb]. rewrite bind_run.
    cbn [get_trace st_trace]. fold comps.
    unfold set_inter_nonempty. rewrite bool_decide_eq_true_2
      by (rewrite set_inter_spec; exact Hsome).
    cbn [negb]. rewrite bind_run. cbn [put_app mret M_ret negb].
    rewrite bind_run. cbn [get_app st_app should_build set_should_build].
    rewrite bool_decide_eq_false_2 by discriminate.
    rewrite bind_run, subprocess_run_run. cbn [st_app st_log st_trace].
    match goal with
    | |- context [if ?c =? 0 then inr tt else _] => destruct (c =? 0)
    end; split; reflexivity.
Qed.

Lemma cmake_reconfigure_settles_unknown_witness :
  let args := mkBuildArgs None (Some ["main"]) None true in
  let st := initial_state app_open in
  (check_app_dependencies args = true /\ modified_components args = Some ["main"] /\
   should_build (decided_app w_plain (st_app st) args) = UNKNOWN) /\
  (cmake_build w_plain (components_host ["esp_wifi"; EmptyString]) args st
   = (mkState app_open EmptyString
        [cmake_run w_plain app_open
           (cmake_common_args w_plain (components_host ["esp_wifi"; EmptyString]) app_open
            ++ ["reconfigure"]);
         ELog LInfo (MsgSkipBuildingComponents "proj" ["esp_wifi"] ["main"])],
      inr false)) /\
  should_build
    (st_app (fst (cmake_build w_plain (components_host ["main"]) args st))) = YES.
Proof.
  intros args st. split; [repeat split; reflexivity|]. split.
  - destruct (cmake_reconfigure_settles_unknown w_plain
                (components_host ["esp_wifi"; EmptyString]) args st ["main"])
      as (_ & H & _); [reflexivity|reflexivity|reflexivity|].
    rewrite H; [reflexivity|reflexivity|].
    intros c Hc Hin. vm_compute in Hin.
    apply list_elem_of_In in Hc, Hin. cbn in Hc, Hin.
    destruct Hc as [<-|[]]. destruct Hin as [Hin|[]]. discriminate.
  - destruct (cmake_reconfigure_settles_unknown w_plain
                (components_host ["main"]) args st ["main"])
      as (_ & _ & H); [reflexivity|reflexivity|reflexivity|].
    destruct H as [H _]; [reflexivity|exists "main"; split; vm_compute; constructor|].
    rewrite H. reflexivity.
Defined.

(** X17.  [build] runs for real and [_build] raises an exception that
    is not a [BuildError].  [build] closes the log and lets the exception
    through: the log is not read, a temporary log is not removed, no size
    report is written and the build directory is not cleaned. *)
Theorem other_exception_only_closes_log
  (w : World) (h : Host) (bm : BuildArgs -> M bool)
  (root : option string) (mc mf : option StrOrList) (chk : bool)
  (st st1 st3 : State) (msg : string) :
  dry_run (st_app st) = false ->
  fst (prepare w h st) = st1 ->
  bm (mkBuildArgs root (to_list mc) (to_list mf) chk) (build_start w h st1)
  = (st3, inl (OtherError msg)) ->
  build_with w h bm root mc mf chk st
  = (with_events st3 [ECloseLog (log_name w h st1)], inl (OtherError msg)).
Proof.
  intros Hdry Hprep Hbm.
  now rewrite (build_with_run w h bm root mc mf chk st st1 st3 _ Hdry Hprep Hbm).
Qed.

Lemma other_exception_only_closes_log_witness :
  let h := sample_host error_output 2 in
  let st := initial_state app_strict in
  dry_run (st_app st) = false /\
  build_with w_plain h crashing_build None None None false st
  = (with_events (build_start w_plain h (fst (prepare w_plain h st)))
       [ECloseLog "/tmp/tmplog"],
     inl (OtherError "KeyboardInterrupt")).
Proof.
  intros h st. split; [reflexivity|].
  apply (other_exception_only_closes_log w_plain h crashing_build None None None false
           st (fst (prepare w_plain h st))); reflexivity.
Defined.

(** *** The lines of the log *)

Lemma rstrip_idem (s : string) : rstrip (rstrip s) = rstrip s.
Proof.
  induction s as [|c s IH]; [reflexivity|].
  cbn [rstrip]. destruct (rstrip s) as [|d r] eqn:E.
  - destruct (is_space c) eqn:Ec; [reflexivity|].
    cbn [rstrip]. now rewrite Ec.
  - change (rstrip (String c (String d r))) with
      (match rstrip (String d r) with
       | EmptyString => if is_space c then EmptyString else String c EmptyString
       | x => String c x
       end).
    now rewrite IH.
Qed.

(** X18.  The lines [build] reads back from the log are non-empty and
    carry no trailing white space, and the lines shown after a build
    error are the final ones of them, in order: all of them when there
    are at most [LOG_DEBUG_LINES], the last 25 otherwise. *)
Theorem reported_lines_shape (content : string) :
  let ls := log_lines content in
  Forall (fun l => truthy l = true /\ rstrip l = l) ls
  /\ (exists pre, ls = pre ++ last_lines LOG_DEBUG_LINES ls)
  /\ length (last_lines LOG_DEBUG_LINES ls) = Nat.min 25 (length ls).
Proof.
  intros ls. split; [|split].
  - subst ls. unfold log_lines. apply Forall_forall. intros l Hl.
    apply list_elem_of_In, in_map_iff in Hl as (l0 & <- & Hin).
    apply filter_In in Hin as [_ Ht]. split; [exact Ht|apply rstrip_idem].
  - exists (firstn (length ls - Z.to_nat LOG_DEBUG_LINES) ls).
    unfold last_lines. symmetry. apply firstn_skipn.
  - unfold last_lines. rewrite length_skipn.
    change (Z.to_nat LOG_DEBUG_LINES) with 25%nat. lia.
Qed.

Lemma ascii_lower_char_inv (c l : ascii) :
  ascii_lower_char c = l ->
  c = l \/
  (c = ascii_of_nat (nat_of_ascii l - 32) /\ (97 <=? nat_of_ascii l)%nat = true).
Proof.
  intros <-. destruct c as [[] [] [] [] [] [] [] []]; vm_compute;
    first [left; reflexivity|right; split; reflexivity].
Qed.

Lemma search_app (pat : list (list string)) (pre s : string) :
  match_here pat s = true -> search pat (pre +:+ s) = true.
Proof.
  intros H. induction pre as [|c pre IH].
  - rewrite PyStr_facts.app_nil_l. destruct s; cbn [search]; now rewrite H.
  - rewrite PyStr_facts.app_cons. cbn [search]. rewrite IH. apply orb_true_r.
Qed.

Lemma search_inv (pat : list (list string)) (s : string) :
  search pat s = true -> exists pre t, s = pre +:+ t /\ match_here pat t = true.
Proof.
  induction s as [|c s IH]; cbn [search]; intros H.
  - rewrite orb_false_r in H. now exists EmptyString, EmptyString.
  - apply orb_true_iff in H as [H|H].
    + now exists EmptyString, (String c s).
    + destruct (IH H) as (pre & t & -> & Ht). now exists (String c pre), t.
Qed.

Lemma match_here_cons_inv (alts : list string) (pat : list (list string)) (s : string) :
  match_here (alts :: pat) s = true ->
  exists alt t, In alt alts /\ s = alt +:+ t /\ match_here pat t = true.
Proof.
  cbn [match_here]. intros H. apply existsb_exists in H as (alt & Hin & H).
  apply andb_true_iff in H as [H1 H2].
  apply PyStr_facts.startswith_spec in H1 as [t ->].
  rewrite PyStr_facts.drop_app_length in H2. now exists alt, t.
Qed.

Lemma contains_drop (x : string) (n : nat) (s : string) :
  contains x (drop n s) = true -> contains x s = true.
Proof.
  revert s. induction n as [|n IH]; intros s H; [exact H|].
  destruct s as [|c s]; [exact H|]. cbn [drop] in H.
  rewrite PyStr_facts.contains_cons, (IH s H). apply orb_true_r.
Qed.

Lemma match_here_colon (pat : list (list string)) (s : string) :
  match_here (pat ++ [[":"]]) s = true -> contains ":" s = true.
Proof.
  revert s. induction pat as [|alts pat IH]; intros s.
  - cbn [app match_here existsb]. rewrite orb_false_r, andb_true_r.
    intros H. destruct s; cbn [contains]; now rewrite H.
  - rewrite <- app_comm_cons. cbn [match_here]. intros H.
    apply existsb_exists in H as (alt & _ & H).
    apply andb_true_iff in H as [_ H]. apply IH in H.
    now apply contains_drop in H.
Qed.

Lemma search_colon (pat : list (list string)) (s : string) :
  search (pat ++ [[":"]]) s = true -> contains ":" s = true.
Proof.
  induction s as [|c s IH]; cbn [search]; intros H.
  - rewrite orb_false_r in H. now apply match_here_colon in H.
  - apply orb_true_iff in H as [H|H]; [now apply match_here_colon in H|].
    rewrite PyStr_facts.contains_cons, (IH H). apply orb_true_r.
Qed.

Lemma error_in_any_case (word post : string) :
  ascii_lower word = "error:" -> match_here ERROR_COLON (word +:+ post) = true.
Proof.
  destruct word as [|c1 [|c2 [|c3 [|c4 [|c5 [|c6 [|c7 word]]]]]]]; try discriminate.
  cbn [ascii_lower]. intros [= H1 H2 H3 H4 H5 H6].
  apply ascii_lower_char_inv in H1, H2, H3, H4, H5, H6.
  destruct H1 as [->|[-> H1]], H2 as [->|[-> H2]], H3 as [->|[-> H3]],
    H4 as [->|[-> H4]], H5 as [->|[-> H5]], H6 as [->|[-> H6]];
    try discriminate; reflexivity.
Qed.

Lemma warning_in_any_case (word post : string) :
  ascii_lower word = "warning:" -> match_here WARNING_COLON (word +:+ post) = true.
Proof.
  destruct word as [|c1 [|c2 [|c3 [|c4 [|c5 [|c6 [|c7 [|c8 [|c9 word]]]]]]]]];
    try discriminate.
  cbn [ascii_lower]. intros [= H1 H2 H3 H4 H5 H6 H7 H8].
  apply ascii_lower_char_inv in H1, H2, H3, H4, H5, H6, H7, H8.
  destruct H1 as [->|[-> H1]], H2 as [->|[-> H2]], H3 as [->|[-> H3]],
    H4 as [->|[-> H4]], H5 as [->|[-> H5]], H6 as [->|[-> H6]],
    H7 as [->|[-> H7]], H8 as [->|[-> H8]];
    try discriminate; reflexivity.
Qed.

Lemma warning_with_dotted_i (w1 i w2 post : string) :
  ascii_lower w1 = "warn" -> i = CAPITAL_DOTTED_I \/ i = DOTLESS_I ->
  ascii_lower w2 = "ng:" ->
  match_here WARNING_COLON ((w1 +:+ i +:+ w2) +:+ post) = true.
Proof.
  destruct w1 as [|c1 [|c2 [|c3 [|c4 [|c5 w1]]]]]; try discriminate.
  destruct w2 as [|d1 [|d2 [|d3 [|d4 w2]]]]; try discriminate.
  cbn [ascii_lower]. intros [= H1 H2 H3 H4] Hi [= H6 H7 H8].
  apply ascii_lower_char_inv in H1, H2, H3, H4, H6, H7, H8.
  destruct Hi as [->| ->];
    destruct H1 as [->|[-> H1]], H2 as [->|[-> H2]], H3 as [->|[-> H3]],
      H4 as [->|[-> H4]], H6 as [->|[-> H6]], H7 as [->|[-> H7]],
      H8 as [->|[-> H8]];
    try discriminate; reflexivity.
Qed.

Lemma names_flagged (word post : string) :
  names_error_or_warning word ->
  match_here ERROR_COLON (word +:+ post) = true \/
  match_here WARNING_COLON (word +:+ post) = true.
Proof.
  intros [H|[H|(w1 & i & w2 & -> & H1 & Hi & H2)]].
  - left. now apply error_in_any_case.
  - right. now apply warning_in_any_case.
  - right. now apply warning_with_dotted_i.
Qed.

Ltac pick_alternatives H :=
  repeat (let Hin := fresh "Hin" in
          apply match_here_cons_inv in H as (? & ? & Hin & -> & H);
          cbn [In] in Hin).

Lemma error_spelled (s : string) :
  match_here ERROR_COLON s = true ->
  exists word post, s = word +:+ post /\ ascii_lower word = "error:".
Proof.
  unfold ERROR_COLON. intros H. pick_alternatives H.
  match goal with
  | |- exists word post, ?a1 +:+ ?a2 +:+ ?a3 +:+ ?a4 +:+ ?a5 +:+ ?a6 +:+ ?t = _ /\ _ =>
      exists (a1 +:+ a2 +:+ a3 +:+ a4 +:+ a5 +:+ a6), t
  end.
  split; [now rewrite !PyStr_facts.app_assoc|].
  repeat match goal with
         | Hx : _ \/ _ |- _ => destruct Hx as [<-|Hx]
         | Hx : False |- _ => destruct Hx
         end; reflexivity.
Qed.

Lemma warning_spelled (s : string) :
  match_here WARNING_COLON s = true ->
  exists word post,
    s = word +:+ post /\
    (ascii_lower word = "warning:" \/
     exists w1 i w2,
       word = w1 +:+ i +:+ w2 /\ ascii_lower w1 = "warn" /\
       (i = CAPITAL_DOTTED_I \/ i = DOTLESS_I) /\ ascii_lower w2 = "ng:").
Proof.
  unfold WARNING_COLON. intros H. pick_alternatives H.
  match goal with
  | |- exists word post,
         ?a1 +:+ ?a2 +:+ ?a3 +:+ ?a4 +:+ ?a5 +:+ ?a6 +:+ ?a7 +:+ ?a8 +:+ ?t = _ /\ _ =>
      exists (a1 +:+ a2 +:+ a3 +:+ a4 +:+ a5 +:+ a6 +:+ a7 +:+ a8), t;
        split; [now rewrite !PyStr_facts.app_assoc|];
        assert (Hsplit : a1 +:+ a2 +:+ a3 +:+ a4 +:+ a5 +:+ a6 +:+ a7 +:+ a8
                         = (a1 +:+ a2 +:+ a3 +:+ a4) +:+ a5 +:+ (a6 +:+ a7 +:+ a8))
          by (now rewrite !PyStr_facts.app_assoc);
        assert (Hcase : ascii_lower (a1 +:+ a2 +:+ a3 +:+ a4 +:+ a5 +:+ a6 +:+ a7 +:+ a8)
                        = "warning:"
                        \/ (ascii_lower (a1 +:+ a2 +:+ a3 +:+ a4) = "warn" /\
                            (a5 = CAPITAL_DOTTED_I \/ a5 = DOTLESS_I) /\
                            ascii_lower (a6 +:+ a7 +:+ a8) = "ng:"));
        [|destruct Hcase as [Hc|(Hc1 & Hc2 & Hc3)];
          [now left|right; now exists (a1 +:+ a2 +:+ a3 +:+ a4), a5, (a6 +:+ a7 +:+ a8)]]
  end.
  clear Hsplit.
  repeat match goal with
         | Hx : _ \/ _ |- _ => destruct Hx as [<-|Hx]
         | Hx : False |- _ => destruct Hx
         end;
    first [left; reflexivity
          |right; split; [reflexivity|split; [|reflexivity]];
           first [left; reflexivity|right; reflexivity]].
Qed.

(** X19.  [is_error_or_warning] flags a line exactly when the line holds
    [error:] or [warning:] with its ASCII letters in any case, or
    [warning:] with U+0130 or U+0131 for the [i]; so a line without a
    colon is never flagged.  A line is ignored only if it is flagged, and
    with no ignore pattern configured no line is ignored. *)
Theorem is_error_or_warning_flags (w : World) (line : string) :
  (fst (is_error_or_warning w line) = true <->
   exists pre word post,
     line = pre +:+ word +:+ post /\ names_error_or_warning word)
  /\ (contains ":" line = false -> is_error_or_warning w line = (false, false))
  /\ (snd (is_error_or_warning w line) = true -> fst (is_error_or_warning w line) = true)
  /\ (IGNORE_WARNS_REGEXES w = [] -> snd (is_error_or_warning w line) = false).
Proof.
  unfold is_error_or_warning, LOG_ERROR_WARNING_REGEX_search.
  split; [|split; [|split]].
  - split.
    + destruct (search ERROR_COLON line) eqn:E.
      * intros _. apply search_inv in E as (pre & t & -> & E).
        apply error_spelled in E as (word & post & -> & E).
        exists pre, word, post. split; [reflexivity|now left].
      * destruct (search WARNING_COLON line) eqn:E'; [|discriminate].
        intros _. apply search_inv in E' as (pre & t & -> & E').
        apply warning_spelled in E' as (word & post & -> & E').
        exists pre, word, post. split; [reflexivity|now right].
    + intros (pre & word & post & -> & H).
      destruct (names_flagged word post H) as [Hm|Hm];
        rewrite (search_app _ pre _ Hm); [reflexivity|].
      now rewrite orb_true_r.
  - intros Hc.
    assert (He : search ERROR_COLON line = false).
    { destruct (search ERROR_COLON line) eqn:E; [|reflexivity].
      apply (search_colon [["e"; "E"]; ["r"; "R"]; ["r"; "R"]; ["o"; "O"]; ["r"; "R"]])
        in E. congruence. }
    assert (Hw : search WARNING_COLON line = false).
    { destruct (search WARNING_COLON line) eqn:E; [|reflexivity].
      apply (search_colon [["w"; "W"]; ["a"; "A"]; ["r"; "R"]; ["n"; "N"];
                           ["i"; "I"; CAPITAL_DOTTED_I; DOTLESS_I];
                           ["n"; "N"]; ["g"; "G"]]) in E. congruence. }
    rewrite He, Hw. reflexivity.
  - destruct (search ERROR_COLON line || search WARNING_COLON line);
      [reflexivity|discriminate].
  - intros ->. now destruct (negb _).
Qed.

Lemma is_error_or_warning_flags_witness :
  ("main.c:3: WARNING: unused variable" = "main.c:3: " +:+ "WARNING:" +:+ " unused variable"
   /\ names_error_or_warning "WARNING:") /\
  fst (is_error_or_warning w_plain "main.c:3: WARNING: unused variable") = true /\
  contains ":" "all good" = false /\
  is_error_or_warning w_plain "all good" = (false, false).
Proof.
  assert (Hn : names_error_or_warning "WARNING:") by (right; left; reflexivity).
  split; [split; [reflexivity|exact Hn]|].
  destruct (is_error_or_warning_flags w_plain "main.c:3: WARNING: unused variable")
    as ([_ H] & _).
  split; [apply H; exists "main.c:3: ", "WARNING:", " unused variable"; now split|].
  split; [reflexivity|].
  destruct (is_error_or_warning_flags w_plain "all good") as (_ & H' & _).
  apply H'. reflexivity.
Defined.

End Lifecycle_more.

(** ** More about the sdkconfig defaults *)

Section Defaults_more.
Import PyStr Defaults PyStr_facts.

Lemma join_cons (sep x : string) (l : list string) :
  l <> [] -> join sep (x :: l) = x +:+ sep +:+ join sep l.
Proof. destruct l; [contradiction|reflexivity]. Qed.

Lemma join_split (sep : ascii) (s : string) :
  join (String sep EmptyString) (split sep s) = s.
Proof.
  induction s as [|c s IH]; [reflexivity|]. cbn [split].
  destruct (Ascii.eqb c sep) eqn:E.
  - apply Ascii.eqb_eq in E. subst c.
    rewrite join_cons by apply split_nonempty. now rewrite IH.
  - pose proof (split_nonempty sep s) as Hne.
    destruct (split sep s) as [|x l]; [contradiction|].
    destruct l as [|y l].
    + cbn [join] in *. now rewrite IH.
    + rewrite join_cons in * by discriminate.
      rewrite app_cons. now rewrite IH.
Qed.

(** X20.  [_get_sdkconfig_defaults] never returns an empty list.  An
    argument that is not [None] wins over the environment, and so does
    the empty string, which gives one empty candidate; the candidates of
    a string hold no semicolon and joined with semicolons they give the
    string back.  Without an argument the variable [SDKCONFIG_DEFAULTS]
    is treated as an argument would be, and without both the only
    candidate is the default name. *)
Theorem sdkconfig_defaults_candidates
  (w : World) (DEFAULT_SDKCONFIG : string) (arg : option string) :
  let l := _get_sdkconfig_defaults w DEFAULT_SDKCONFIG arg in
  l <> []
  /\ (forall s, arg = Some s ->
       join ";" l = s /\ Forall (fun x => contains ";" x = false) l)
  /\ (arg = Some EmptyString -> l = [EmptyString])
  /\ (arg = None ->
      l = match environ w "SDKCONFIG_DEFAULTS" with
          | Some e => _get_sdkconfig_defaults w DEFAULT_SDKCONFIG (Some e)
          | None => [DEFAULT_SDKCONFIG]
          end).
Proof.
  intros l. subst l. unfold _get_sdkconfig_defaults. split; [|split; [|split]].
  - destruct arg as [s|]; [apply split_nonempty|].
    destruct (environ w "SDKCONFIG_DEFAULTS"); [apply split_nonempty|discriminate].
  - intros s ->. split; [apply join_split|apply split_no_sep].
  - intros ->. reflexivity.
  - intros ->. reflexivity.
Qed.

Lemma sdkconfig_defaults_candidates_witness :
  _get_sdkconfig_defaults Samples.w_home "sdkconfig.defaults" (Some "a;b;")
  = ["a"; "b"; EmptyString]
  /\ join ";" (_get_sdkconfig_defaults Samples.w_home "sdkconfig.defaults" (Some "a;b;"))
     = "a;b;".
Proof.
  split; [reflexivity|].
  destruct (sdkconfig_defaults_candidates Samples.w_home "sdkconfig.defaults"
              (Some "a;b;")) as (_ & H & _).
  destruct (H "a;b;" eq_refl) as [E _]. exact E.
Defined.

End Defaults_more.
